(** * Component: a shallow embedding of [component.js]

    The library has three objects: [Element] (a named binding of a widget to
    a set of DOM nodes), [Component] (a widget: its bindings, its delegated
    native listeners and the propagation walk) and [Hub] (the registry of
    components and of cross-component subscriptions).

    JavaScript objects that are shared and mutated are kept in a store and are
    referred to by a reference: DOM nodes live in an arena, components in a
    heap, the observers array in a heap of arrays.  User-supplied functions
    (event handlers, startup hooks, templates, subscription handlers) are
    referred to by a code pointer whose meaning is given by a [Callbacks]
    record.  Every operation returns the calls it made, in order, next to the
    state it leaves. *)

From Stdlib Require Import Ascii String PrimFloat.
From stdpp Require Import base list strings gmap.

Set Warnings "-register-all".
Local Open Scope string_scope.
Local Open Scope list_scope.

(** ** Values and JavaScript objects used as records *)

(** Nodes, components and arrays are references into their store; [Code]
    names a user-supplied function. *)
Abbreviation Node := nat (only parsing).
Abbreviation CompRef := nat (only parsing).
Abbreviation ArrRef := nat (only parsing).
Abbreviation Code := nat (only parsing).

Inductive Value :=
| VUndefined
| VBool (b : bool)
| VNum (x : float)
| VStr (s : string)
| VNode (n : Node)
| VComp (c : CompRef).

(** A plain object (or a [Map]): its own keys in insertion order. *)
Abbreviation Obj A := (list (string * A)) (only parsing).

Fixpoint obj_get {A} (k : string) (o : Obj A) : option A :=
  match o with
  | [] => None
  | (k', v) :: o' => if String.eqb k k' then Some v else obj_get k o'
  end.

(** [o[k] = v] and [Map.prototype.set]: an existing key keeps its place. *)
Fixpoint obj_set {A} (k : string) (v : A) (o : Obj A) : Obj A :=
  match o with
  | [] => [(k, v)]
  | (k', v') :: o' =>
      if String.eqb k k' then (k', v) :: o' else (k', v') :: obj_set k v o'
  end.

(** [Object.assign(target, src)]. *)
Definition obj_assign {A} (target src : Obj A) : Obj A :=
  fold_left (fun acc kv => obj_set (fst kv) (snd kv) acc) src target.

Definition obj_keys {A} (o : Obj A) : list string := map fst o.
Definition obj_values {A} (o : Obj A) : list A := map snd o.

(** A statement either completes or throws a [TypeError]; both carry the
    state reached. *)
Inductive Completion (A : Type) :=
| Normal (a : A)
| TypeError (a : A).
Arguments Normal {A} a.
Arguments TypeError {A} a.

(** The two exceptions of [classList.add(token)]: the token is the empty
    string, or it holds ASCII whitespace. *)
Inductive DOMException :=
| SyntaxError
| InvalidCharacterError.

(** A call that returns or raises a [DOMException]; when it raises it has
    changed nothing. *)
Inductive Attempt (A : Type) :=
| Returned (a : A)
| Raised (e : DOMException).
Arguments Returned {A} a.
Arguments Raised {A} e.

(** A JavaScript number is a double. *)
Abbreviation Number := float (only parsing).

(** ** The DOM *)

Record DomNode := {
  parentNode : option Node;
  classList : list string
}.

Abbreviation DOM := (list DomNode) (only parsing).

Definition parent_of (d : DOM) (n : Node) : option Node :=
  match d !! n with
  | Some x => parentNode x
  | None => None
  end.

(** The [k]-th ancestor of a node. *)
Fixpoint ancestor (d : DOM) (k : nat) (n : Node) : option Node :=
  match k with
  | 0 => Some n
  | S k' =>
      match parent_of d n with
      | Some p => ancestor d k' p
      | None => None
      end
  end.

(** Walk up from [n] for at most [fuel] parent links looking for [a]. *)
Fixpoint reaches (d : DOM) (fuel : nat) (a n : Node) : bool :=
  if Nat.eqb a n then true
  else
    match fuel with
    | 0 => false
    | S f =>
        match parent_of d n with
        | Some p => reaches d f a p
        | None => false
        end
    end.

(** The platform's [a.contains(b)]: [b] is [a] or a descendant of [a]. *)
Definition contains (d : DOM) (a b : Node) : bool := reaches d (length d) a b.

Definition proper_descendant (d : DOM) (scope n : Node) : bool :=
  match parent_of d n with
  | Some p => reaches d (length d) scope p
  | None => false
  end.

(** [parent.removeChild(n)] for [parent = n.parentNode]: [n] is detached. *)
Definition removeChild (n : Node) (d : DOM) : DOM :=
  match d !! n with
  | Some x => <[n := {| parentNode := None; classList := classList x |}]> d
  | None => d
  end.

(** [target.appendChild(n)]. *)
Definition appendChild (target n : Node) (d : DOM) : DOM :=
  match d !! n with
  | Some x => <[n := {| parentNode := Some target; classList := classList x |}]> d
  | None => d
  end.

(** Markup, by its parse tree. *)
Inductive Markup :=
| Tag (classes : list string) (children : list Markup).

Fixpoint alloc (p : option Node) (m : Markup) (d : DOM) : DOM :=
  match m with
  | Tag cls kids =>
      let me := length d in
      (fix go (ks : list Markup) (d' : DOM) : DOM :=
         match ks with
         | [] => d'
         | k :: ks' => go ks' (alloc (Some me) k d')
         end) kids (d ++ [{| parentNode := p; classList := cls |}])
  end.

(** Modelled from the spec: [utils.createNode(markup)] is not part of the
    sources; it "parses a markup fragment into one detached root node". *)
Definition createNode (m : Markup) (d : DOM) : Node * DOM :=
  (length d, alloc None m d).

(** ** Class lists

    A [classList] is an ordered set of tokens. *)

(** Tab, line feed, form feed, carriage return and space. *)
Definition asciiWhitespace (a : ascii) : bool :=
  existsb (Ascii.eqb a) ["009"; "010"; "012"; "013"; " "]%char.

Fixpoint hasWhitespace (s : string) : bool :=
  match s with
  | EmptyString => false
  | String a rest => asciiWhitespace a || hasWhitespace rest
  end.

(** What [classList.add(token)] checks before it adds anything. *)
Definition checkToken (token : string) : option DOMException :=
  if String.eqb token "" then Some SyntaxError
  else if hasWhitespace token then Some InvalidCharacterError
  else None.

(** Appending to an ordered set: a token it holds stays where it is. *)
Definition appendToken (set : list string) (token : string) : list string :=
  if existsb (String.eqb token) set then set else set ++ [token].

(** The ordered set of the tokens of a class attribute. *)
Definition orderedSet (tokens : list string) : list string :=
  fold_left appendToken tokens [].

(** [node.classList.add(token)] on the root of a markup fragment, read back
    as [node.outerHTML]: the class attribute is the token set serialised. *)
Definition add_class (token : string) (m : Markup) : Attempt Markup :=
  match checkToken token with
  | Some e => Raised e
  | None =>
      match m with
      | Tag cls kids => Returned (Tag (appendToken (orderedSet cls) token) kids)
      end
  end.

(** ** The objects of the library *)

(** What [define] is given for one binding: the object literal.  The
    [actions] a specification may add to the three built-in ones are user
    code the library never calls and are left out; the built-in ones are in
    [Actions] below. *)
Record ElementSpec := {
  s_name : string;
  s_selector : option string;
  s_handlers : Obj Code;
  s_template : option Code;
  s_startup : option Code
}.

Record Element := {
  el_name : string;
  el_selector : string;
  el_className : option string;
  el_handlers : Obj Code;
  el_template : option Code;
  el_startup : option Code;
  el_nodes : list Node;
  el_component : CompRef
}.

Definition set_nodes (ns : list Node) (e : Element) : Element :=
  {| el_name := el_name e; el_selector := el_selector e;
     el_className := el_className e; el_handlers := el_handlers e;
     el_template := el_template e; el_startup := el_startup e;
     el_nodes := ns; el_component := el_component e |}.

(** The function given to [addEventListener]. *)
Inductive ListenerFn :=
| Delegate (c : CompRef)        (* this.handler.bind(this) *)
| TouchRecorder (c : CompRef).  (* ev => { this.touches.x = ...; this.touches.y = ... } *)

Record NativeListener := {
  l_type : string;
  l_fn : ListenerFn;
  l_capture : bool
}.

Record Component := {
  c_name : string;
  container : Node;
  c_selector : string;
  elements : Obj Element;
  registeredHandlers : Obj ListenerFn;
  (* undefined, or the object holding the last touchstart coordinates *)
  touches : option (option (Number * Number))
}.

Definition set_elements (es : Obj Element) (c : Component) : Component :=
  {| c_name := c_name c; container := container c; c_selector := c_selector c;
     elements := es; registeredHandlers := registeredHandlers c;
     touches := touches c |}.

Definition set_registeredHandlers (r : Obj ListenerFn) (c : Component) : Component :=
  {| c_name := c_name c; container := container c; c_selector := c_selector c;
     elements := elements c; registeredHandlers := r; touches := touches c |}.

Definition set_touches (t : option (option (Number * Number))) (c : Component)
  : Component :=
  {| c_name := c_name c; container := container c; c_selector := c_selector c;
     elements := elements c; registeredHandlers := registeredHandlers c;
     touches := t |}.

(** A function with its receiver bound ([f.bind(this)]). *)
Record BoundFn := {
  fn_code : Code;
  fn_this : option CompRef
}.

Record Observer := {
  o_component : CompRef;
  o_event : string;
  o_handler : BoundFn
}.

Record State := {
  dom : DOM;
  listeners : list (Node * NativeListener);  (* addEventListener registrations *)
  heap : list Component;                     (* component objects *)
  arrays : list (list Observer);             (* array objects of observer records *)
  hub_components : list CompRef;             (* Hub.components *)
  hub_observers : ArrRef                     (* Hub.observers *)
}.

Definition set_dom (d : DOM) (s : State) : State :=
  {| dom := d; listeners := listeners s; heap := heap s; arrays := arrays s;
     hub_components := hub_components s; hub_observers := hub_observers s |}.

Definition set_listeners (l : list (Node * NativeListener)) (s : State) : State :=
  {| dom := dom s; listeners := l; heap := heap s; arrays := arrays s;
     hub_components := hub_components s; hub_observers := hub_observers s |}.

Definition set_heap (h : list Component) (s : State) : State :=
  {| dom := dom s; listeners := listeners s; heap := h; arrays := arrays s;
     hub_components := hub_components s; hub_observers := hub_observers s |}.

Definition set_arrays (a : list (list Observer)) (s : State) : State :=
  {| dom := dom s; listeners := listeners s; heap := heap s; arrays := a;
     hub_components := hub_components s; hub_observers := hub_observers s |}.

Definition set_hub_components (l : list CompRef) (s : State) : State :=
  {| dom := dom s; listeners := listeners s; heap := heap s; arrays := arrays s;
     hub_components := l; hub_observers := hub_observers s |}.

Definition set_hub_observers (r : ArrRef) (s : State) : State :=
  {| dom := dom s; listeners := listeners s; heap := heap s; arrays := arrays s;
     hub_components := hub_components s; hub_observers := r |}.

(** The contents of an array object; an unallocated one has none. *)
Definition array_of (s : State) (a : ArrRef) : list Observer :=
  default [] (arrays s !! a).

Definition update_component (c : CompRef) (f : Component -> Component) (s : State) : State :=
  match heap s !! c with
  | Some x => set_heap (<[c := f x]> (heap s)) s
  | None => s
  end.

(** ** Events *)

Record Gesture := {
  isHorizontal : bool;
  isLeftToRight : bool;
  isBottomToTop : bool
}.

Record Event := {
  ev_target : Node;
  ev_relatedTarget : option Node;
  ev_type : string;
  ev_touches0 : option (Number * Number);  (* ev.touches[0].clientX / clientY *)
  ev_gesture : option Gesture       (* the flags [handler] adds for touchmove *)
}.

Definition set_gesture (g : option Gesture) (e : Event) : Event :=
  {| ev_target := ev_target e; ev_relatedTarget := ev_relatedTarget e;
     ev_type := ev_type e; ev_touches0 := ev_touches0 e; ev_gesture := g |}.

(** What a handler may do with the event it is given. *)
Inductive EvAction :=
| StopInner        (* ev.stopInnerPropagation() *)
| StopNative       (* ev.stopPropagation() *)
| PreventDefault.  (* ev.preventDefault() *)

Record Flags := {
  propagationStopped : bool;
  defaultPrevented : bool
}.

(** A payload object is used as a map from keys to values. *)
Abbreviation Payload := (gmap string Value) (only parsing).


(** The calls an operation makes, in the order it makes them. *)
Inductive Call :=
| CFind (cur : option Node)                                   (* this.findElement(currentTarget) *)
| CHandler (binding type : string) (code : Code) (index : nat) (* eventHandler.call(element, ev, index) *)
| CStopInner                                                  (* ev.stopInnerPropagation() *)
| CNativeStop                                                 (* ev.stopPropagation() *)
| CPreventDefault                                             (* ev.preventDefault() *)
| CSet (binding : string)                                     (* this.elements.set(name, element) *)
| CStartup (binding : string) (code : Code)                   (* element.startup() *)
| CAddListener (n : Node) (l : NativeListener)                (* container.addEventListener(...) *)
| CObserver (o : Observer) (p : Payload).                     (* observer.handler(payload) *)

(** ** User code and the external utilities

    [matches] is [utils.matches(node, selector)], the selector engine.  The
    other fields give the meaning of the functions the caller supplies: a
    state transformer, together with what the function does with the object
    it is handed (the event's capabilities, the payload object). *)
Record Callbacks := {
  matches : DOM -> Node -> string -> bool;
  template_fn : Code -> list Value -> Markup;
  handler_fn : Code -> Element -> Event -> nat -> State -> State * list EvAction;
  startup_fn : Code -> Element -> State -> State;
  observer_fn : BoundFn -> Payload -> State -> State * Payload
}.

(** Modelled from the spec: [utils.queryAll(selector, scopeNode)] is not part
    of the sources; it returns the "ordered list of nodes: all descendants of
    scopeNode matching selector".  The arena is taken in index order. *)
Definition queryAll (cb : Callbacks) (sel : string) (scope : Node) (d : DOM) : list Node :=
  List.filter (fun n => proper_descendant d scope n && matches cb d n sel)
              (seq 0 (length d)).

(** ** Element *)

Module Element.
Section Methods.
Context (cb : Callbacks).

(** [resolveNodes()], for a binding whose component has container [k]
    ([this.component.container]).  Returns the list and the updated binding. *)
Definition resolveNodes (d : DOM) (k : Node) (this : Element) : list Node * Element :=
  let ns := if String.eqb (el_name this) "self" then [k]
            else queryAll cb (el_selector this) k d in
  (ns, set_nodes ns this).

(** [!this.nodes.length || this.template] *)
Definition mustResolve (this : Element) : bool :=
  match el_nodes this, el_template this with
  | [], _ => true
  | _, Some _ => true
  | _, None => false
  end.

Definition getAll (d : DOM) (k : Node) (this : Element) : list Node * Element :=
  if mustResolve this then resolveNodes d k this else (el_nodes this, this).

Definition get (index : nat) (d : DOM) (k : Node) (this : Element) : option Node * Element :=
  let '(ns, this') := getAll d k this in (ns !! index, this').

Definition filter (selector : string) (d : DOM) (this : Element) : list Node :=
  List.filter (fun node => matches cb d node selector) (el_nodes this).

Definition remove (index : nat) (d : DOM) (k : Node) (this : Element)
  : Completion (DOM * Element) :=
  let '(node, this') := get index d k this in
  match node with
  | None => TypeError (d, this')            (* undefined.parentNode *)
  | Some n =>
      match parent_of d n with
      | None => TypeError (d, this')        (* null.removeChild *)
      | Some _ =>
          let d' := removeChild n d in
          Normal (d', snd (resolveNodes d' k this'))
      end
  end.

(** [this.nodes.forEach(node => node.parentNode.removeChild(node))] *)
Fixpoint detachAll (ns : list Node) (d : DOM) : Completion DOM :=
  match ns with
  | [] => Normal d
  | n :: ns' =>
      match parent_of d n with
      | Some _ => detachAll ns' (removeChild n d)
      | None => TypeError d
      end
  end.

Definition removeAll (d : DOM) (this : Element) : Completion (DOM * Element) :=
  match detachAll (el_nodes this) d with
  | Normal d' => Normal (d', set_nodes [] this)
  | TypeError d' => TypeError (d', this)
  end.

(** The template as [init] wraps it: the markup of the user's template with
    [this.className] added to the class list of its outermost node
    ([classList.add(null)] adds the token "null"); the call raises what
    [classList.add] raises.  The scratch node the wrapper builds to do so is
    never attached and is not kept in the arena. *)
Definition template (this : Element) (code : Code) (args : list Value) : Attempt Markup :=
  add_class (default "null" (el_className this)) (template_fn cb code args).

Definition render (args : list Value) (d : DOM) (this : Element)
  : Attempt (option Node * DOM) :=
  match el_template this with
  | Some code =>
      match template this code args with
      | Returned markup =>
          let '(renderedEl, d') := createNode markup d in
          Returned (Some renderedEl, d')
      | Raised e => Raised e
      end
  | None => Returned (None, d)
  end.


(** [this.selector || defaultSelector] *)
Definition selector_or (given : option string) (defaultSelector : string) : string :=
  match given with
  | Some "" => defaultSelector
  | Some s => s
  | None => defaultSelector
  end.

(** [(selector.indexOf('.') === 0) ? selector.substr(1) : null] *)
Definition className_of (selector : string) : option string :=
  match selector with
  | String "."%char rest => Some rest
  | _ => None
  end.

(** [Object.assign(Object.create(Element), spec)] followed by
    [init(component)], for the component [c] with fields [comp]. *)
Definition init (d : DOM) (c : CompRef) (comp : Component) (s : ElementSpec) : Element :=
  let defaultSelector :=
    if String.eqb (s_name s) "self" then c_selector comp
    else String.append (c_selector comp) (String.append "__" (s_name s)) in
  let selector := selector_or (s_selector s) defaultSelector in
  snd (resolveNodes d (container comp)
         {| el_name := s_name s;
            el_selector := selector;
            el_className := className_of selector;
            el_handlers := obj_assign [] (s_handlers s);
            el_template := s_template s;
            el_startup := s_startup s;
            el_nodes := [];
            el_component := c |}).

End Methods.
End Element.

(** ** Component *)

(** The local variables of [handler]'s loop, the event's flags and the
    state. *)
Record LoopState := {
  currentTarget : option Node;
  stopPropagation : bool;
  ls_flags : Flags;
  ls_state : State
}.

Inductive Status := Finished | Threw | OutOfFuel.

Record Outcome := {
  status : Status;
  final : LoopState;
  calls : list Call
}.

Definition prepend (tr : list Call) (o : Outcome) : Outcome :=
  {| status := status o; final := final o; calls := tr ++ calls o |}.

(** What a call of [define] has done: the state it leaves and the calls it
    made, and whether it returned; [returns] is false when a startup loop was
    cut off for lack of fuel, the state and the calls then being those reached
    so far. *)
Record Run := {
  returns : bool;
  state : State;
  trace : list Call
}.

Definition done (st : State) : Run :=
  {| returns := true; state := st; trace := [] |}.

Definition after (tr : list Call) (r : Run) : Run :=
  {| returns := returns r; state := state r; trace := tr ++ trace r |}.

Module Component.
Section Methods.
Context (cb : Callbacks).

Definition init (name : string) (node : Node) (selector : string) : Component :=
  {| c_name := name; container := node; c_selector := selector;
     elements := []; registeredHandlers := []; touches := None |}.

Definition capturingTypes : list string := ["blur"; "focus"; "mouseenter"; "mouseleave"].

(** [capturingTypes.indexOf(eventType) > -1] *)
Definition isCapturing (eventType : string) : bool :=
  existsb (String.eqb eventType) capturingTypes.

Definition addEventListener (n : Node) (l : NativeListener) (st : State) : State :=
  set_listeners (listeners st ++ [(n, l)]) st.

(** The body of [for (let eventType in element.handlers)]. *)
Definition registerHandler (c : CompRef) (eventType : string) (st : State)
  : State * list Call :=
  match heap st !! c with
  | None => (st, [])
  | Some this =>
      match obj_get eventType (registeredHandlers this) with
      | Some _ => (st, [])
      | None =>
          let l := {| l_type := eventType; l_fn := Delegate c;
                      l_capture := isCapturing eventType |} in
          let st1 := addEventListener (container this) l st in
          let st2 := update_component c
                       (fun x => set_registeredHandlers
                                   (obj_set eventType (Delegate c) (registeredHandlers x)) x)
                       st1 in
          match String.eqb eventType "touchmove", touches this with
          | true, None =>
              let l' := {| l_type := "touchstart"; l_fn := TouchRecorder c;
                           l_capture := false |} in
              let st3 := update_component c (set_touches (Some None)) st2 in
              (addEventListener (container this) l' st3,
               [CAddListener (container this) l; CAddListener (container this) l'])
          | _, _ => (st2, [CAddListener (container this) l])
          end
      end
  end.

Fixpoint registerHandlers (c : CompRef) (eventTypes : list string) (st : State)
  : State * list Call :=
  match eventTypes with
  | [] => (st, [])
  | eventType :: rest =>
      let '(st1, tr1) := registerHandler c eventType st in
      let '(st2, tr2) := registerHandlers c rest st1 in
      (st2, tr1 ++ tr2)
  end.

(** [for (let element of this.elements.values()) if (element.nodes.length &&
    element.startup) element.startup()].  The iterator of a [Map] is live: at
    every step it reads the map as the hooks called so far left it, and it
    goes on to the bindings added to the map in the meantime; [i] is its
    position in the entries of the map, where the library adds an entry at
    the end or overwrites one in place and never removes one.  The loop ends
    when the position is past the last entry; each step takes one unit of
    [fuel]. *)
Fixpoint startups (fuel : nat) (c : CompRef) (i : nat) (st : State) : Run :=
  match fuel with
  | 0 => {| returns := false; state := st; trace := [] |}
  | S fuel' =>
      match heap st !! c with
      | None => done st
      | Some this =>
          match obj_values (elements this) !! i with
          | Some element =>
              match el_nodes element, el_startup element with
              | _ :: _, Some code =>
                  after [CStartup (el_name element) code]
                    (startups fuel' c (S i) (startup_fn cb code element st))
              | _, _ => startups fuel' c (S i) st
              end
          | None => done st
          end
      end
  end.

(** The body of [for (let element of elements)] in [define]. *)
Definition defineOne (fuel : nat) (c : CompRef) (spec : ElementSpec) (st : State) : Run :=
  match heap st !! c with
  | None => done st
  | Some this =>
      let element := Element.init cb (dom st) c this spec in
      let st1 := update_component c
                   (fun x => set_elements (obj_set (el_name element) element (elements x)) x)
                   st in
      let '(st2, tr2) := registerHandlers c (obj_keys (el_handlers element)) st1 in
      after (CSet (el_name element) :: tr2) (startups fuel c 0 st2)
  end.

(** [define(...elements)]; every startup loop has [fuel] steps. *)
Fixpoint define (fuel : nat) (c : CompRef) (specs : list ElementSpec) (st : State) : Run :=
  match specs with
  | [] => done st
  | spec :: rest =>
      let r := defineOne fuel c spec st in
      if returns r then after (trace r) (define fuel c rest (state r)) else r
  end.

Definition get (this : Component) : Node := container this.

Definition element (name : string) (this : Component) : option Element :=
  obj_get name (elements this).

(** [element.nodes.some((item, index) => item === node)], giving the index. *)
Fixpoint indexOfNode (node : Node) (ns : list Node) (index : nat) : option nat :=
  match ns with
  | [] => None
  | item :: ns' =>
      if Nat.eqb item node then Some index else indexOfNode node ns' (S index)
  end.

Fixpoint findIn (es : list Element) (node : Node) : option (Element * nat) :=
  match es with
  | [] => None
  | e :: es' =>
      match indexOfNode node (el_nodes e) 0 with
      | Some index => Some (e, index)
      | None => findIn es' node
      end
  end.

(** [findElement(node)]; [None] is the empty result [{}].  No node list holds
    [null]. *)
Definition findElement (this : Component) (node : option Node) : option (Element * nat) :=
  match node with
  | Some n => findIn (obj_values (elements this)) n
  | None => None
  end.

(** [!relatedTarget || (!currentTarget.contains(relatedTarget) &&
    currentTarget !== relatedTarget)] for a node [cur]. *)
Definition isOutsideRelated (d : DOM) (relatedTarget : option Node) (cur : Node) : bool :=
  match relatedTarget with
  | None => true
  | Some r => negb (contains d cur r) && negb (Nat.eqb cur r)
  end.

(** What a handler does with the event: the closure [stopInnerPropagation]
    calls the native [stopPropagation] and sets the loop's flag. *)
Definition applyAction (a : EvAction) (acc : bool * Flags * list Call)
  : bool * Flags * list Call :=
  let '(stop, fl, tr) := acc in
  match a with
  | StopInner =>
      (true,
       {| propagationStopped := true; defaultPrevented := defaultPrevented fl |},
       tr ++ [CStopInner; CNativeStop])
  | StopNative =>
      (stop,
       {| propagationStopped := true; defaultPrevented := defaultPrevented fl |},
       tr ++ [CNativeStop])
  | PreventDefault =>
      (stop,
       {| propagationStopped := propagationStopped fl; defaultPrevented := true |},
       tr ++ [CPreventDefault])
  end.

Definition applyActions (acts : list EvAction) (stop : bool) (fl : Flags)
  : bool * Flags * list Call :=
  fold_left (fun acc a => applyAction a acc) acts (stop, fl, []).

(** [if (element && eventHandler && isOutsideRelated) eventHandler.call(element, ev, index)] *)
Definition fire (ev : Event) (found : option (Element * nat)) (isOutside : bool)
  (ls : LoopState) : LoopState * list Call :=
  match found with
  | Some (element, index) =>
      match obj_get (ev_type ev) (el_handlers element), isOutside with
      | Some code, true =>
          let '(st', acts) := handler_fn cb code element ev index (ls_state ls) in
          let '(stop, fl, tr) := applyActions acts (stopPropagation ls) (ls_flags ls) in
          ({| currentTarget := currentTarget ls; stopPropagation := stop;
              ls_flags := fl; ls_state := st' |},
           CHandler (el_name element) (ev_type ev) code index :: tr)
      | _, _ => (ls, [])
      end
  | None => (ls, [])
  end.

(** One turn of [while (!stopPropagation)]. *)
Definition iteration (c : CompRef) (ev : Event) (ls : LoopState)
  : Completion (LoopState * list Call) :=
  match heap (ls_state ls) !! c with
  | None => TypeError (ls, [])
  | Some this =>
      let found := findElement this (currentTarget ls) in
      match currentTarget ls with
      | None =>
          (* null.contains(...) when there is a related target, else null.parentNode *)
          TypeError (ls, [CFind None])
      | Some cur =>
          let isOutside := isOutsideRelated (dom (ls_state ls)) (ev_relatedTarget ev) cur in
          let '(ls1, tr) := fire ev found isOutside ls in
          match heap (ls_state ls1) !! c with
          | None => TypeError (ls1, CFind (Some cur) :: tr)
          | Some this1 =>
              if Nat.eqb cur (container this1) then
                Normal ({| currentTarget := Some cur; stopPropagation := true;
                           ls_flags := ls_flags ls1; ls_state := ls_state ls1 |},
                        CFind (Some cur) :: tr)
              else
                Normal ({| currentTarget := parent_of (dom (ls_state ls1)) cur;
                           stopPropagation := stopPropagation ls1;
                           ls_flags := ls_flags ls1; ls_state := ls_state ls1 |},
                        CFind (Some cur) :: tr)
          end
      end
  end.

Fixpoint walk (fuel : nat) (c : CompRef) (ev : Event) (ls : LoopState) : Outcome :=
  if stopPropagation ls then {| status := Finished; final := ls; calls := [] |}
  else
    match fuel with
    | 0 => {| status := OutOfFuel; final := ls; calls := [] |}
    | S fuel' =>
        match iteration c ev ls with
        | TypeError (ls', tr) => {| status := Threw; final := ls'; calls := tr |}
        | Normal (ls', tr) => prepend tr (walk fuel' c ev ls')
        end
    end.

(** The flags [handler] adds to a touchmove event, in the arithmetic of
    doubles; a delta computed from an unset coordinate is NaN and every
    comparison with it is false. *)
Definition gesture (recorded : option (Number * Number)) (clientX clientY : Number)
  : Gesture :=
  match recorded with
  | Some (x, y) =>
      let dx := (x - clientX)%float in
      let dy := (y - clientY)%float in
      {| isHorizontal := (abs dy <? abs dx)%float;   (* Math.abs(delta.x) > Math.abs(delta.y) *)
         isLeftToRight := (dx <? 0)%float;
         isBottomToTop := (0 <? dy)%float |}
  | None =>
      {| isHorizontal := false; isLeftToRight := false; isBottomToTop := false |}
  end.

(** [handler(ev)], as the listener of component [c]; [fl] are the flags the
    event arrives with. *)
Definition handler (fuel : nat) (c : CompRef) (ev : Event) (fl : Flags) (st : State)
  : Outcome :=
  let start := {| currentTarget := Some (ev_target ev); stopPropagation := false;
                  ls_flags := fl; ls_state := st |} in
  let thrown := {| status := Threw; final := start; calls := [] |} in
  if String.eqb (ev_type ev) "touchmove" then
    match heap st !! c with
    | Some this =>
        match touches this, ev_touches0 ev with
        | Some recorded, Some (clientX, clientY) =>
            walk fuel c (set_gesture (Some (gesture recorded clientX clientY)) ev) start
        | _, _ => thrown
        end
    | None => thrown
    end
  else walk fuel c ev start.

End Methods.
End Component.

(** ** Hub *)

Module Hub.
Section Methods.
Context (cb : Callbacks).

Definition create (name : string) (node : Node) (selector : string) (st : State)
  : CompRef * State :=
  let component := length (heap st) in
  (component,
   set_hub_components (hub_components st ++ [component])
     (set_heap (heap st ++ [Component.init name node selector]) st)).

(** [arr.some((x, index) => { if (p(x)) { arr.splice(index, 1); return true } })] *)
Fixpoint someSplice {A} (p : A -> bool) (arr : list A) : list A :=
  match arr with
  | [] => []
  | x :: rest => if p x then rest else x :: someSplice p rest
  end.

Definition containerIs (st : State) (node : Node) (component : CompRef) : bool :=
  match heap st !! component with
  | Some x => Nat.eqb (container x) node
  | None => false
  end.

Definition delete (node : Node) (st : State) : State :=
  let st1 := set_hub_components
               (someSplice (containerIs st node) (hub_components st)) st in
  set_arrays
    (<[hub_observers st1 :=
         someSplice (fun observer => containerIs st1 node (o_component observer))
                    (array_of st1 (hub_observers st1))]> (arrays st1))
    st1.

(** [this.observers.push({ component, event, handler })] *)
Definition subscribe (component : CompRef) (event : string) (handler : BoundFn)
  (st : State) : State :=
  set_arrays
    (<[hub_observers st :=
         array_of st (hub_observers st)
           ++ [{| o_component := component; o_event := event; o_handler := handler |}]]>
       (arrays st))
    st.

(** [!event]: an absent or empty event name. *)
Definition noEvent (event : option string) : bool :=
  match event with
  | None => true
  | Some "" => true
  | Some _ => false
  end.

(** [this.observers = this.observers.filter(...)]: a new array object. *)
Definition unsubscribe (component : CompRef) (event : option string) (st : State) : State :=
  let kept :=
    List.filter
      (fun observer =>
         negb (Nat.eqb (o_component observer) component
               && (noEvent event
                   || bool_decide (Some (o_event observer) = event))))
      (array_of st (hub_observers st)) in
  set_hub_observers (length (arrays st)) (set_arrays (arrays st ++ [kept]) st).




End Methods.
End Hub.

(** The two methods of [Component] that call into the [Hub]. *)
Module Signals.
Section Methods.
Context (cb : Callbacks).

(** One subscription given to [listen]. *)
Record Subscription := {
  sub_event : string;
  sub_handler : Code
}.

(** [events.forEach(event => Hub.subscribe(this, event.event, event.handler.bind(this)))] *)
Definition listen (this : CompRef) (events : list Subscription) (st : State) : State :=
  fold_left
    (fun acc event =>
       Hub.subscribe this (sub_event event)
         {| fn_code := sub_handler event; fn_this := Some this |} acc)
    events st.


End Methods.
End Signals.

(** ** A page and user code to run the library on

    The page of the test suite, reduced to the nodes the bindings match:
<<
    0 section.js-component
    1   header.js-component__header
    2   div.js-component__content
    3     a.js-component__link
    4     a.js-component__link
    5   footer.js-component__footer
    6     button.js-component__button
    7 section.js-other-component
    8   button.js-other-component__button
>> *)
Module Sample.

Definition node (p : option Node) (cls : string) : DomNode :=
  {| parentNode := p; classList := [cls] |}.

Definition page : DOM :=
  [ node None "js-component";
    node (Some 0) "js-component__header";
    node (Some 0) "js-component__content";
    node (Some 2) "js-component__link";
    node (Some 2) "js-component__link";
    node (Some 0) "js-component__footer";
    node (Some 5) "js-component__button";
    node None "js-other-component";
    node (Some 7) "js-other-component__button" ].

(** A selector engine for class selectors. *)
Definition classMatches (d : DOM) (n : Node) (selector : string) : bool :=
  match Element.className_of selector, d !! n with
  | Some c, Some x => existsb (String.eqb c) (classList x)
  | _, _ => false
  end.

(** User code: handler 1 calls [ev.stopInnerPropagation()], handler 2 calls
    [ev.preventDefault()], every other function does nothing. *)
Definition quiet : Callbacks :=
  {| matches := classMatches;
     template_fn := fun _ _ => Tag [] [];
     handler_fn := fun code _ _ _ st =>
                     (st, match code with
                          | 1 => [StopInner]
                          | 2 => [PreventDefault]
                          | _ => []
                          end);
     startup_fn := fun _ _ st => st;
     observer_fn := fun _ payload st => (st, payload) |}.


Definition empty : State :=
  {| dom := page; listeners := []; heap := []; arrays := [[]];
     hub_components := []; hub_observers := 0 |}.

Definition spec (name : string) (handlers : Obj Code) (template startup : option Code)
  : ElementSpec :=
  {| s_name := name; s_selector := None; s_handlers := handlers;
     s_template := template; s_startup := startup |}.

(** [Hub.create('Component', containerEl, '.js-component')] *)
Definition created : State := snd (Hub.create "Component" 0 ".js-component" empty).

Definition flags0 : Flags :=
  {| propagationStopped := false; defaultPrevented := false |}.

Definition event (type : string) (target : Node) (related : option Node) : Event :=
  {| ev_target := target; ev_relatedTarget := related; ev_type := type;
     ev_touches0 := None; ev_gesture := None |}.

(** The loop as [handler] enters it. *)
Definition start (target : Node) (st : State) : LoopState :=
  {| currentTarget := Some target; stopPropagation := false;
     ls_flags := flags0; ls_state := st |}.

Definition the (st : State) (c : CompRef) : Component :=
  default (Component.init "" 0 "") (heap st !! c).

(** The component of the test suite: the button's click handler stops the
    inner propagation; the footer and the button also react to mouseover. *)
Definition bindings : list ElementSpec :=
  [ spec "header" [] None None;
    spec "footer" [("click", 3); ("mouseover", 3)] None None;
    spec "link" [("click", 2)] None None;
    spec "button" [("click", 1); ("mouseover", 4)] None None ].

Definition defined : State := state (Component.define quiet 10 0 bindings created).

(** Two bindings with a startup hook each, both matching a node. *)
Definition withStartup : list ElementSpec :=
  [ spec "header" [] None (Some 7);
    spec "footer" [] None (Some 8) ].

(** One binding with a touchmove and a touchstart handler. *)
Definition touchPad : list ElementSpec :=
  [ spec "button" [("touchmove", 5); ("touchstart", 6)] None None ].

(** The link binding made dynamic, as [init] leaves it on the page. *)
Definition dynamicLink : Element :=
  Element.init quiet page 0 (the created 0) (spec "link" [] (Some 9) None).

(** The header binding, which has no template. *)
Definition staticHeader : Element :=
  Element.init quiet page 0 (the created 0) (spec "header" [] None None).


End Sample.

(** ** Vocabulary of the properties *)

Definition calls_of {A} (r : Completion (A * list Call)) : list Call :=
  match r with
  | Normal (_, tr) => tr
  | TypeError (_, tr) => tr
  end.

Definition isHandlerCall (x : Call) : bool :=
  match x with
  | CHandler _ _ _ _ => true
  | _ => false
  end.

(** The calls one use of an event capability makes. *)
Definition actionCalls (a : EvAction) : list Call :=
  match a with
  | StopInner => [CStopInner; CNativeStop]
  | StopNative => [CNativeStop]
  | PreventDefault => [CPreventDefault]
  end.

(** A spurious enter or leave in the words of the specification: the related
    target is present, [current] contains it, and [current] is not it. *)
Definition spurious_by_spec (d : DOM) (related : option Node) (current : Node) : Prop :=
  exists r, related = Some r /\ contains d current r = true /\ current <> r.

(** What the loop tests: the related target is present and [current]
    contains it or is it. *)
Definition spurious_in_code (d : DOM) (related : option Node) (current : Node) : Prop :=
  exists r, related = Some r /\ (contains d current r = true \/ current = r).

(** In one turn of the loop at the node [cur], the handler of a binding is
    called exactly when the binding is the one [findElement] gives for [cur],
    it has a handler for the event's type, and the event is not [spurious]. *)
Definition fires_exactly_when (spurious : DOM -> option Node -> Node -> Prop)
  (cb : Callbacks) (c : CompRef) (ev : Event) (ls : LoopState) : Prop :=
  forall this cur,
    heap (ls_state ls) !! c = Some this ->
    currentTarget ls = Some cur ->
    forall nm code index,
      In (CHandler nm (ev_type ev) code index) (calls_of (Component.iteration cb c ev ls)) <->
      exists element,
        Component.findElement this (Some cur) = Some (element, index) /\
        el_name element = nm /\
        obj_get (ev_type ev) (el_handlers element) = Some code /\
        ~ spurious (dom (ls_state ls)) (ev_relatedTarget ev) cur.

(** Handlers that leave the parent link of every node in [onPath] and the
    container of component [c] as they are. *)
Definition handlers_keep_path (cb : Callbacks) (c : CompRef) (onPath : Node -> Prop)
  : Prop :=
  forall code el ev index s,
    (forall n, onPath n ->
               parent_of (dom (fst (handler_fn cb code el ev index s))) n
               = parent_of (dom s) n) /\
    container <$> heap (fst (handler_fn cb code el ev index s)) !! c
      = container <$> heap s !! c.

(** What [define] reads and writes when it installs listeners for component
    [c]: the container, the registered handlers, the touch state. *)
Definition registry (st : State) (c : CompRef)
  : option (Node * Obj ListenerFn * option (option (Number * Number))) :=
  (fun x => (container x, registeredHandlers x, touches x)) <$> heap st !! c.

(** Startup hooks that install no listener and leave the registry of
    component [c] as it is. *)
Definition startups_keep_registry (cb : Callbacks) (c : CompRef) : Prop :=
  forall code el s,
    listeners (startup_fn cb code el s) = listeners s /\
    registry (startup_fn cb code el s) c = registry s c.



(** The native listeners component [c] has on [node] for [eventType]. *)
Definition ownedBy (c : CompRef) (l : NativeListener) : bool :=
  match l_fn l with
  | Delegate c' => Nat.eqb c c'
  | TouchRecorder c' => Nat.eqb c c'
  end.

Definition isDelegate (l : NativeListener) : bool :=
  match l_fn l with
  | Delegate _ => true
  | TouchRecorder _ => false
  end.

Definition listenersOn (c : CompRef) (node : Node) (eventType : string) (st : State)
  : list NativeListener :=
  map snd
    (List.filter
       (fun nl => Nat.eqb (fst nl) node
                  && String.eqb (l_type (snd nl)) eventType
                  && ownedBy c (snd nl))
       (listeners st)).

Definition fn_eqb (f g : ListenerFn) : bool :=
  match f, g with
  | Delegate a, Delegate b => Nat.eqb a b
  | TouchRecorder a, TouchRecorder b => Nat.eqb a b
  | _, _ => false
  end.

(** How many times [fn] is installed on [node] for [eventType]. *)
Definition installed (fn : ListenerFn) (node : Node) (eventType : string) (st : State)
  : nat :=
  length
    (List.filter
       (fun nl => Nat.eqb (fst nl) node
                  && String.eqb (l_type (snd nl)) eventType
                  && fn_eqb (l_fn (snd nl)) fn)
       (listeners st)).

(** The same on any node. *)
Definition anywhere (fn : ListenerFn) (eventType : string)
  (ls : list (Node * NativeListener)) : nat :=
  length
    (List.filter
       (fun nl => String.eqb (l_type (snd nl)) eventType
                  && fn_eqb (l_fn (snd nl)) fn)
       ls).

(** A sequence of [define] calls on one component, as far as it gets. *)
Fixpoint defines (cb : Callbacks) (fuel : nat) (c : CompRef)
  (defs : list (list ElementSpec)) (st : State) : Run :=
  match defs with
  | [] => done st
  | specs :: rest =>
      let r := Component.define cb fuel c specs st in
      if returns r then after (trace r) (defines cb fuel c rest (state r)) else r
  end.

(** The bookkeeping [define] relies on: per event type at most one delegate,
    and none while the type is not registered; at most one touch recorder,
    on touchstart only, and none while the touch state is undefined. *)
Definition registryCounts (c : CompRef) (ls : list (Node * NativeListener))
  (reg : Obj ListenerFn) (tch : option (option (Number * Number))) : Prop :=
  forall t,
    anywhere (Delegate c) t ls <= 1 /\
    (obj_get t reg = None -> anywhere (Delegate c) t ls = 0) /\
    anywhere (TouchRecorder c) t ls <= (if String.eqb t "touchstart" then 1 else 0) /\
    (tch = None -> anywhere (TouchRecorder c) t ls = 0).

(** The registry of [c] is known, its container is [K], and its counts
    hold. *)
Definition registryOk (c : CompRef) (K : Node) (st : State) : Prop :=
  exists reg tch,
    registry st c = Some (K, reg, tch) /\ registryCounts c (listeners st) reg tch.

(** No listener of the state belongs to the component [Hub.create] makes
    next. *)
Definition noListenerOfNext (st : State) : Prop :=
  forall nl, In nl (listeners st) -> ownedBy (length (heap st)) (snd nl) = false.

(** The listener-count invariant in the words of the specification: after
    [Hub.create] and any sequence of [define] calls, the component has at most
    one native listener per event type on its container. *)
Definition one_listener_per_type (cb : Callbacks) (fuel : nat) (st0 : State)
  (name : string) (node : Node) (selector : string)
  (defs : list (list ElementSpec)) : Prop :=
  forall eventType,
    length (listenersOn (fst (Hub.create name node selector st0)) node eventType
              (state (defines cb fuel (fst (Hub.create name node selector st0)) defs
                        (snd (Hub.create name node selector st0)))))
    <= 1.

(** [l'] is [l] without its first entry satisfying [p], if it has one. *)
Definition firstRemoved {A} (p : A -> bool) (l l' : list A) : Prop :=
  (exists before x after,
      l = before ++ x :: after /\ p x = true /\
      Forall (fun y => p y = false) before /\
      l' = before ++ after) \/
  (Forall (fun y => p y = false) l /\ l' = l).

(** ** The built-in actions and the touch recorder *)

(** [classList.contains(c)], [classList.add(c)] and [classList.remove(c)]:
    a class list holds a token once. *)
Definition hasClass (c : string) (x : DomNode) : bool :=
  existsb (String.eqb c) (classList x).

Definition addClass (c : string) (x : DomNode) : DomNode :=
  if hasClass c x then x
  else {| parentNode := parentNode x; classList := classList x ++ [c] |}.

Definition removeClass (c : string) (x : DomNode) : DomNode :=
  {| parentNode := parentNode x;
     classList := List.filter (fun c' => negb (String.eqb c c')) (classList x) |}.

(** The three actions [init] gives every binding. *)
Module Actions.
Section Methods.
Context (cb : Callbacks).

(** [isActive(index) { return this.get(index).classList.contains('is-active') }];
    [None] is the TypeError of [undefined.classList]. *)
Definition isActive (index : nat) (d : DOM) (k : Node) (this : Element)
  : option bool * Element :=
  let '(node, this') := Element.get cb index d k this in
  match node with
  | None => (None, this')
  | Some n =>
      (Some match d !! n with
            | Some x => hasClass "is-active" x
            | None => false
            end,
       this')
  end.

(** [activate(index) { this.get(index).classList.add('is-active') }] *)
Definition activate (index : nat) (d : DOM) (k : Node) (this : Element)
  : Completion (DOM * Element) :=
  let '(node, this') := Element.get cb index d k this in
  match node with
  | None => TypeError (d, this')
  | Some n =>
      Normal (match d !! n with
              | Some x => <[n := addClass "is-active" x]> d
              | None => d
              end,
              this')
  end.

(** [deactivate(index) { this.get(index).classList.remove('is-active') }] *)
Definition deactivate (index : nat) (d : DOM) (k : Node) (this : Element)
  : Completion (DOM * Element) :=
  let '(node, this') := Element.get cb index d k this in
  match node with
  | None => TypeError (d, this')
  | Some n =>
      Normal (match d !! n with
              | Some x => <[n := removeClass "is-active" x]> d
              | None => d
              end,
              this')
  end.

End Methods.
End Actions.

(** The touchstart listener [define] installs with the first touchmove
    handler: [ev => { this.touches.x = ev.touches[0].clientX; this.touches.y =
    ev.touches[0].clientY }]. *)
Definition touchRecorder (c : CompRef) (ev : Event) (st : State) : Completion State :=
  match heap st !! c with
  | Some this =>
      match touches this, ev_touches0 ev with
      | Some _, Some (clientX, clientY) =>
          Normal (update_component c (set_touches (Some (Some (clientX, clientY)))) st)
      | _, _ => TypeError st
      end
  | None => TypeError st
  end.

(** ** More vocabulary *)

(** A binding without its node cache. *)
Definition declaration (e : Element) : Element := set_nodes [] e.

(** The binding [define] makes of a specification for component [c] with
    selector [selector], before any node is resolved. *)
Definition declared (c : CompRef) (selector : string) (s : ElementSpec) : Element :=
  let sel :=
    Element.selector_or (s_selector s)
      (if String.eqb (s_name s) "self" then selector
       else String.append selector (String.append "__" (s_name s))) in
  {| el_name := s_name s; el_selector := sel;
     el_className := Element.className_of sel;
     el_handlers := obj_assign [] (s_handlers s);
     el_template := s_template s; el_startup := s_startup s;
     el_nodes := []; el_component := c |}.

(** The selector of component [c] and its bindings without their caches. *)
Definition bindingsOf (st : State) (c : CompRef) : option (string * Obj Element) :=
  (fun x => (c_selector x, map (fun kv => (fst kv, declaration (snd kv))) (elements x)))
    <$> heap st !! c.

(** Startup hooks that leave the selector and the bindings of component [c]
    as they are, up to the node caches. *)
Definition startups_keep_bindings (cb : Callbacks) (c : CompRef) : Prop :=
  forall code el s, bindingsOf (startup_fn cb code el s) c = bindingsOf s c.

(** Startup hooks that at most add bindings to component [c]: the entries its
    map had are still there, as they were and where they were. *)
Definition startups_only_add (cb : Callbacks) (c : CompRef) : Prop :=
  forall code el s this,
    heap s !! c = Some this ->
    exists this' more,
      heap (startup_fn cb code el s) !! c = Some this' /\
      elements this' = elements this ++ more.

(** The call the startup loop makes for a binding: none unless it has nodes
    and a hook. *)
Definition startupCall (e : Element) : list Call :=
  match el_nodes e, el_startup e with
  | _ :: _, Some code => [CStartup (el_name e) code]
  | _, _ => []
  end.

(** Handlers that never call [ev.stopInnerPropagation()]. *)
Definition handlers_never_stop (cb : Callbacks) : Prop :=
  forall code el ev index s, ~ In StopInner (snd (handler_fn cb code el ev index s)).

Definition isFind (x : Call) : bool :=
  match x with
  | CFind _ => true
  | _ => false
  end.

(** The last specification of a list with a given name. *)
Fixpoint lastNamed (name : string) (specs : list ElementSpec) : option ElementSpec :=
  match specs with
  | [] => None
  | s :: rest =>
      match lastNamed name rest with
      | Some s' => Some s'
      | None => if String.eqb name (s_name s) then Some s else None
      end
  end.

(** The observers array is an allocated array object. *)
Definition observersAllocated (st : State) : Prop :=
  hub_observers st < length (arrays st).


(** The test of [unsubscribe] for one observer record. *)
Definition dropped (component : CompRef) (event : option string) (o : Observer) : bool :=
  Nat.eqb (o_component o) component
  && (Hub.noEvent event || bool_decide (Some (o_event o) = event)).

(** The listeners of component [c] fit its registry: the counts hold, every
    registered type has its delegate on the container [K], every delegate is
    on [K] in the phase of its type, touchmove is registered only with the
    touch state defined, and the touch state is defined only with the
    recorder on [K]. *)
Definition listenersFit (c : CompRef) (K : Node) (st : State) : Prop :=
  exists reg tch,
    registry st c = Some (K, reg, tch) /\
    registryCounts c (listeners st) reg tch /\
    (forall t, obj_get t reg <> None -> 1 <= installed (Delegate c) K t st) /\
    (forall n l, In (n, l) (listeners st) -> l_fn l = Delegate c ->
                 n = K /\ l_capture l = Component.isCapturing (l_type l)) /\
    (obj_get "touchmove" reg <> None -> tch <> None) /\
    (tch <> None -> 1 <= installed (TouchRecorder c) K "touchstart" st).

(** The event type [t] is registered for component [c]. *)
Definition registered (c : CompRef) (t : string) (st : State) : Prop :=
  exists K reg tch, registry st c = Some (K, reg, tch) /\ obj_get t reg <> None.

(** Handlers that leave the bindings of component [c] as they are. *)
Definition handlers_keep_bindings (cb : Callbacks) (c : CompRef) : Prop :=
  forall code el ev index s,
    elements <$> heap (fst (handler_fn cb code el ev index s)) !! c
    = elements <$> heap s !! c.

(** The handler call the loop makes at node [n] for an event without related
    target: that of the binding [findElement] gives for [n], if it has a
    handler for the event's type. *)
Definition handlerAt (this : Component) (ev : Event) (n : option Node) : list Call :=
  match Component.findElement this n with
  | Some (e, index) =>
      match obj_get (ev_type ev) (el_handlers e) with
      | Some code => [CHandler (el_name e) (ev_type ev) code index]
      | None => []
      end
  | None => []
  end.

(** ** More user code and states to run the library on *)
Module Demo.

(** User code that never stops the inner propagation: the click handler 2
    of a link prevents the default action and detaches the header (node 1);
    the template gives a gallery holding one image. *)
Definition gentle : Callbacks :=
  {| matches := Sample.classMatches;
     template_fn := fun _ _ => Tag ["gallery"] [Tag ["image"] []];
     handler_fn := fun code _ _ _ st =>
                     match code with
                     | 2 => (set_dom (removeChild 1 (dom st)) st, [PreventDefault])
                     | _ => (st, [])
                     end;
     startup_fn := fun _ _ st => st;
     observer_fn := fun _ payload st => (st, payload) |}.

Definition touch (type : string) (target : Node) (x y : Number) : Event :=
  {| ev_target := target; ev_relatedTarget := None; ev_type := type;
     ev_touches0 := Some (x, y); ev_gesture := None |}.

(** The sample component with a touchmove and a touchstart handler on its
    button. *)
Definition touched : State :=
  state (defines Sample.quiet 10 0 [Sample.touchPad] Sample.created).




(** Both components created, the other one subscribed to "testEvent". *)
Definition otherListening : State :=
  Signals.listen 1 [{| Signals.sub_event := "testEvent"; Signals.sub_handler := 11 |}]
    (snd (Hub.create "OtherComponent" 7 ".js-other-component" Sample.created)).

(** The sample page after the first link was detached by other means. *)
Definition stale : DOM := removeChild 3 Sample.page.

(** A binding that user code adds by hand: the footer again, with a startup
    hook of its own. *)
Definition extra : Element :=
  {| el_name := "extra"; el_selector := ".js-component__footer";
     el_className := Some "js-component__footer"; el_handlers := [];
     el_template := None; el_startup := Some 8; el_nodes := [5];
     el_component := 0 |}.

(** User code whose startup hook 7 adds that binding to the sample component
    unless it is there, [if (!c.elements.has('extra')) c.elements.set('extra',
    extra)]. *)
Definition growing : Callbacks :=
  {| matches := Sample.classMatches;
     template_fn := fun _ _ => Tag [] [];
     handler_fn := fun _ _ _ _ st => (st, []);
     startup_fn := fun code _ st =>
                     if Nat.eqb code 7
                     then update_component 0
                            (fun x =>
                               match obj_get "extra" (elements x) with
                               | Some _ => x
                               | None => set_elements (elements x ++ [("extra", extra)]) x
                               end)
                            st
                     else st;
     observer_fn := fun _ payload st => (st, payload) |}.

(** The sample component with its header bound, the header having the
    startup hook 7. *)
Definition headed : State :=
  state (Component.define Sample.quiet 10 0 [Sample.spec "header" [] None (Some 7)]
           Sample.created).


End Demo.

(** ** The component inside a document

    The component of the sample page as it sits in a document, under the
    body, with the other component next to it:
<<
    0 body
    1   section.js-component
    2     header.js-component__header
    3     div.js-component__content
    4       a.js-component__link
    5       a.js-component__link
    6     footer.js-component__footer
    7       button.js-component__button
    8   section.js-other-component
    9     button.js-other-component__button
>> *)
Module Hosted.

Definition page : DOM :=
  [ {| parentNode := None; classList := [] |};
    Sample.node (Some 0) "js-component";
    Sample.node (Some 1) "js-component__header";
    Sample.node (Some 1) "js-component__content";
    Sample.node (Some 3) "js-component__link";
    Sample.node (Some 3) "js-component__link";
    Sample.node (Some 1) "js-component__footer";
    Sample.node (Some 6) "js-component__button";
    Sample.node (Some 0) "js-other-component";
    Sample.node (Some 8) "js-other-component__button" ].

(** User code that keeps off the path of the event: the click handler 2 of a
    link prevents the default action and detaches the header (node 2). *)
Definition tidy : Callbacks :=
  {| matches := Sample.classMatches;
     template_fn := fun _ _ => Tag [] [];
     handler_fn := fun code _ _ _ st =>
                     match code with
                     | 2 => (set_dom (removeChild 2 (dom st)) st, [PreventDefault])
                     | _ => (st, [])
                     end;
     startup_fn := fun _ _ st => st;
     observer_fn := fun _ payload st => (st, payload) |}.

(** User code that reaches into what the library is working on: the click
    handler 2 of a link moves the second link (node 5) under the body,
    [document.body.appendChild(link)]; the subscription handler 20 deletes the
    other component, [Hub.delete(otherContainerEl)]. *)
Definition meddling : Callbacks :=
  {| matches := Sample.classMatches;
     template_fn := fun _ _ => Tag [] [];
     handler_fn := fun code _ _ _ st =>
                     match code with
                     | 2 => (set_dom (appendChild 0 5 (dom st)) st, [])
                     | _ => (st, [])
                     end;
     startup_fn := fun _ _ st => st;
     observer_fn := fun f payload st =>
                      if Nat.eqb (fn_code f) 20
                      then (Hub.delete 8 st, payload)
                      else (st, payload) |}.

Definition empty : State :=
  {| dom := page; listeners := []; heap := []; arrays := [[]];
     hub_components := []; hub_observers := 0 |}.

(** [Hub.create('Component', containerEl, '.js-component')] *)
Definition created : State := snd (Hub.create "Component" 1 ".js-component" empty).

(** The bindings of the test suite. *)
Definition defined : State := state (Component.define tidy 10 0 Sample.bindings created).

(** The component itself as a binding with a template. *)
Definition dynamicSelf : Element :=
  Element.init tidy page 0 (Sample.the created 0) (Sample.spec "self" [] (Some 9) None).




End Hosted.

(** ** The wording of the specification where the code differs from it *)


(** [removeAll()] followed by [getAll()] never yields a node of the list the
    binding had before the removal. *)
Definition never_the_stale_list (cb : Callbacks) (d : DOM) (k : Node) (this : Element)
  : Prop :=
  forall d' this',
    Element.removeAll d this = Normal (d', this') ->
    forall n, In n (el_nodes this) -> ~ In n (fst (Element.getAll cb d' k this')).

(** The dispatch of an event whose target is the container or a descendant
    of it ends, and looks up no proper ancestor of the container. *)
Definition stays_under_container (cb : Callbacks) (c : CompRef) (ev : Event)
  (fl : Flags) (st : State) : Prop :=
  forall this k,
    heap st !! c = Some this ->
    ancestor (dom st) k (ev_target ev) = Some (container this) ->
    exists fuel,
      status (Component.handler cb fuel c ev fl st) = Finished /\
      forall m n,
        0 < m -> ancestor (dom st) m (container this) = Some n ->
        ~ In (CFind (Some n)) (calls (Component.handler cb fuel c ev fl st)).

(** * Properties *)

(** ** Objects and the DOM *)

Lemma obj_get_absent {A} (k : string) (o : Obj A) :
  ~ In k (obj_keys o) -> obj_get k o = None.
Proof.
  induction o as [|[k' v] o IH]; simpl; intros H; [reflexivity|].
  destruct (String.eqb_spec k k') as [->|_].
  - exfalso. apply H. now left.
  - apply IH. intros Hin. apply H. now right.
Qed.

Lemma parent_of_removeChild_same (d : DOM) (n : Node) :
  parent_of (removeChild n d) n = None.
Proof.
  unfold removeChild, parent_of.
  destruct (d !! n) as [x|] eqn:E.
  - rewrite list_lookup_insert_eq; [reflexivity|].
    eapply lookup_lt_Some; eassumption.
  - now rewrite E.
Qed.

Lemma parent_of_removeChild_other (d : DOM) (n m : Node) :
  n <> m -> parent_of (removeChild n d) m = parent_of d m.
Proof.
  intros Hne. unfold removeChild, parent_of.
  destruct (d !! n) as [x|] eqn:E; [|reflexivity].
  now rewrite list_lookup_insert_ne.
Qed.

Lemma detachAll_keeps_detached (ns : list Node) :
  forall d d' n,
    parent_of d n = None ->
    Element.detachAll ns d = Normal d' ->
    parent_of d' n = None.
Proof.
  induction ns as [|m ns IH]; simpl; intros d d' n Hn H.
  - now inversion H; subst.
  - destruct (parent_of d m) eqn:Em; [|discriminate].
    apply (IH (removeChild m d)); [|assumption].
    destruct (Nat.eq_dec m n) as [->|Hne].
    + apply parent_of_removeChild_same.
    + now rewrite parent_of_removeChild_other.
Qed.

Lemma detachAll_detaches (ns : list Node) :
  forall d d' n,
    In n ns ->
    Element.detachAll ns d = Normal d' ->
    parent_of d' n = None.
Proof.
  induction ns as [|m ns IH]; simpl; intros d d' n Hin H; [contradiction|].
  destruct (parent_of d m) eqn:Em; [|discriminate].
  destruct Hin as [->|Hin].
  - apply (detachAll_keeps_detached ns (removeChild n d)); [|assumption].
    apply parent_of_removeChild_same.
  - now apply (IH (removeChild m d)).
Qed.

Section ElementProperties.
Context (cb : Callbacks).

Lemma queryAll_attached (sel : string) (k : Node) (d : DOM) (n : Node) :
  In n (queryAll cb sel k d) -> parent_of d n <> None.
Proof.
  unfold queryAll. rewrite filter_In. intros [_ H].
  apply andb_prop in H as [H _]. unfold proper_descendant in H.
  destruct (parent_of d n); [discriminate|discriminate].
Qed.

Lemma queryAll_In (sel : string) (k : Node) (d : DOM) (n : Node) :
  In n (queryAll cb sel k d) <->
  n < length d /\ proper_descendant d k n = true /\ matches cb d n sel = true.
Proof.
  unfold queryAll. rewrite filter_In, in_seq, andb_true_iff.
  split; [intros [[_ H] [H1 H2]]|intros (H & H1 & H2)]; repeat split; auto; lia.
Qed.

(** C7, as the code has it.  [getAll()] runs [resolveNodes()] exactly when
    the cached list is empty or the binding has a template, and otherwise
    returns the cached list and leaves the binding as it is.
    [resolveNodes()] caches and returns, for the binding "self", the
    container, whatever the tree, and for every other binding the nodes of
    the tree as it is now that are below the container and match the
    selector.  After a [removeAll()] that completes the cache is empty; for a
    binding other than "self" the next [getAll()] is the query on the tree as
    [removeAll()] left it and holds none of the nodes that were removed; for
    "self" it is the container again. *)
Theorem getAll_resolves_when_empty_or_dynamic :
  forall (d : DOM) (k : Node) (this : Element),
    let current (tree : DOM) :=
      if String.eqb (el_name this) "self" then [k]
      else queryAll cb (el_selector this) k tree in
    (Element.mustResolve this = true <->
     el_nodes this = [] \/ el_template this <> None) /\
    Element.resolveNodes cb d k this = (current d, set_nodes (current d) this) /\
    (Element.mustResolve this = true ->
     Element.getAll cb d k this = (current d, set_nodes (current d) this)) /\
    (Element.mustResolve this = false ->
     Element.getAll cb d k this = (el_nodes this, this)) /\
    (forall n,
       In n (queryAll cb (el_selector this) k d) <->
       n < length d /\ proper_descendant d k n = true /\
       matches cb d n (el_selector this) = true) /\
    (forall d' this',
       Element.removeAll d this = Normal (d', this') ->
       this' = set_nodes [] this /\
       Element.getAll cb d' k this' = (current d', set_nodes (current d') this) /\
       (el_name this <> "self" ->
        forall n, In n (el_nodes this) ->
                  ~ In n (fst (Element.getAll cb d' k this'))) /\
       (el_name this = "self" -> fst (Element.getAll cb d' k this') = [k])).
Proof.
  intros d k this current.
  assert (Hres : forall tree e,
            el_name e = el_name this -> el_selector e = el_selector this ->
            Element.resolveNodes cb tree k e = (current tree, set_nodes (current tree) e)).
  { intros tree e Hn Hs. unfold Element.resolveNodes, current. now rewrite Hn, Hs. }
  split; [|split; [|split; [|split; [|split]]]].
  - unfold Element.mustResolve. split.
    + destruct (el_nodes this); [now left|].
      destruct (el_template this); [right; discriminate|discriminate].
    + intros [->| H]; [reflexivity|].
      destruct (el_nodes this); [reflexivity|].
      destruct (el_template this); [reflexivity|contradiction].
  - now apply Hres.
  - intros H. unfold Element.getAll. rewrite H. now apply Hres.
  - intros H. unfold Element.getAll. now rewrite H.
  - intros n. apply queryAll_In.
  - intros d' this' H. unfold Element.removeAll in H.
    destruct (Element.detachAll (el_nodes this) d) as [d1|d1] eqn:E; [|discriminate].
    injection H as <- <-.
    assert (Hg : Element.getAll cb d1 k (set_nodes [] this)
                 = (current d1, set_nodes (current d1) this)).
    { unfold Element.getAll. simpl. now rewrite (Hres d1 (set_nodes [] this)). }
    split; [reflexivity|]. split; [exact Hg|]. rewrite Hg. simpl. split.
    + intros Hne n Hin Hq. unfold current in Hq.
      destruct (String.eqb_spec (el_name this) "self"); [contradiction|].
      apply queryAll_attached in Hq. apply Hq.
      eapply detachAll_detaches; eassumption.
    + intros He. unfold current. now rewrite He.
Qed.

(** C9. [element(name)] for a name no binding has, [get(index)] for an index
    at or beyond the length of the list [getAll()] returns, and [render(...)]
    on a binding without a template return the absent value; none of the
    three throws or raises there. *)
Theorem absent_lookups_return_undefined :
  forall (this : Component) (name : string) (e : Element) (index : nat)
         (d : DOM) (k : Node) (args : list Value),
    (~ In name (obj_keys (elements this)) -> Component.element name this = None) /\
    (length (fst (Element.getAll cb d k e)) <= index ->
     fst (Element.get cb index d k e) = None) /\
    (el_template e = None -> Element.render cb args d e = Returned (None, d)).
Proof.
  intros this name e index d k args. repeat split.
  - intros H. unfold Component.element. now apply obj_get_absent.
  - intros H. unfold Element.get.
    destruct (Element.getAll cb d k e) as [ns e'] eqn:E. simpl in *.
    now apply lookup_ge_None.
  - intros H. unfold Element.render. now rewrite H.
Qed.

(** C10. [remove(index)] throws for every index at or beyond the length of
    the list [getAll()] returns, where [get(index)] returns the absent value;
    it completes exactly when there is a node at [index] and that node has a
    parent. *)
Theorem remove_throws_out_of_range :
  forall (index : nat) (d : DOM) (k : Node) (this : Element),
    (length (fst (Element.getAll cb d k this)) <= index ->
     fst (Element.get cb index d k this) = None /\
     Element.remove cb index d k this
       = TypeError (d, snd (Element.getAll cb d k this))) /\
    ((exists r, Element.remove cb index d k this = Normal r) <->
     (exists n p, fst (Element.get cb index d k this) = Some n /\
                  parent_of d n = Some p)).
Proof.
  intros index d k this. split.
  - intros H. unfold Element.remove, Element.get.
    destruct (Element.getAll cb d k this) as [ns this'] eqn:E. simpl in *.
    apply lookup_ge_None in H. now rewrite H.
  - unfold Element.remove.
    destruct (Element.get cb index d k this) as [node this'] eqn:E. simpl.
    destruct node as [n|].
    + destruct (parent_of d n) as [p|] eqn:Ep.
      * split; [intros _; now exists n, p | intros _; eexists; reflexivity].
      * split; [intros [r Hr]; discriminate|].
        intros (n' & p & Hn & Hp). inversion Hn; subst. congruence.
    + split; [intros [r Hr]; discriminate|].
      intros (n' & p & Hn & _). discriminate.
Qed.

End ElementProperties.

(** ** The delegation loop *)

Section HandlerProperties.
Context (cb : Callbacks).

Lemma applyActions_from (acts : list EvAction) :
  forall stop fl tr,
    fold_left (fun acc a => Component.applyAction a acc) acts (stop, fl, tr)
    = (stop || existsb (fun a => match a with StopInner => true | _ => false end) acts,
       {| propagationStopped :=
            propagationStopped fl
            || existsb (fun a => match a with PreventDefault => false | _ => true end) acts;
          defaultPrevented :=
            defaultPrevented fl
            || existsb (fun a => match a with PreventDefault => true | _ => false end) acts |},
       tr ++ flat_map actionCalls acts).
Proof.
  induction acts as [|a acts IH]; intros stop fl tr; simpl.
  - rewrite !orb_false_r, app_nil_r. now destruct fl.
  - destruct a; simpl; rewrite IH; simpl;
      rewrite <- ?app_assoc; simpl; rewrite ?orb_true_r, ?orb_false_r.
    all: reflexivity.
Qed.

Lemma applyActions_eq (acts : list EvAction) (stop : bool) (fl : Flags) :
  Component.applyActions acts stop fl
  = (stop || existsb (fun a => match a with StopInner => true | _ => false end) acts,
     {| propagationStopped :=
          propagationStopped fl
          || existsb (fun a => match a with PreventDefault => false | _ => true end) acts;
        defaultPrevented :=
          defaultPrevented fl
          || existsb (fun a => match a with PreventDefault => true | _ => false end) acts |},
     flat_map actionCalls acts).
Proof. unfold Component.applyActions. now rewrite applyActions_from. Qed.

Lemma actionCalls_no_handler (acts : list EvAction) :
  forallb (fun x => negb (isHandlerCall x)) (flat_map actionCalls acts) = true.
Proof.
  induction acts as [|a acts IH]; [reflexivity|].
  simpl. rewrite forallb_app, IH. now destruct a.
Qed.

(** The calls of [fire]: none, or the handler followed by what it does with
    the event. *)
Lemma fire_calls (ev : Event) (found : option (Element * nat)) (isOutside : bool)
  (ls : LoopState) :
  snd (Component.fire cb ev found isOutside ls) =
    match found with
    | Some (element, index) =>
        match obj_get (ev_type ev) (el_handlers element), isOutside with
        | Some code, true =>
            CHandler (el_name element) (ev_type ev) code index
              :: flat_map actionCalls
                   (snd (handler_fn cb code element ev index (ls_state ls)))
        | _, _ => []
        end
    | None => []
    end.
Proof.
  unfold Component.fire.
  destruct found as [[element index]|]; [|reflexivity].
  destruct (obj_get (ev_type ev) (el_handlers element)) as [code|]; [|reflexivity].
  destruct isOutside; [|reflexivity].
  destruct (handler_fn cb code element ev index (ls_state ls)) as [st' acts].
  now rewrite applyActions_eq.
Qed.

Lemma iteration_calls (c : CompRef) (ev : Event) (ls : LoopState)
  (this : Component) (cur : Node) :
  heap (ls_state ls) !! c = Some this ->
  currentTarget ls = Some cur ->
  calls_of (Component.iteration cb c ev ls)
  = CFind (Some cur)
      :: snd (Component.fire cb ev (Component.findElement this (Some cur))
                (Component.isOutsideRelated (dom (ls_state ls)) (ev_relatedTarget ev) cur)
                ls).
Proof.
  intros Hthis Hcur. unfold Component.iteration. rewrite Hthis, Hcur.
  destruct (Component.fire cb ev _ _ ls) as [ls1 tr]. simpl.
  destruct (heap (ls_state ls1) !! c); [|reflexivity].
  now destruct (Nat.eqb cur (container c0)).
Qed.

Lemma isOutsideRelated_true (d : DOM) (related : option Node) (cur : Node) :
  Component.isOutsideRelated d related cur = true <-> ~ spurious_in_code d related cur.
Proof.
  unfold Component.isOutsideRelated, spurious_in_code.
  destruct related as [r|].
  - destruct (contains d cur r) eqn:Ec; simpl.
    + split; [discriminate|]. intros H. exfalso. apply H. exists r. auto.
    + destruct (Nat.eqb_spec cur r) as [->|Hne]; simpl.
      * split; [discriminate|]. intros H. exfalso. apply H. exists r. auto.
      * split; [|reflexivity]. intros _ (r' & Hr & [H|H]); inversion Hr; subst;
          congruence.
  - split; [|reflexivity]. intros _ (r & Hr & _). discriminate.
Qed.

(** C1, as the loop has it.  In one turn of the loop at the node [cur], the
    handler [code] of the binding [nm] is called with [index] exactly when
    [findElement] gives that binding and index for [cur], the binding has
    [code] for the event's type, and it is not the case that the related
    target is present and [cur] contains it or is it; at most one handler is
    called in a turn.  When [cur] is the related target no handler is
    called. *)
Theorem handler_fires_unless_related_inside :
  forall (c : CompRef) (ev : Event) (ls : LoopState) (this : Component) (cur : Node),
    heap (ls_state ls) !! c = Some this ->
    currentTarget ls = Some cur ->
    (forall nm code index,
       In (CHandler nm (ev_type ev) code index)
          (calls_of (Component.iteration cb c ev ls)) <->
       exists element,
         Component.findElement this (Some cur) = Some (element, index) /\
         el_name element = nm /\
         obj_get (ev_type ev) (el_handlers element) = Some code /\
         ~ spurious_in_code (dom (ls_state ls)) (ev_relatedTarget ev) cur) /\
    length (List.filter isHandlerCall (calls_of (Component.iteration cb c ev ls))) <= 1 /\
    (ev_relatedTarget ev = Some cur ->
     List.filter isHandlerCall (calls_of (Component.iteration cb c ev ls)) = []).
Proof.
  intros c ev ls this cur Hthis Hcur.
  rewrite (iteration_calls c ev ls this cur Hthis Hcur), fire_calls.
  pose proof (isOutsideRelated_true (dom (ls_state ls)) (ev_relatedTarget ev) cur) as Hout.
  destruct (Component.findElement this (Some cur)) as [[element i]|] eqn:Ef.
  2:{ repeat split; simpl; try lia; try reflexivity.
      - intros [H|[]]; discriminate.
      - intros (e & He & _). discriminate. }
  destruct (obj_get (ev_type ev) (el_handlers element)) as [h|] eqn:Eh.
  2:{ repeat split; simpl; try lia; try reflexivity.
      - intros [H|[]]; discriminate.
      - intros (e & He & _ & Hh & _). inversion He; subst. congruence. }
  destruct (Component.isOutsideRelated (dom (ls_state ls)) (ev_relatedTarget ev) cur) eqn:Eo.
  2:{ repeat split; simpl; try lia; try reflexivity.
      - intros [H|[]]; discriminate.
      - intros (e & _ & _ & _ & Hs). apply Hout in Hs. discriminate. }
  assert (Hno : forall tr, forallb (fun x => negb (isHandlerCall x)) tr = true ->
                           List.filter isHandlerCall tr = []).
  { induction tr as [|x tr IH]; simpl; [reflexivity|].
    intros H. apply andb_prop in H as [Hx Htr].
    destruct (isHandlerCall x); [discriminate|]. now apply IH. }
  repeat split.
  - intros [H|[H|H]]; [discriminate| |].
    + inversion H; subst. exists element. repeat split; try assumption.
      now apply Hout.
    + exfalso.
      pose proof (actionCalls_no_handler
                    (snd (handler_fn cb h element ev i (ls_state ls)))) as Hf.
      rewrite forallb_forall in Hf. specialize (Hf _ H). discriminate.
  - intros (e & He & Hn & Hh & _). inversion He; subst.
    right. left. congruence.
  - simpl. rewrite Hno; [simpl; lia|]. apply actionCalls_no_handler.
  - intros Hr. exfalso. apply (proj1 Hout eq_refl). exists cur. auto.
Qed.

End HandlerProperties.

(** ** Stopping the walk from a handler *)

Lemma app_eq_split {A} (x : A) (l1 : list A) :
  forall l2 pre post,
    l1 ++ l2 = pre ++ x :: post ->
    (exists m, l1 = pre ++ x :: m /\ post = m ++ l2) \/
    (exists m, pre = l1 ++ m /\ l2 = m ++ x :: post).
Proof.
  induction l1 as [|y l1 IH]; intros l2 pre post H; simpl in *.
  - right. now exists pre.
  - destruct pre as [|z pre]; simpl in *.
    + inversion H; subst. left. now exists l1.
    + inversion H; subst.
      destruct (IH _ _ _ H2) as [(m & -> & ->)|(m & -> & ->)].
      * left. now exists m.
      * right. now exists m.
Qed.

Lemma no_handler_filter (tr : list Call) :
  forallb (fun x => negb (isHandlerCall x)) tr = true ->
  List.filter isHandlerCall tr = [].
Proof.
  induction tr as [|x tr IH]; simpl; [reflexivity|].
  intros H. apply andb_prop in H as [Hx Htr].
  destruct (isHandlerCall x); [discriminate|]. now apply IH.
Qed.

Lemma actionCalls_after_stop (acts : list EvAction) :
  forall pre post,
    flat_map actionCalls acts = pre ++ CStopInner :: post ->
    (exists post', post = CNativeStop :: post') /\
    List.filter isHandlerCall post = [] /\
    existsb (fun a => match a with StopInner => true | _ => false end) acts = true.
Proof.
  induction acts as [|a acts IH]; intros pre post H; simpl in H.
  - destruct pre; discriminate.
  - destruct a; simpl in H.
    + destruct pre as [|x pre]; simpl in H; inversion H; subst.
      * repeat split; [eexists; reflexivity|].
        simpl. apply no_handler_filter, actionCalls_no_handler.
      * destruct pre as [|y pre]; simpl in H2; inversion H2; subst.
        destruct (IH _ _ H3) as (Hn & Hf & _). now repeat split.
    + destruct pre as [|x pre]; simpl in H; inversion H; subst.
      destruct (IH _ _ H2) as (Hn & Hf & He). now repeat split.
    + destruct pre as [|x pre]; simpl in H; inversion H; subst.
      destruct (IH _ _ H2) as (Hn & Hf & He). now repeat split.
Qed.

Section StopProperties.
Context (cb : Callbacks).

Lemma fire_after_stop (ev : Event) (found : option (Element * nat)) (isOutside : bool)
  (ls ls1 : LoopState) (tr pre post : list Call) :
  Component.fire cb ev found isOutside ls = (ls1, tr) ->
  tr = pre ++ CStopInner :: post ->
  (exists post', post = CNativeStop :: post') /\
  List.filter isHandlerCall post = [] /\
  stopPropagation ls1 = true /\
  propagationStopped (ls_flags ls1) = true.
Proof.
  unfold Component.fire. intros Hf Htr.
  destruct found as [[element index]|];
    [|inversion Hf; subst; destruct pre; discriminate].
  destruct (obj_get (ev_type ev) (el_handlers element)) as [code|];
    [|inversion Hf; subst; destruct pre; discriminate].
  destruct isOutside; [|inversion Hf; subst; destruct pre; discriminate].
  destruct (handler_fn cb code element ev index (ls_state ls)) as [st' acts].
  rewrite applyActions_eq in Hf. inversion Hf; subst; clear Hf. simpl.
  destruct pre as [|x pre]; simpl in H1; inversion H1; subst.
  destruct (actionCalls_after_stop _ _ _ H2) as (Hn & Hno & He).
  repeat split; try assumption.
  - now rewrite He, orb_true_r.
  - apply orb_true_iff. right.
    apply existsb_exists in He as (a & Ha & Hs).
    apply existsb_exists. exists a. split; [assumption|]. now destruct a.
Qed.

Lemma iteration_after_stop (c : CompRef) (ev : Event) (ls ls' : LoopState)
  (tr pre post : list Call) :
  (Component.iteration cb c ev ls = Normal (ls', tr) \/
   Component.iteration cb c ev ls = TypeError (ls', tr)) ->
  tr = pre ++ CStopInner :: post ->
  (exists post', post = CNativeStop :: post') /\
  List.filter isHandlerCall post = [] /\
  stopPropagation ls' = true /\
  propagationStopped (ls_flags ls') = true.
Proof.
  unfold Component.iteration. intros Hi Htr.
  destruct (heap (ls_state ls) !! c) as [this|];
    [|destruct Hi as [Hi|Hi]; inversion Hi; subst; destruct pre; discriminate].
  destruct (currentTarget ls) as [cur|].
  2:{ destruct Hi as [Hi|Hi]; inversion Hi; subst.
      destruct pre as [|x [|y pre]]; discriminate. }
  destruct (Component.fire cb ev _ _ ls) as [ls1 trf] eqn:Ef.
  assert (Hshape : tr = CFind (Some cur) :: trf /\
                   (stopPropagation ls1 = true -> stopPropagation ls' = true) /\
                   ls_flags ls' = ls_flags ls1).
  { destruct (heap (ls_state ls1) !! c) as [this1|].
    - destruct (Nat.eqb cur (container this1));
        destruct Hi as [Hi|Hi]; inversion Hi; subst; auto.
    - destruct Hi as [Hi|Hi]; inversion Hi; subst; auto. }
  destruct Hshape as (-> & Hstop & Hfl).
  destruct pre as [|x pre]; simpl in Htr; inversion Htr; subst.
  destruct (fire_after_stop _ _ _ _ _ _ _ _ Ef eq_refl) as (Hn & Hno & Hs & Hp).
  rewrite Hfl. auto.
Qed.

Lemma walk_stopped (fuel : nat) (c : CompRef) (ev : Event) (ls : LoopState) :
  stopPropagation ls = true ->
  Component.walk cb fuel c ev ls = {| status := Finished; final := ls; calls := [] |}.
Proof. intros H. destruct fuel; simpl; now rewrite H. Qed.

(** C4. In the calls of one dispatch, a call of [ev.stopInnerPropagation()]
    is followed at once by the native [stopPropagation()], no handler is
    called after it, and the dispatch ends with the event's propagation
    stopped. *)
Theorem stopInner_ends_dispatch :
  forall (fuel : nat) (c : CompRef) (ev : Event) (ls : LoopState)
         (pre post : list Call),
    calls (Component.walk cb fuel c ev ls) = pre ++ CStopInner :: post ->
    (exists post', post = CNativeStop :: post') /\
    List.filter isHandlerCall post = [] /\
    stopPropagation (final (Component.walk cb fuel c ev ls)) = true /\
    propagationStopped (ls_flags (final (Component.walk cb fuel c ev ls))) = true.
Proof.
  induction fuel as [|fuel IH]; intros c ev ls pre post H; simpl in *.
  - destruct (stopPropagation ls); simpl in H; destruct pre; discriminate.
  - destruct (stopPropagation ls) eqn:Es; [simpl in H; destruct pre; discriminate|].
    destruct (Component.iteration cb c ev ls) as [[ls' tr]|[ls' tr]] eqn:Ei.
    + simpl in H.
      destruct (app_eq_split _ _ _ _ _ H) as [(m & Htr & ->)|(m & -> & Hrest)].
      * destruct (iteration_after_stop c ev ls ls' tr pre m (or_introl Ei) Htr)
          as (Hn & Hno & Hs & Hp).
        rewrite (walk_stopped fuel c ev ls' Hs). simpl.
        rewrite app_nil_r. auto.
      * simpl. now apply (IH c ev ls' m post).
    + simpl in *.
      destruct (iteration_after_stop c ev ls ls' tr pre post (or_intror Ei) H)
        as (Hn & Hno & Hs & Hp).
      auto.
Qed.

End StopProperties.

(** ** The walk stays under the container *)

Lemma ancestor_ext (d d' : DOM) :
  (forall n, parent_of d' n = parent_of d n) ->
  forall k n, ancestor d' k n = ancestor d k n.
Proof.
  intros H. induction k as [|k IH]; intros n; simpl; [reflexivity|].
  rewrite H. destruct (parent_of d n); [apply IH|reflexivity].
Qed.

Lemma ancestor_add (d : DOM) (a b : nat) :
  forall n m p,
    ancestor d a n = Some m -> ancestor d b m = Some p ->
    ancestor d (a + b) n = Some p.
Proof.
  induction a as [|a IH]; intros n m p Ha Hb; simpl in *.
  - now inversion Ha; subst.
  - destruct (parent_of d n) as [q|]; [|discriminate]. eapply IH; eassumption.
Qed.

Section WalkProperties.
Context (cb : Callbacks).

Lemma fire_frame (c : CompRef) (onPath : Node -> Prop) (ev : Event)
  (found : option (Element * nat)) (isOutside : bool) (ls ls1 : LoopState)
  (tr : list Call) :
  handlers_keep_path cb c onPath ->
  Component.fire cb ev found isOutside ls = (ls1, tr) ->
  (forall n, onPath n ->
             parent_of (dom (ls_state ls1)) n = parent_of (dom (ls_state ls)) n) /\
  container <$> heap (ls_state ls1) !! c = container <$> heap (ls_state ls) !! c /\
  (forall x, ~ In (CFind x) tr).
Proof.
  intros Hk Hf.
  pose proof (fire_calls cb ev found isOutside ls) as Hc. rewrite Hf in Hc.
  simpl in Hc. unfold Component.fire in Hf.
  assert (Hnf : forall acts x, ~ In (CFind x) (flat_map actionCalls acts)).
  { induction acts as [|a acts IH]; intros x; simpl; [tauto|].
    rewrite in_app_iff. intros [H|H]; [|now apply (IH x)].
    destruct a; simpl in H; intuition discriminate. }
  destruct found as [[element index]|];
    [|inversion Hf; subst; repeat split; auto].
  destruct (obj_get (ev_type ev) (el_handlers element)) as [code|];
    [|inversion Hf; subst; repeat split; auto].
  destruct isOutside; [|inversion Hf; subst; repeat split; auto].
  destruct (Hk code element ev index (ls_state ls)) as [Hp Hc'].
  destruct (handler_fn cb code element ev index (ls_state ls)) as [st' acts].
  destruct (Component.applyActions acts (stopPropagation ls) (ls_flags ls))
    as [[stop fl] tra].
  inversion Hf; subst; clear Hf. simpl in *. repeat split; auto.
  intros x [H|H]; [discriminate|]. inversion H1; subst. now apply (Hnf acts x).
Qed.

Lemma walk_inside (c : CompRef) (onPath : Node -> Prop) (ev : Event) (d0 : DOM)
  (K : Node) :
  handlers_keep_path cb c onPath ->
  forall k fuel ls target,
    (forall n, onPath n -> parent_of (dom (ls_state ls)) n = parent_of d0 n) ->
    (forall j n, ancestor d0 j target = Some n -> onPath n) ->
    container <$> heap (ls_state ls) !! c = Some K ->
    currentTarget ls = Some target ->
    stopPropagation ls = false ->
    ancestor d0 k target = Some K ->
    k < fuel ->
    status (Component.walk cb fuel c ev ls) = Finished /\
    forall x, In (CFind x) (calls (Component.walk cb fuel c ev ls)) ->
              exists n j, x = Some n /\ ancestor d0 j target = Some n /\
                          exists i, ancestor d0 i n = Some K.
Proof.
  intros Hk. induction k as [|k IH]; intros fuel ls target Hd HP Hc Ht Hs Ha Hfuel;
    (destruct fuel as [|fuel]; [lia|]); simpl; rewrite Hs;
    unfold Component.iteration;
    (destruct (heap (ls_state ls) !! c) as [this|] eqn:Eh; [|discriminate]);
    rewrite Ht;
    (destruct (Component.fire cb ev _ _ ls) as [ls1 tr] eqn:Ef);
    (destruct (fire_frame c onPath ev _ _ ls ls1 tr Hk Ef) as (Hp1 & Hc1 & Hnf));
    rewrite Eh in Hc1; rewrite Hc in Hc1;
    (destruct (heap (ls_state ls1) !! c) as [this1|] eqn:Eh1; [|discriminate]);
    simpl in Hc1; injection Hc1 as HK; rewrite HK.
  - simpl in Ha. injection Ha as Ha. subst target. rewrite Nat.eqb_refl.
    rewrite walk_stopped by reflexivity. simpl. split; [reflexivity|].
    intros x [Hx|Hx].
    + injection Hx as <-. exists K, 0. simpl.
      repeat split. now exists 0.
    + rewrite app_nil_r in Hx. now apply Hnf in Hx.
  - destruct (Nat.eqb_spec target K) as [->|Hne].
    + rewrite walk_stopped by reflexivity. simpl. split; [reflexivity|].
      intros x [Hx|Hx].
      * injection Hx as <-. exists K, 0. simpl.
        repeat split. now exists 0.
      * rewrite app_nil_r in Hx. now apply Hnf in Hx.
    + assert (HPt : onPath target) by (apply (HP 0); reflexivity).
      simpl in Ha. rewrite (Hp1 target HPt), (Hd target HPt).
      destruct (parent_of d0 target) as [p|] eqn:Ep; [|discriminate].
      set (ls2 := {| currentTarget := Some p; stopPropagation := stopPropagation ls1;
                     ls_flags := ls_flags ls1; ls_state := ls_state ls1 |}).
      assert (Hhead : forall x, In (CFind x) (CFind (Some target) :: tr) ->
                                exists n j, x = Some n /\ ancestor d0 j target = Some n /\
                                            exists i, ancestor d0 i n = Some K).
      { intros x [Hx|Hx]; [|now apply Hnf in Hx].
        injection Hx as <-. exists target, 0. repeat split.
        exists (S k). simpl. now rewrite Ep. }
      destruct (stopPropagation ls1) eqn:Es1.
      * rewrite walk_stopped by reflexivity. simpl.
        split; [reflexivity|]. intros x Hx. rewrite app_nil_r in Hx.
        now apply Hhead.
      * destruct (IH fuel ls2 p) as [Hst Hin]; subst ls2; simpl; auto.
        -- intros n Hn. rewrite (Hp1 n Hn). now apply Hd.
        -- intros j n Hj. apply (HP (S j)). simpl. now rewrite Ep.
        -- rewrite Eh1. simpl. now rewrite HK.
        -- lia.
        -- simpl. split; [assumption|].
           intros x Hx. change (In (CFind x) ((CFind (Some target) :: tr) ++
             calls (Component.walk cb fuel c ev
                      {| currentTarget := Some p; stopPropagation := false;
                         ls_flags := ls_flags ls1; ls_state := ls_state ls1 |}))) in Hx.
           apply in_app_or in Hx as [Hx|Hx]; [now apply Hhead|].
           destruct (Hin x Hx) as (n & j & -> & Hj & i & Hi).
           exists n, (S j). repeat split.
           ++ simpl. now rewrite Ep.
           ++ now exists i.
Qed.

(** C8, as the loop has it.  Started at a node that is the container or has
    it among its ancestors, in a DOM where the container is not its own
    ancestor, and with handlers that leave the container and the parent
    links of the target and its ancestors as they are, the walk finishes once
    it has fuel for one turn per level; every node it looks up is the target
    or an ancestor of it, is the container or has it among its ancestors, and
    is never a proper ancestor of the container. *)
Theorem walk_terminates_under_container :
  forall (c : CompRef) (ev : Event) (ls : LoopState) (this : Component)
         (target : Node) (k fuel : nat),
    handlers_keep_path cb c
      (fun n => exists j, ancestor (dom (ls_state ls)) j target = Some n) ->
    heap (ls_state ls) !! c = Some this ->
    currentTarget ls = Some target ->
    stopPropagation ls = false ->
    ancestor (dom (ls_state ls)) k target = Some (container this) ->
    (forall m, 0 < m ->
       ancestor (dom (ls_state ls)) m (container this) <> Some (container this)) ->
    k < fuel ->
    status (Component.walk cb fuel c ev ls) = Finished /\
    forall x, In (CFind x) (calls (Component.walk cb fuel c ev ls)) ->
      exists n, x = Some n /\
        (exists j, ancestor (dom (ls_state ls)) j target = Some n) /\
        (exists i, ancestor (dom (ls_state ls)) i n = Some (container this)) /\
        (forall m, 0 < m ->
           ancestor (dom (ls_state ls)) m (container this) <> Some n).
Proof.
  intros c ev ls this target k fuel Hk Hh Ht Hs Ha Hacyc Hfuel.
  destruct (walk_inside c _ ev (dom (ls_state ls)) (container this) Hk k fuel ls target)
    as [Hst Hin]; auto.
  { intros j n Hj. now exists j. }
  { now rewrite Hh. }
  split; [assumption|].
  intros x Hx. destruct (Hin x Hx) as (n & j & -> & Hj & i & Hi).
  exists n. repeat split; eauto.
  intros m Hm Hcontra.
  apply (Hacyc (m + i)); [lia|]. eapply ancestor_add; eassumption.
Qed.

End WalkProperties.

(** ** The Hub *)

Lemma someSplice_firstRemoved {A} (p : A -> bool) (l : list A) :
  firstRemoved p l (Hub.someSplice p l).
Proof.
  induction l as [|x l IH]; simpl.
  - right. split; [constructor|reflexivity].
  - destruct (p x) eqn:Ex.
    + left. exists [], x, l. repeat split; auto.
    + destruct IH as [(before & y & after & -> & Hy & Hb & ->)|[Hall ->]].
      * left. exists (x :: before), y, after. repeat split; auto.
      * right. split; [|reflexivity]. now constructor.
Qed.

Lemma someSplice_length {A} (p : A -> bool) (l : list A) :
  length l <= S (length (Hub.someSplice p l)).
Proof.
  induction l as [|x l IH]; simpl; [lia|].
  destruct (p x); simpl; lia.
Qed.

Lemma array_of_set_arrays (st : State) (a : ArrRef) (f : list Observer -> list Observer) :
  f [] = [] ->
  array_of (set_arrays (<[a := f (array_of st a)]> (arrays st)) st) a = f (array_of st a).
Proof.
  intros Hf. unfold array_of; simpl.
  destruct (arrays st !! a) as [x|] eqn:E; simpl.
  - rewrite list_lookup_insert_eq; [reflexivity|]. eapply lookup_lt_Some; eassumption.
  - rewrite list_insert_ge by (now apply lookup_ge_None). now rewrite E, Hf.
Qed.

Lemma array_of_set_arrays_other (st : State) (a b : ArrRef) (x : list Observer) :
  a <> b -> array_of (set_arrays (<[a := x]> (arrays st)) st) b = array_of st b.
Proof.
  intros Hne. unfold array_of; simpl. now rewrite list_lookup_insert_ne.
Qed.

(** C6. [Hub.delete(n)] removes from [components] the first component whose
    container is [n], and from the observers array the first record whose
    component's container is [n], and nothing else: the entries before and
    after the removed one keep their order, at most one observer record goes
    whatever the number of subscriptions of the component, and the rest of
    the state is as it was. *)
Theorem delete_removes_first_match_only :
  forall (node : Node) (st : State),
    firstRemoved (Hub.containerIs st node)
      (hub_components st) (hub_components (Hub.delete node st)) /\
    firstRemoved (fun observer => Hub.containerIs st node (o_component observer))
      (array_of st (hub_observers st))
      (array_of (Hub.delete node st) (hub_observers (Hub.delete node st))) /\
    length (array_of st (hub_observers st))
      <= S (length (array_of (Hub.delete node st) (hub_observers (Hub.delete node st)))) /\
    hub_observers (Hub.delete node st) = hub_observers st /\
    (forall a, a <> hub_observers st -> array_of (Hub.delete node st) a = array_of st a) /\
    heap (Hub.delete node st) = heap st /\
    dom (Hub.delete node st) = dom st /\
    listeners (Hub.delete node st) = listeners st.
Proof.
  intros node st.
  assert (Harr : array_of (Hub.delete node st) (hub_observers (Hub.delete node st))
                 = Hub.someSplice
                     (fun observer => Hub.containerIs st node (o_component observer))
                     (array_of st (hub_observers st))).
  { apply (array_of_set_arrays
             (set_hub_components
                (Hub.someSplice (Hub.containerIs st node) (hub_components st)) st)
             (hub_observers st)
             (Hub.someSplice
                (fun observer => Hub.containerIs st node (o_component observer)))).
    reflexivity. }
  rewrite Harr.
  split; [apply someSplice_firstRemoved|].
  split; [apply someSplice_firstRemoved|].
  split; [apply someSplice_length|].
  split; [reflexivity|].
  split; [|repeat split; reflexivity].
  intros a Ha.
  apply (array_of_set_arrays_other
           (set_hub_components
              (Hub.someSplice (Hub.containerIs st node) (hub_components st)) st)
           (hub_observers st)).
  congruence.
Qed.



Section BroadcastProperties.
Context (cb : Callbacks).



End BroadcastProperties.

(** ** Native listeners *)

#[local] Arguments String.eqb : simpl never.

Lemma obj_get_set {A} (k k' : string) (v : A) (o : Obj A) :
  obj_get k (obj_set k' v o) = if String.eqb k k' then Some v else obj_get k o.
Proof.
  induction o as [|[k0 v0] o IH]; simpl.
  - reflexivity.
  - destruct (String.eqb_spec k' k0) as [->|Hne]; simpl.
    + now destruct (String.eqb k k0).
    + destruct (String.eqb_spec k k0) as [->|Hne'].
      * destruct (String.eqb_spec k0 k'); [congruence|reflexivity].
      * apply IH.
Qed.

Lemma anywhere_app (fn : ListenerFn) (t : string) (ls : list (Node * NativeListener))
  (n : Node) (l : NativeListener) :
  anywhere fn t (ls ++ [(n, l)])
  = anywhere fn t ls
    + (if String.eqb (l_type l) t && fn_eqb (l_fn l) fn then 1 else 0).
Proof.
  unfold anywhere. rewrite List.filter_app, List.length_app. simpl.
  now destruct (String.eqb (l_type l) t && fn_eqb (l_fn l) fn).
Qed.

Lemma anywhere_not_owned (c : CompRef) (fn : ListenerFn) (t : string)
  (ls : list (Node * NativeListener)) :
  fn = Delegate c \/ fn = TouchRecorder c ->
  (forall nl, In nl ls -> ownedBy c (snd nl) = false) ->
  anywhere fn t ls = 0.
Proof.
  intros Hfn H. unfold anywhere.
  induction ls as [|nl ls IH]; [reflexivity|]. simpl.
  assert (Hnl : fn_eqb (l_fn (snd nl)) fn = false).
  { specialize (H nl (or_introl eq_refl)). unfold ownedBy in H.
    destruct Hfn as [-> | ->]; destruct (l_fn (snd nl)); simpl;
      try reflexivity; now rewrite Nat.eqb_sym. }
  rewrite Hnl, andb_false_r. apply IH. intros x Hx. apply H. now right.
Qed.

Lemma installed_le_anywhere (fn : ListenerFn) (node : Node) (t : string) (st : State) :
  installed fn node t st <= anywhere fn t (listeners st).
Proof.
  unfold installed, anywhere.
  induction (listeners st) as [|nl ls IH]; simpl; [lia|].
  destruct (Nat.eqb (fst nl) node); simpl;
    destruct (String.eqb (l_type (snd nl)) t && fn_eqb (l_fn (snd nl)) fn);
    simpl; lia.
Qed.

Lemma listenersOn_length (c : CompRef) (node : Node) (t : string) (st : State) :
  length (listenersOn c node t st)
  = installed (Delegate c) node t st + installed (TouchRecorder c) node t st.
Proof.
  unfold listenersOn, installed, ownedBy. rewrite length_map.
  induction (listeners st) as [|nl ls IH]; simpl; [reflexivity|].
  destruct (Nat.eqb (fst nl) node); simpl; [|exact IH].
  destruct (String.eqb (l_type (snd nl)) t); simpl; [|exact IH].
  destruct (l_fn (snd nl)) as [c'|c']; simpl;
    rewrite (Nat.eqb_sym c' c); destruct (Nat.eqb c c'); simpl; lia.
Qed.

Lemma counts_add_delegate (c : CompRef) (ls : list (Node * NativeListener))
  (reg : Obj ListenerFn) (tch : option (option (Number * Number)))
  (t : string) (n : Node) (cap : bool) :
  registryCounts c ls reg tch ->
  obj_get t reg = None ->
  registryCounts c
    (ls ++ [(n, {| l_type := t; l_fn := Delegate c; l_capture := cap |})])
    (obj_set t (Delegate c) reg) tch.
Proof.
  intros H Hfree t'. destruct (H t') as (Hd & Hd0 & Hr & Hr0).
  rewrite !anywhere_app, obj_get_set. simpl.
  rewrite Nat.eqb_refl, andb_true_r, andb_false_r, Nat.add_0_r.
  destruct (String.eqb_spec t t') as [->|Hne].
  - rewrite String.eqb_refl. rewrite (Hd0 Hfree). repeat split; auto; try lia.
    discriminate.
  - destruct (String.eqb_spec t' t); [congruence|].
    rewrite Nat.add_0_r. auto.
Qed.

Lemma counts_add_recorder (c : CompRef) (ls : list (Node * NativeListener))
  (reg : Obj ListenerFn) (n : Node) :
  registryCounts c ls reg None ->
  registryCounts c
    (ls ++ [(n, {| l_type := "touchstart"; l_fn := TouchRecorder c;
                   l_capture := false |})])
    reg (Some None).
Proof.
  intros H t'. destruct (H t') as (Hd & Hd0 & Hr & Hr0).
  rewrite !anywhere_app. simpl.
  rewrite Nat.eqb_refl, andb_true_r, andb_false_r, Nat.add_0_r.
  rewrite (Hr0 eq_refl). simpl.
  rewrite (String.eqb_sym "touchstart" t').
  repeat split; auto; try discriminate.
Qed.

Lemma heap_update_component (c : CompRef) (f : Component -> Component)
  (st : State) (x : Component) :
  heap st !! c = Some x ->
  heap (update_component c f st) !! c = Some (f x).
Proof.
  intros H. unfold update_component. rewrite H. simpl.
  apply list_lookup_insert_eq. eapply lookup_lt_Some; eassumption.
Qed.

Lemma listeners_update_component (c : CompRef) (f : Component -> Component) (st : State) :
  listeners (update_component c f st) = listeners st.
Proof. unfold update_component. now destruct (heap st !! c). Qed.

Section ListenerProperties.
Context (cb : Callbacks).

Lemma registerHandler_ok (c : CompRef) (K : Node) (t : string) (st : State) :
  registryOk c K st -> registryOk c K (fst (Component.registerHandler c t st)).
Proof.
  intros (reg & tch & Hreg & Hcounts). unfold Component.registerHandler.
  unfold registry in Hreg.
  destruct (heap st !! c) as [this|] eqn:Eh; [|discriminate].
  simpl in Hreg. injection Hreg as HK Hr Ht.
  destruct (obj_get t (registeredHandlers this)) eqn:Eg.
  { exists reg, tch. simpl. unfold registry. rewrite Eh. simpl. now subst. }
  set (l := {| l_type := t; l_fn := Delegate c; l_capture := Component.isCapturing t |}).
  set (st1 := Component.addEventListener (container this) l st).
  set (f := fun x => set_registeredHandlers
                       (obj_set t (Delegate c) (registeredHandlers x)) x).
  assert (Eh2 : heap (update_component c f st1) !! c = Some (f this))
    by (now apply heap_update_component).
  assert (Hc2 : registryCounts c (listeners (update_component c f st1))
                  (obj_set t (Delegate c) reg) tch).
  { rewrite listeners_update_component. subst. now apply counts_add_delegate. }
  destruct (String.eqb t "touchmove"), (touches this) eqn:Et; simpl.
  2:{ exists (obj_set t (Delegate c) reg), (Some None). split.
      - unfold registry. simpl.
        rewrite (heap_update_component c _ _ _ Eh2). simpl. now subst.
      - simpl. rewrite !listeners_update_component.
        rewrite listeners_update_component in Hc2. subst tch.
        now apply counts_add_recorder. }
  all: exists (obj_set t (Delegate c) reg), tch; split; [|assumption];
    unfold registry; rewrite Eh2; subst f; simpl; congruence.
Qed.

Lemma registerHandlers_ok (c : CompRef) (K : Node) (ts : list string) :
  forall st, registryOk c K st ->
             registryOk c K (fst (Component.registerHandlers c ts st)).
Proof.
  induction ts as [|t ts IH]; intros st H; simpl; [assumption|].
  pose proof (registerHandler_ok c K t st H) as H1.
  destruct (Component.registerHandler c t st) as [st1 tr1]. simpl in H1.
  specialize (IH st1 H1).
  now destruct (Component.registerHandlers c ts st1) as [st2 tr2].
Qed.

Lemma startups_ok (c : CompRef) (K : Node) :
  startups_keep_registry cb c ->
  forall fuel i st, registryOk c K st ->
                    registryOk c K (state (Component.startups cb fuel c i st)).
Proof.
  intros Hk. induction fuel as [|fuel IH]; intros i st H; simpl; [assumption|].
  destruct (heap st !! c) as [this|]; [|assumption].
  destruct (obj_values (elements this) !! i) as [element|]; [|assumption].
  destruct (el_nodes element); [now apply IH|].
  destruct (el_startup element) as [code|]; [|now apply IH].
  destruct (Hk code element st) as [Hl Hr].
  simpl. apply IH.
  destruct H as (reg & tch & Hreg & Hcounts). exists reg, tch.
  now rewrite Hl, Hr.
Qed.

Lemma defineOne_ok (fuel : nat) (c : CompRef) (K : Node) (spec : ElementSpec)
  (st : State) :
  startups_keep_registry cb c ->
  registryOk c K st -> registryOk c K (state (Component.defineOne cb fuel c spec st)).
Proof.
  intros Hk H. unfold Component.defineOne.
  destruct (heap st !! c) as [this|] eqn:Eh; [|assumption].
  set (element := Element.init cb (dom st) c this spec).
  set (st1 := update_component c _ st).
  assert (H1 : registryOk c K st1).
  { destruct H as (reg & tch & Hreg & Hcounts). exists reg, tch.
    subst st1. rewrite listeners_update_component. split; [|assumption].
    unfold registry in *. rewrite (heap_update_component c _ _ _ Eh).
    now rewrite Eh in Hreg. }
  pose proof (registerHandlers_ok c K (obj_keys (el_handlers element)) st1 H1) as H2.
  destruct (Component.registerHandlers c (obj_keys (el_handlers element)) st1)
    as [st2 tr2]. simpl in H2. simpl.
  now apply startups_ok.
Qed.

Lemma define_ok (fuel : nat) (c : CompRef) (K : Node) (specs : list ElementSpec) :
  startups_keep_registry cb c ->
  forall st, registryOk c K st ->
             registryOk c K (state (Component.define cb fuel c specs st)).
Proof.
  intros Hk. induction specs as [|spec specs IH]; intros st H; simpl; [assumption|].
  pose proof (defineOne_ok fuel c K spec st Hk H) as H1.
  destruct (returns (Component.defineOne cb fuel c spec st)); [|assumption].
  simpl. now apply IH.
Qed.

Lemma defines_ok (fuel : nat) (c : CompRef) (K : Node) (defs : list (list ElementSpec)) :
  startups_keep_registry cb c ->
  forall st, registryOk c K st -> registryOk c K (state (defines cb fuel c defs st)).
Proof.
  intros Hk. induction defs as [|specs defs IH]; intros st H; simpl; [assumption|].
  pose proof (define_ok fuel c K specs Hk st H) as H1.
  destruct (returns (Component.define cb fuel c specs st)); [|assumption].
  simpl. now apply IH.
Qed.

Lemma create_ok (name : string) (node : Node) (selector : string) (st0 : State) :
  noListenerOfNext st0 ->
  registryOk (fst (Hub.create name node selector st0)) node
    (snd (Hub.create name node selector st0)).
Proof.
  intros Hfresh. exists [], None. simpl. split.
  - unfold registry. simpl.
    rewrite lookup_app_r by lia. now rewrite Nat.sub_diag.
  - intros t. rewrite !(anywhere_not_owned (length (heap st0))); auto.
    repeat split; auto; lia.
Qed.

(** C3, as [define] has it.  After [Hub.create] and any sequence of
    [define] calls whose startup hooks leave the listeners and the registry
    alone, at whatever point of the calls, the component has on its
    container, for every event type, at most one delegating listener and at
    most one touch recorder, the recorder on touchstart only, and no other
    listener of its own: at most one listener for a type other than
    touchstart, at most two for touchstart. *)
Theorem one_delegate_per_type :
  forall (st0 : State) (name : string) (node : Node) (selector : string)
         (defs : list (list ElementSpec)) (eventType : string) (fuel : nat),
    startups_keep_registry cb (fst (Hub.create name node selector st0)) ->
    noListenerOfNext st0 ->
    let c := fst (Hub.create name node selector st0) in
    let st := state (defines cb fuel c defs (snd (Hub.create name node selector st0))) in
    installed (Delegate c) node eventType st <= 1 /\
    installed (TouchRecorder c) node eventType st
      <= (if String.eqb eventType "touchstart" then 1 else 0) /\
    length (listenersOn c node eventType st)
      = installed (Delegate c) node eventType st
        + installed (TouchRecorder c) node eventType st /\
    (eventType <> "touchstart" -> length (listenersOn c node eventType st) <= 1) /\
    length (listenersOn c node eventType st) <= 2.
Proof.
  intros st0 name node selector defs t fuel Hk Hfresh c st.
  destruct (defines_ok fuel c node defs Hk _ (create_ok name node selector st0 Hfresh))
    as (reg & tch & _ & Hcounts).
  destruct (Hcounts t) as (Hd & _ & Hr & _).
  pose proof (installed_le_anywhere (Delegate c) node t st) as Hd'.
  pose proof (installed_le_anywhere (TouchRecorder c) node t st) as Hr'.
  pose proof (listenersOn_length c node t st) as Hlen.
  fold st in Hd, Hr.
  repeat split; try assumption; try lia.
  - intros Hne. destruct (String.eqb_spec t "touchstart"); [contradiction|lia].
  - destruct (String.eqb t "touchstart"); lia.
Qed.

End ListenerProperties.

(** * The library on the sample page *)

Lemma defined_heap :
  heap Sample.defined !! 0 = Some (Sample.the Sample.defined 0).
Proof. vm_compute. reflexivity. Defined.

Lemma hosted_heap :
  heap Hosted.defined !! 0 = Some (Sample.the Hosted.defined 0).
Proof. vm_compute. reflexivity. Defined.

Lemma hosted_dom : dom Hosted.defined = Hosted.page.
Proof. vm_compute. reflexivity. Defined.

Lemma hosted_start_dom (target : Node) :
  dom (ls_state (Sample.start target Hosted.defined)) = Hosted.page.
Proof. exact hosted_dom. Defined.

Lemma hosted_container : container (Sample.the Hosted.defined 0) = 1.
Proof. vm_compute. reflexivity. Defined.

(** C2. [define] runs the startup loop inside its loop over the bindings it
    is given: with two bindings that both match a node, the hook of the first
    runs before the second binding is set, and runs again after it.  The
    longer of the two startup loops takes three steps. *)
Theorem define_runs_startups_after_each_binding :
  forall fuel : nat,
    returns (Component.define Sample.quiet (3 + fuel) 0 Sample.withStartup Sample.created)
    = true /\
    trace (Component.define Sample.quiet (3 + fuel) 0 Sample.withStartup Sample.created)
    = [CSet "header"; CStartup "header" 7;
       CSet "footer"; CStartup "header" 7; CStartup "footer" 8].
Proof. intros fuel. split; vm_compute; reflexivity. Qed.

(** Moving from the footer into its button: at the footer, which is the
    related target itself, the specification's test calls the footer's
    mouseover handler and the loop does not. *)
Lemma related_target_itself_is_skipped :
  ~ fires_exactly_when spurious_by_spec Sample.quiet 0
      (Sample.event "mouseover" 6 (Some 5)) (Sample.start 5 Sample.defined).
Proof.
  intros H.
  specialize (H (Sample.the Sample.defined 0) 5 defined_heap eq_refl "footer" 3 0).
  destruct H as [_ H].
  assert (Hc : calls_of (Component.iteration Sample.quiet 0
                           (Sample.event "mouseover" 6 (Some 5))
                           (Sample.start 5 Sample.defined))
               = [CFind (Some 5)]) by (vm_compute; reflexivity).
  rewrite Hc in H.
  assert (Hin : In (CHandler "footer" "mouseover" 3 0) [CFind (Some 5)]).
  { apply H. eexists. split; [vm_compute; reflexivity|].
    split; [reflexivity|]. split; [reflexivity|].
    intros (r & Hr & _ & Hne). simpl in Hr. injection Hr as <-. now apply Hne. }
  destruct Hin as [Hin|[]]. discriminate.
Qed.

(** A binding with a touchmove and a touchstart handler leaves two native
    touchstart listeners on the container. *)
Lemma touchstart_gets_two_listeners :
  ~ one_listener_per_type Sample.quiet 10 Sample.empty "Component" 0 ".js-component"
      [Sample.touchPad].
Proof.
  intros H. specialize (H "touchstart"). vm_compute in H. lia.
Qed.


(** A binding "self" with a template, in a document: [removeAll()] detaches
    the container, and the [getAll()] that follows yields the container
    again, the list the binding had before the removal. *)
Lemma removed_container_is_yielded_again :
  el_template Hosted.dynamicSelf <> None /\
  el_nodes Hosted.dynamicSelf = [1] /\
  Element.removeAll Hosted.page Hosted.dynamicSelf
    = Normal (removeChild 1 Hosted.page, set_nodes [] Hosted.dynamicSelf) /\
  parent_of (removeChild 1 Hosted.page) 1 = None /\
  fst (Element.getAll Hosted.tidy (removeChild 1 Hosted.page) 1
         (set_nodes [] Hosted.dynamicSelf))
    = [1] /\
  ~ never_the_stale_list Hosted.tidy Hosted.page 1 Hosted.dynamicSelf.
Proof.
  assert (Hr : Element.removeAll Hosted.page Hosted.dynamicSelf
               = Normal (removeChild 1 Hosted.page, set_nodes [] Hosted.dynamicSelf))
    by (vm_compute; reflexivity).
  assert (Hg : fst (Element.getAll Hosted.tidy (removeChild 1 Hosted.page) 1
                      (set_nodes [] Hosted.dynamicSelf)) = [1])
    by (vm_compute; reflexivity).
  split; [discriminate|]. split; [vm_compute; reflexivity|]. split; [exact Hr|].
  split; [vm_compute; reflexivity|]. split; [exact Hg|].
  intros H. apply (H _ _ Hr 1); [vm_compute; now left|].
  rewrite Hg. now left.
Qed.

(** A click handler that moves the clicked link out of the container, under
    the body: the walk goes on from the link to the body, which is above the
    container, looks it up, and throws on the parent of the root. *)
Lemma moved_target_leads_above_container :
  ancestor Hosted.page 2 5 = Some 1 /\
  ancestor Hosted.page 1 1 = Some 0 /\
  (forall fuel,
     status (Component.handler Hosted.meddling (3 + fuel) 0
               (Sample.event "click" 5 None) Sample.flags0 Hosted.defined)
     = Threw /\
     calls (Component.handler Hosted.meddling (3 + fuel) 0
              (Sample.event "click" 5 None) Sample.flags0 Hosted.defined)
     = [CFind (Some 5); CHandler "link" "click" 2 1; CFind (Some 0); CFind None]) /\
  ~ stays_under_container Hosted.meddling 0 (Sample.event "click" 5 None)
      Sample.flags0 Hosted.defined.
Proof.
  assert (Hrun : forall fuel,
     status (Component.handler Hosted.meddling (S (S (S fuel))) 0
               (Sample.event "click" 5 None) Sample.flags0 Hosted.defined)
     = Threw /\
     calls (Component.handler Hosted.meddling (S (S (S fuel))) 0
              (Sample.event "click" 5 None) Sample.flags0 Hosted.defined)
     = [CFind (Some 5); CHandler "link" "click" 2 1; CFind (Some 0); CFind None]).
  { intros fuel. split; vm_compute; reflexivity. }
  split; [reflexivity|]. split; [reflexivity|]. split; [exact Hrun|].
  intros H.
  destruct (H (Sample.the Hosted.defined 0) 2 hosted_heap) as (fuel & Hst & _).
  { rewrite hosted_dom. vm_compute. reflexivity. }
  destruct fuel as [|[|[|fuel]]].
  - vm_compute in Hst. discriminate.
  - vm_compute in Hst. discriminate.
  - vm_compute in Hst. discriminate.
  - destruct (Hrun fuel) as [Hthrew _]. congruence.
Qed.

Lemma handler_fires_unless_related_inside_witness :
  heap (ls_state (Sample.start 5 Sample.defined)) !! 0
    = Some (Sample.the Sample.defined 0) /\
  currentTarget (Sample.start 5 Sample.defined) = Some 5 /\
  List.filter isHandlerCall
    (calls_of (Component.iteration Sample.quiet 0
                 (Sample.event "mouseover" 6 (Some 5))
                 (Sample.start 5 Sample.defined))) = [].
Proof.
  split; [exact defined_heap|]. split; [reflexivity|].
  exact (proj2 (proj2 (handler_fires_unless_related_inside Sample.quiet 0
                         (Sample.event "mouseover" 6 (Some 5))
                         (Sample.start 5 Sample.defined)
                         (Sample.the Sample.defined 0) 5 defined_heap eq_refl))
               eq_refl).
Defined.

Lemma stopInner_ends_dispatch_witness :
  calls (Component.walk Sample.quiet 10 0 (Sample.event "click" 6 None)
           (Sample.start 6 Sample.defined))
    = [CFind (Some 6); CHandler "button" "click" 1 0] ++ CStopInner :: [CNativeStop] /\
  List.filter isHandlerCall [CNativeStop] = [] /\
  propagationStopped
    (ls_flags (final (Component.walk Sample.quiet 10 0 (Sample.event "click" 6 None)
                        (Sample.start 6 Sample.defined)))) = true.
Proof.
  assert (Hc : calls (Component.walk Sample.quiet 10 0 (Sample.event "click" 6 None)
                        (Sample.start 6 Sample.defined))
               = [CFind (Some 6); CHandler "button" "click" 1 0]
                   ++ CStopInner :: [CNativeStop]) by (vm_compute; reflexivity).
  split; [exact Hc|].
  pose proof (stopInner_ends_dispatch Sample.quiet 10 0 (Sample.event "click" 6 None)
                (Sample.start 6 Sample.defined)
                [CFind (Some 6); CHandler "button" "click" 1 0] [CNativeStop] Hc) as H.
  destruct H as (_ & Hno & _ & Hp).
  split; assumption.
Defined.

(** On the path from the second link of the document up to its root. *)
Lemma hosted_link_path (n : Node) :
  (exists j, ancestor Hosted.page j 5 = Some n) -> n = 5 \/ n = 3 \/ n = 1 \/ n = 0.
Proof.
  intros [j Hj].
  destruct j as [|[|[|[|j]]]]; simpl in Hj; try discriminate;
    injection Hj as <-; auto.
Defined.

Lemma tidy_keeps_path :
  handlers_keep_path Hosted.tidy 0
    (fun n => exists j,
                ancestor (dom (ls_state (Sample.start 5 Hosted.defined))) j 5 = Some n).
Proof.
  intros code el ev index s. split; [|now destruct code as [|[|[|code]]]].
  intros n Hn. rewrite hosted_start_dom in Hn.
  destruct code as [|[|[|code]]]; try reflexivity.
  cbn [Hosted.tidy handler_fn fst dom set_dom].
  apply parent_of_removeChild_other.
  destruct (hosted_link_path n Hn) as [->|[->|[->| ->]]]; discriminate.
Defined.

Lemma walk_terminates_under_container_witness :
  handlers_keep_path Hosted.tidy 0
    (fun n => exists j,
                ancestor (dom (ls_state (Sample.start 5 Hosted.defined))) j 5 = Some n) /\
  heap (ls_state (Sample.start 5 Hosted.defined)) !! 0
    = Some (Sample.the Hosted.defined 0) /\
  currentTarget (Sample.start 5 Hosted.defined) = Some 5 /\
  stopPropagation (Sample.start 5 Hosted.defined) = false /\
  ancestor (dom (ls_state (Sample.start 5 Hosted.defined))) 2 5
    = Some (container (Sample.the Hosted.defined 0)) /\
  (forall m, 0 < m ->
     ancestor (dom (ls_state (Sample.start 5 Hosted.defined))) m
       (container (Sample.the Hosted.defined 0))
     <> Some (container (Sample.the Hosted.defined 0))) /\
  2 < 5 /\
  status (Component.walk Hosted.tidy 5 0 (Sample.event "click" 5 None)
            (Sample.start 5 Hosted.defined))
    = Finished /\
  ~ In (CFind (Some 0))
       (calls (Component.walk Hosted.tidy 5 0 (Sample.event "click" 5 None)
                 (Sample.start 5 Hosted.defined))).
Proof.
  assert (Ha : ancestor (dom (ls_state (Sample.start 5 Hosted.defined))) 2 5
               = Some (container (Sample.the Hosted.defined 0)))
    by (vm_compute; reflexivity).
  assert (Hacyclic : forall m, 0 < m ->
            ancestor (dom (ls_state (Sample.start 5 Hosted.defined))) m
              (container (Sample.the Hosted.defined 0))
            <> Some (container (Sample.the Hosted.defined 0))).
  { intros m Hm. rewrite hosted_container, hosted_start_dom.
    destruct m as [|[|m]]; [lia|discriminate|discriminate]. }
  assert (Hfuel : 2 < 5) by lia.
  pose proof (walk_terminates_under_container Hosted.tidy 0
                (Sample.event "click" 5 None)
                (Sample.start 5 Hosted.defined)
                (Sample.the Hosted.defined 0)
                5 2 5 tidy_keeps_path hosted_heap eq_refl eq_refl Ha
                Hacyclic Hfuel) as [Hst Hin].
  split; [exact tidy_keeps_path|].
  split; [exact hosted_heap|]. split; [reflexivity|]. split; [reflexivity|].
  split; [exact Ha|]. split; [exact Hacyclic|]. split; [exact Hfuel|].
  split; [exact Hst|].
  intros Hbody. destruct (Hin _ Hbody) as (n & Hn & _ & _ & Habove).
  injection Hn as <-. apply (Habove 1); [lia|].
  rewrite hosted_container, hosted_start_dom. reflexivity.
Defined.




Lemma quiet_keeps_registry (c : CompRef) : startups_keep_registry Sample.quiet c.
Proof. intros code el s. split; reflexivity. Defined.

Lemma one_delegate_per_type_witness :
  startups_keep_registry Sample.quiet
    (fst (Hub.create "Component" 0 ".js-component" Sample.empty)) /\
  noListenerOfNext Sample.empty /\
  returns (defines Sample.quiet 10 0 [Sample.touchPad] Sample.created) = true /\
  installed (Delegate 0) 0 "touchstart"
    (state (defines Sample.quiet 10 0 [Sample.touchPad] Sample.created)) <= 1.
Proof.
  split; [apply quiet_keeps_registry|].
  assert (Hfresh : noListenerOfNext Sample.empty) by (intros nl []).
  split; [exact Hfresh|]. split; [vm_compute; reflexivity|].
  exact (proj1 (one_delegate_per_type Sample.quiet Sample.empty "Component" 0
                  ".js-component" [Sample.touchPad] "touchstart" 10
                  (quiet_keeps_registry _) Hfresh)).
Defined.

(** The link binding with a template, when its first link has been detached
    by other means: the cache still holds both links, [getAll()] asks the
    tree. *)
Lemma getAll_resolves_when_empty_or_dynamic_witness :
  el_nodes Sample.dynamicLink = [3; 4] /\
  Element.mustResolve Sample.dynamicLink = true /\
  fst (Element.getAll Sample.quiet Demo.stale 0 Sample.dynamicLink) = [4] /\
  Element.removeAll Sample.page Sample.dynamicLink
    = Normal (removeChild 4 (removeChild 3 Sample.page),
              set_nodes [] Sample.dynamicLink) /\
  ~ In 3 (fst (Element.getAll Sample.quiet
                 (removeChild 4 (removeChild 3 Sample.page)) 0
                 (set_nodes [] Sample.dynamicLink))).
Proof.
  assert (Hm : Element.mustResolve Sample.dynamicLink = true) by reflexivity.
  assert (Hr : Element.removeAll Sample.page Sample.dynamicLink
               = Normal (removeChild 4 (removeChild 3 Sample.page),
                         set_nodes [] Sample.dynamicLink)) by (vm_compute; reflexivity).
  assert (Hn : el_name Sample.dynamicLink <> "self") by discriminate.
  assert (Hin : In 3 (el_nodes Sample.dynamicLink)) by (left; reflexivity).
  destruct (getAll_resolves_when_empty_or_dynamic Sample.quiet Demo.stale 0
              Sample.dynamicLink) as (_ & _ & Hget & _).
  destruct (getAll_resolves_when_empty_or_dynamic Sample.quiet Sample.page 0
              Sample.dynamicLink) as (_ & _ & _ & _ & _ & Hafter).
  split; [vm_compute; reflexivity|]. split; [exact Hm|]. split.
  - rewrite (Hget Hm). vm_compute. reflexivity.
  - split; [exact Hr|].
    exact (proj1 (proj2 (proj2 (Hafter _ _ Hr))) Hn 3 Hin).
Defined.

Lemma absent_lookups_return_undefined_witness :
  ~ In "gallery" (obj_keys (elements (Sample.the Sample.defined 0))) /\
  length (fst (Element.getAll Sample.quiet Sample.page 0 Sample.dynamicLink)) <= 2 /\
  el_template Sample.staticHeader = None /\
  Component.element "gallery" (Sample.the Sample.defined 0) = None /\
  fst (Element.get Sample.quiet 2 Sample.page 0 Sample.dynamicLink) = None /\
  Element.render Sample.quiet [VStr "a.jpg"] Sample.page Sample.staticHeader
    = Returned (None, Sample.page).
Proof.
  assert (H1 : ~ In "gallery" (obj_keys (elements (Sample.the Sample.defined 0)))).
  { vm_compute. intros [H|[H|[H|[H|[]]]]]; discriminate. }
  assert (H2 : length (fst (Element.getAll Sample.quiet Sample.page 0
                              Sample.dynamicLink)) <= 2).
  { vm_compute. lia. }
  assert (H3 : el_template Sample.staticHeader = None) by reflexivity.
  split; [exact H1|]. split; [exact H2|]. split; [exact H3|].
  pose proof (absent_lookups_return_undefined Sample.quiet
                (Sample.the Sample.defined 0) "gallery" Sample.dynamicLink 2
                Sample.page 0 [VStr "a.jpg"]) as (Ha & Hb & _).
  pose proof (absent_lookups_return_undefined Sample.quiet
                (Sample.the Sample.defined 0) "gallery" Sample.staticHeader 2
                Sample.page 0 [VStr "a.jpg"]) as (_ & _ & Hc).
  split; [exact (Ha H1)|]. split; [exact (Hb H2)|exact (Hc H3)].
Defined.

Lemma remove_throws_out_of_range_witness :
  length (fst (Element.getAll Sample.quiet Sample.page 0 Sample.dynamicLink)) <= 2 /\
  Element.remove Sample.quiet 2 Sample.page 0 Sample.dynamicLink
    = TypeError (Sample.page,
                 snd (Element.getAll Sample.quiet Sample.page 0 Sample.dynamicLink)).
Proof.
  assert (H : length (fst (Element.getAll Sample.quiet Sample.page 0
                             Sample.dynamicLink)) <= 2).
  { vm_compute. lia. }
  split; [exact H|].
  exact (proj2 (proj1 (remove_throws_out_of_range Sample.quiet 2 Sample.page 0
                         Sample.dynamicLink) H)).
Defined.

(** * Further properties *)

(** ** Subscriptions *)


Lemma someSplice_last {A} (p : A -> bool) (l : list A) (x : A) :
  Forall (fun y => p y = false) l -> p x = true -> Hub.someSplice p (l ++ [x]) = l.
Proof.
  intros Hl Hx. induction Hl as [|y l Hy Hl IH]; simpl.
  - now rewrite Hx.
  - now rewrite Hy, IH.
Qed.


Lemma array_of_subscribe (component : CompRef) (event : string) (handler : BoundFn)
  (st : State) :
  observersAllocated st ->
  array_of (Hub.subscribe component event handler st) (hub_observers st)
  = array_of st (hub_observers st)
    ++ [{| o_component := component; o_event := event; o_handler := handler |}].
Proof.
  intros Ha. unfold Hub.subscribe, array_of. simpl.
  now rewrite list_lookup_insert_eq.
Qed.

Lemma listen_contents (this : CompRef) (events : list Signals.Subscription) :
  forall st,
    observersAllocated st ->
    observersAllocated (Signals.listen this events st) /\
    hub_observers (Signals.listen this events st) = hub_observers st /\
    array_of (Signals.listen this events st) (hub_observers st)
    = array_of st (hub_observers st)
      ++ map (fun s => {| o_component := this; o_event := Signals.sub_event s;
                          o_handler := {| fn_code := Signals.sub_handler s;
                                          fn_this := Some this |} |})
             events.
Proof.
  unfold Signals.listen.
  induction events as [|s events IH]; intros st H0; simpl.
  - now rewrite app_nil_r.
  - set (s1 := Hub.subscribe this (Signals.sub_event s)
                 {| fn_code := Signals.sub_handler s; fn_this := Some this |} st).
    assert (H1 : observersAllocated s1).
    { unfold observersAllocated, s1, Hub.subscribe. simpl.
      now rewrite length_insert. }
    destruct (IH s1 H1) as (H2 & H3 & H4).
    split; [exact H2|]. split; [exact H3|].
    change (hub_observers s1) with (hub_observers st) in H4.
    rewrite H4. unfold s1. rewrite array_of_subscribe by assumption.
    now rewrite <- app_assoc.
Qed.

Lemma array_of_unsubscribe (component : CompRef) (event : option string) (st : State) :
  array_of (Hub.unsubscribe component event st)
    (hub_observers (Hub.unsubscribe component event st))
  = List.filter (fun o => negb (dropped component event o))
      (array_of st (hub_observers st)).
Proof.
  unfold Hub.unsubscribe, array_of at 1. simpl.
  rewrite (lookup_app_r (arrays st) _ (length (arrays st))) by reflexivity.
  now rewrite Nat.sub_diag.
Qed.

Section SubscriptionProperties.
Context (cb : Callbacks).





End SubscriptionProperties.

(** [Hub.create] followed by [Hub.delete] of the container gives back the
    list of components, when no component of the list has that container;
    the component object itself stays in the heap. *)
Theorem create_then_delete_restores_components :
  forall (name : string) (node : Node) (selector : string) (st : State),
    (forall c, In c (hub_components st) ->
               c < length (heap st) /\ Hub.containerIs st node c = false) ->
    hub_components (Hub.delete node (snd (Hub.create name node selector st)))
    = hub_components st /\
    heap (Hub.delete node (snd (Hub.create name node selector st)))
      !! fst (Hub.create name node selector st)
    = Some (Component.init name node selector).
Proof.
  intros name node selector st H. split.
  - simpl. apply someSplice_last.
    + apply Forall_forall. intros c Hc. apply list_elem_of_In in Hc.
      destruct (H c Hc) as [Hlt Hf].
      unfold Hub.containerIs in *. simpl. now rewrite lookup_app_l.
    + unfold Hub.containerIs. simpl.
      rewrite lookup_app_r by lia. rewrite Nat.sub_diag. simpl.
      apply Nat.eqb_refl.
  - simpl. rewrite lookup_app_r by lia. now rewrite Nat.sub_diag.
Qed.

(** ** Finding the binding of a node *)

Lemma indexOfNode_Some (node : Node) (ns : list Node) :
  forall start index,
    Component.indexOfNode node ns start = Some index ->
    exists j, index = start + j /\ ns !! j = Some node /\
              forall j', j' < j -> ns !! j' <> Some node.
Proof.
  induction ns as [|item ns IH]; intros start index H; simpl in H; [discriminate|].
  destruct (Nat.eqb_spec item node) as [->|Hne].
  - injection H as <-. exists 0. repeat split; [lia|]. intros j' Hj. lia.
  - destruct (IH _ _ H) as (j & -> & Hj & Hmin).
    exists (S j). repeat split; [lia|assumption|].
    intros [|j'] Hlt; simpl; [congruence|]. apply Hmin. lia.
Qed.

Lemma indexOfNode_None (node : Node) (ns : list Node) :
  forall start, Component.indexOfNode node ns start = None -> ~ In node ns.
Proof.
  induction ns as [|item ns IH]; intros start H; simpl in *; [tauto|].
  destruct (Nat.eqb_spec item node) as [->|Hne]; [discriminate|].
  intros [Hi|Hi]; [congruence|]. now apply (IH _ H).
Qed.

Lemma findIn_None (es : list Element) (node : Node) :
  Component.findIn es node = None ->
  forall e, In e es -> ~ In node (el_nodes e).
Proof.
  induction es as [|e0 es IH]; simpl; intros H e He; [contradiction|].
  destruct (Component.indexOfNode node (el_nodes e0) 0) eqn:Ei; [discriminate|].
  destruct He as [<-|He]; [now apply (indexOfNode_None _ _ _ Ei)|now apply IH].
Qed.

(** [findElement(node)] gives the first binding, in the order the bindings
    were first defined, whose cached list holds [node], with the first index
    of [node] in that list; it gives nothing exactly when no cached list
    holds [node], and nothing for [null]. *)
Theorem findElement_first_owner :
  forall (this : Component) (node : Node),
    (forall e index,
       Component.findElement this (Some node) = Some (e, index) ->
       el_nodes e !! index = Some node /\
       (forall j, j < index -> el_nodes e !! j <> Some node) /\
       exists before after,
         obj_values (elements this) = before ++ e :: after /\
         forall e', In e' before -> ~ In node (el_nodes e')) /\
    (Component.findElement this (Some node) = None <->
     forall e, In e (obj_values (elements this)) -> ~ In node (el_nodes e)) /\
    Component.findElement this None = None.
Proof.
  intros this node. unfold Component.findElement.
  generalize (obj_values (elements this)) as es. intros es.
  split; [|split; [|reflexivity]].
  - induction es as [|e0 es IH]; intros e index H; simpl in H; [discriminate|].
    destruct (Component.indexOfNode node (el_nodes e0) 0) as [i|] eqn:Ei.
    + injection H as <- <-.
      destruct (indexOfNode_Some _ _ _ _ Ei) as (j & -> & Hj & Hmin).
      simpl. repeat split; try assumption.
      exists [], es. split; [reflexivity|]. intros e' [].
    + destruct (IH _ _ H) as (Hn & Hmin & before & after & -> & Hb).
      repeat split; try assumption.
      exists (e0 :: before), after. split; [reflexivity|].
      intros e' [<-|He']; [now apply (indexOfNode_None _ _ _ Ei)|now apply Hb].
  - split; [apply findIn_None|].
    induction es as [|e0 es IH]; intros H; simpl; [reflexivity|].
    destruct (Component.indexOfNode node (el_nodes e0) 0) as [i|] eqn:Ei.
    + exfalso. destruct (indexOfNode_Some _ _ _ _ Ei) as (j & _ & Hj & _).
      apply (H e0 (or_introl eq_refl)).
      apply list_elem_of_In. eapply list_elem_of_lookup_2. eassumption.
    + apply IH. intros e He. apply H. now right.
Qed.

(** ** Removing nodes *)

Lemma removeChild_length (n : Node) (d : DOM) : length (removeChild n d) = length d.
Proof.
  unfold removeChild. destruct (d !! n); [apply length_insert|reflexivity].
Qed.

Lemma removeChild_classList (n m : Node) (d : DOM) :
  classList <$> removeChild n d !! m = classList <$> d !! m.
Proof.
  unfold removeChild. destruct (d !! n) as [x|] eqn:E; [|reflexivity].
  destruct (Nat.eq_dec n m) as [->|Hne].
  - rewrite list_lookup_insert_eq by (eapply lookup_lt_Some; eassumption).
    now rewrite E.
  - now rewrite list_lookup_insert_ne.
Qed.

Lemma detachAll_frame (ns : list Node) :
  forall d d',
    Element.detachAll ns d = Normal d' ->
    length d' = length d /\
    (forall m, classList <$> d' !! m = classList <$> d !! m) /\
    (forall m, ~ In m ns -> parent_of d' m = parent_of d m).
Proof.
  induction ns as [|n ns IH]; simpl; intros d d' H.
  - injection H as <-. auto.
  - destruct (parent_of d n); [|discriminate].
    destruct (IH _ _ H) as (Hl & Hc & Hp).
    split; [now rewrite Hl, removeChild_length|].
    split; [intros m; now rewrite Hc, removeChild_classList|].
    intros m Hm. rewrite Hp by tauto.
    apply parent_of_removeChild_other. intros ->. apply Hm. now left.
Qed.

Lemma detachAll_throws (ns : list Node) :
  forall d n,
    In n ns -> parent_of d n = None ->
    exists d', Element.detachAll ns d = TypeError d'.
Proof.
  induction ns as [|m ns IH]; simpl; intros d n Hin Hn; [contradiction|].
  destruct (parent_of d m) as [p|] eqn:Em; [|eexists; reflexivity].
  destruct Hin as [->|Hin]; [congruence|].
  apply (IH _ n Hin).
  destruct (Nat.eq_dec m n) as [->|Hne]; [congruence|].
  now rewrite parent_of_removeChild_other.
Qed.

(** A [removeAll()] that completes detaches every cached node and empties
    the cache, and changes nothing else in the DOM: the nodes outside the
    cache keep their parent and every node keeps its class list. *)
Theorem removeAll_detaches_only_cached :
  forall (d d' : DOM) (this this' : Element),
    Element.removeAll d this = Normal (d', this') ->
    this' = set_nodes [] this /\
    length d' = length d /\
    (forall n, In n (el_nodes this) -> parent_of d' n = None) /\
    (forall m, ~ In m (el_nodes this) -> parent_of d' m = parent_of d m) /\
    (forall m, classList <$> d' !! m = classList <$> d !! m).
Proof.
  intros d d' this this' H. unfold Element.removeAll in H.
  destruct (Element.detachAll (el_nodes this) d) as [d1|d1] eqn:E; [|discriminate].
  injection H as <- <-.
  destruct (detachAll_frame _ _ _ E) as (Hl & Hc & Hp).
  repeat split; auto.
  intros n Hn. eapply detachAll_detaches; eassumption.
Qed.

(** [removeAll()] throws when a cached node has no parent, as with a stale
    cache holding a node that was already detached, and then the cache is
    left as it was, not emptied. *)
Theorem removeAll_throws_on_detached_node :
  forall (d : DOM) (this : Element) (n : Node),
    In n (el_nodes this) ->
    parent_of d n = None ->
    exists d', Element.removeAll d this = TypeError (d', this).
Proof.
  intros d this n Hin Hn. unfold Element.removeAll.
  destruct (detachAll_throws _ d n Hin Hn) as [d' ->]. now exists d'.
Qed.

Section MoreElementProperties.
Context (cb : Callbacks).

(** A [remove(index)] that completes detaches the node [get(index)] gives and
    no other, and leaves the binding with the list resolved in the new DOM;
    unless the binding is "self", the removed node is not in that list. *)
Theorem remove_detaches_that_node :
  forall (index : nat) (d d' : DOM) (k : Node) (this this' : Element),
    Element.remove cb index d k this = Normal (d', this') ->
    exists n,
      fst (Element.get cb index d k this) = Some n /\
      parent_of d' n = None /\
      (forall m, m <> n -> parent_of d' m = parent_of d m) /\
      el_nodes this' = fst (Element.resolveNodes cb d' k this) /\
      (el_name this <> "self" -> ~ In n (el_nodes this')).
Proof.
  intros index d d' k this this' H. unfold Element.remove in H.
  destruct (Element.get cb index d k this) as [node this1] eqn:Eg.
  assert (Hname : el_name this1 = el_name this /\ el_selector this1 = el_selector this).
  { unfold Element.get, Element.getAll, Element.resolveNodes in Eg.
    destruct (Element.mustResolve this); injection Eg as _ <-; auto. }
  destruct Hname as [Hname Hsel].
  destruct node as [n|]; [|discriminate].
  destruct (parent_of d n) as [p|] eqn:Ep; [|discriminate].
  injection H as <- <-. exists n. simpl.
  split; [reflexivity|]. split; [apply parent_of_removeChild_same|].
  split; [intros m Hm; now apply parent_of_removeChild_other|].
  unfold Element.resolveNodes. simpl. rewrite Hname, Hsel.
  split; [reflexivity|].
  intros Hself Hin.
  destruct (String.eqb_spec (el_name this) "self"); [contradiction|].
  apply queryAll_attached in Hin. apply Hin. apply parent_of_removeChild_same.
Qed.

End MoreElementProperties.

(** ** Rendering *)









Section RenderProperties.
Context (cb : Callbacks).





End RenderProperties.

(** ** The built-in actions *)

Lemma hasClass_addClass (c : string) (x : DomNode) : hasClass c (addClass c x) = true.
Proof.
  unfold addClass. destruct (hasClass c x) eqn:E; [exact E|].
  unfold hasClass. simpl. rewrite existsb_app. simpl.
  now rewrite String.eqb_refl, orb_true_r.
Qed.

Lemma hasClass_removeClass (c : string) (x : DomNode) :
  hasClass c (removeClass c x) = false.
Proof.
  unfold hasClass, removeClass. simpl.
  induction (classList x) as [|c' l IH]; simpl; [reflexivity|].
  destruct (String.eqb c c') eqn:E; simpl; [exact IH|]. now rewrite E.
Qed.

Lemma addClass_twice (c : string) (x : DomNode) :
  addClass c (addClass c x) = addClass c x.
Proof. unfold addClass at 1. now rewrite hasClass_addClass. Qed.

Section ActionProperties.
Context (cb : Callbacks).

Lemma get_static (index : nat) (d : DOM) (k : Node) (this : Element) (n : Node) :
  el_template this = None ->
  el_nodes this !! index = Some n ->
  Element.get cb index d k this = (Some n, this).
Proof.
  intros Ht Hn. unfold Element.get, Element.getAll, Element.mustResolve.
  rewrite Ht. destruct (el_nodes this) as [|m ns] eqn:E; [discriminate|].
  now rewrite Hn.
Qed.

(** On a binding without a template, for a node of the cache:
    [activate(index)] makes [isActive(index)] true, [deactivate(index)] makes
    it false, activating twice is activating once, and neither changes
    another node, a parent link or the binding. *)
Theorem activate_deactivate_isActive :
  forall (index : nat) (d : DOM) (k : Node) (this : Element) (n : Node) (x : DomNode),
    el_template this = None ->
    el_nodes this !! index = Some n ->
    d !! n = Some x ->
    exists d1 d0,
      Actions.activate cb index d k this = Normal (d1, this) /\
      Actions.deactivate cb index d k this = Normal (d0, this) /\
      Actions.isActive cb index d1 k this = (Some true, this) /\
      Actions.isActive cb index d0 k this = (Some false, this) /\
      Actions.activate cb index d1 k this = Normal (d1, this) /\
      (forall m, m <> n -> d1 !! m = d !! m /\ d0 !! m = d !! m) /\
      (forall m, parent_of d1 m = parent_of d m /\ parent_of d0 m = parent_of d m).
Proof.
  intros index d k this n x Ht Hn Hx.
  assert (Hlt : n < length d) by (eapply lookup_lt_Some; eassumption).
  exists (<[n := addClass "is-active" x]> d), (<[n := removeClass "is-active" x]> d).
  unfold Actions.activate, Actions.deactivate, Actions.isActive.
  rewrite !(get_static index _ k this n Ht Hn), Hx.
  rewrite !list_lookup_insert_eq by assumption.
  rewrite hasClass_addClass, hasClass_removeClass, addClass_twice.
  rewrite list_insert_insert_eq.
  repeat split; try reflexivity.
  - now rewrite list_lookup_insert_ne by congruence.
  - now rewrite list_lookup_insert_ne by congruence.
  - unfold parent_of. destruct (Nat.eq_dec n m) as [<-|Hne].
    + rewrite list_lookup_insert_eq by assumption. rewrite Hx.
      unfold addClass. now destruct (hasClass "is-active" x).
    + now rewrite list_lookup_insert_ne.
  - unfold parent_of. destruct (Nat.eq_dec n m) as [<-|Hne].
    + rewrite list_lookup_insert_eq by assumption. now rewrite Hx.
    + now rewrite list_lookup_insert_ne.
Qed.

(** Unlike [get], the three built-in actions throw for an index at or beyond
    the length of the list [getAll()] returns, and leave the DOM as it was. *)
Theorem actions_throw_out_of_range :
  forall (index : nat) (d : DOM) (k : Node) (this : Element),
    length (fst (Element.getAll cb d k this)) <= index ->
    Actions.isActive cb index d k this = (None, snd (Element.getAll cb d k this)) /\
    Actions.activate cb index d k this
      = TypeError (d, snd (Element.getAll cb d k this)) /\
    Actions.deactivate cb index d k this
      = TypeError (d, snd (Element.getAll cb d k this)).
Proof.
  intros index d k this H.
  unfold Actions.isActive, Actions.activate, Actions.deactivate, Element.get.
  destruct (Element.getAll cb d k this) as [ns this'] eqn:E. simpl in *.
  apply lookup_ge_None in H. now rewrite H.
Qed.

End ActionProperties.

(** ** The path of the walk *)

Lemma no_find_filter (tr : list Call) :
  (forall x, ~ In (CFind x) tr) -> List.filter isFind tr = [].
Proof.
  induction tr as [|y tr IH]; intros H; simpl; [reflexivity|].
  destruct y; simpl; try (apply IH; intros x Hx; apply (H x); now right).
  exfalso. apply (H cur). now left.
Qed.

Lemma ancestor_shift (d : DOM) (target p : Node) (k : nat) :
  parent_of d target = Some p ->
  map (fun j => CFind (ancestor d j target)) (seq 1 k)
  = map (fun j => CFind (ancestor d j p)) (seq 0 k).
Proof.
  intros Hp. rewrite <- seq_shift, map_map.
  apply map_ext. intros j. simpl. now rewrite Hp.
Qed.

Lemma path_cons (d : DOM) (target p : Node) (k : nat) :
  parent_of d target = Some p ->
  map (fun j => CFind (ancestor d j target)) (seq 0 (S k))
  = CFind (Some target) :: map (fun j => CFind (ancestor d j p)) (seq 0 k).
Proof. intros Hp. now rewrite <- (ancestor_shift d target p k Hp). Qed.

Section PathProperties.
Context (cb : Callbacks).

Lemma fire_never_stops (ev : Event) (found : option (Element * nat)) (isOutside : bool)
  (ls ls1 : LoopState) (tr : list Call) :
  handlers_never_stop cb ->
  Component.fire cb ev found isOutside ls = (ls1, tr) ->
  stopPropagation ls1 = stopPropagation ls.
Proof.
  intros Hn Hf. unfold Component.fire in Hf.
  destruct found as [[element index]|]; [|now inversion Hf].
  destruct (obj_get (ev_type ev) (el_handlers element)) as [code|]; [|now inversion Hf].
  destruct isOutside; [|now inversion Hf].
  specialize (Hn code element ev index (ls_state ls)).
  destruct (handler_fn cb code element ev index (ls_state ls)) as [st' acts].
  rewrite applyActions_eq in Hf. inversion Hf; subst; clear Hf. simpl in *.
  destruct (existsb (fun a => match a with StopInner => true | _ => false end) acts)
    eqn:E; [|apply orb_false_r].
  exfalso. apply existsb_exists in E as (a & Ha & Hs).
  destruct a; try discriminate. contradiction.
Qed.

(** The state of the loop agrees with the DOM [d0] on the parents of the
    nodes in [onPath], and component [c] has container [K]. *)
Lemma walk_step (c : CompRef) (onPath : Node -> Prop) (ev : Event) (d0 : DOM) (K : Node)
  (fuel : nat) (ls : LoopState) (target : Node) :
  handlers_keep_path cb c onPath ->
  handlers_never_stop cb ->
  (forall n, onPath n -> parent_of (dom (ls_state ls)) n = parent_of d0 n) ->
  onPath target ->
  container <$> heap (ls_state ls) !! c = Some K ->
  currentTarget ls = Some target ->
  stopPropagation ls = false ->
  exists ls2 tr,
    (forall x, ~ In (CFind x) tr) /\
    (forall n, onPath n -> parent_of (dom (ls_state ls2)) n = parent_of d0 n) /\
    container <$> heap (ls_state ls2) !! c = Some K /\
    (target = K ->
     Component.walk cb (S fuel) c ev ls
     = {| status := Finished; final := ls2; calls := CFind (Some target) :: tr |}) /\
    (target <> K ->
     currentTarget ls2 = parent_of d0 target /\
     stopPropagation ls2 = false /\
     Component.walk cb (S fuel) c ev ls
     = prepend (CFind (Some target) :: tr) (Component.walk cb fuel c ev ls2)).
Proof.
  intros Hk Hn Hd HP Hc Ht Hs. simpl. rewrite Hs. unfold Component.iteration.
  destruct (heap (ls_state ls) !! c) as [this|] eqn:Eh; [|discriminate].
  rewrite Ht.
  destruct (Component.fire cb ev _ _ ls) as [ls1 tr] eqn:Ef.
  destruct (fire_frame cb c onPath ev _ _ ls ls1 tr Hk Ef) as (Hp1 & Hc1 & Hnf).
  pose proof (fire_never_stops ev _ _ ls ls1 tr Hn Ef) as Hs1.
  rewrite Eh in Hc1. rewrite Hc in Hc1.
  destruct (heap (ls_state ls1) !! c) as [this1|] eqn:Eh1; [|discriminate].
  simpl in Hc1. injection Hc1 as HK. rewrite HK.
  destruct (Nat.eqb_spec target K) as [He|Hne].
  - exists {| currentTarget := Some target; stopPropagation := true;
              ls_flags := ls_flags ls1; ls_state := ls_state ls1 |}, tr.
    split; [exact Hnf|]. simpl.
    split; [intros n Hn'; rewrite Hp1 by assumption; now apply Hd|].
    split; [rewrite Eh1; simpl; now rewrite HK|].
    split; [|contradiction]. intros _.
    rewrite walk_stopped by reflexivity. unfold prepend. simpl.
    now rewrite app_nil_r.
  - exists {| currentTarget := parent_of (dom (ls_state ls1)) target;
              stopPropagation := stopPropagation ls1;
              ls_flags := ls_flags ls1; ls_state := ls_state ls1 |}, tr.
    split; [exact Hnf|]. simpl.
    split; [intros n Hn'; rewrite Hp1 by assumption; now apply Hd|].
    split; [rewrite Eh1; simpl; now rewrite HK|].
    split; [contradiction|]. intros _.
    split; [rewrite Hp1 by assumption; now apply Hd|].
    split; [congruence|reflexivity].
Qed.

Lemma walk_path (c : CompRef) (onPath : Node -> Prop) (ev : Event) (d0 : DOM) (K : Node) :
  handlers_keep_path cb c onPath ->
  handlers_never_stop cb ->
  forall k fuel ls target,
    (forall n, onPath n -> parent_of (dom (ls_state ls)) n = parent_of d0 n) ->
    (forall j n, ancestor d0 j target = Some n -> onPath n) ->
    container <$> heap (ls_state ls) !! c = Some K ->
    currentTarget ls = Some target ->
    stopPropagation ls = false ->
    (forall j, j < k -> ancestor d0 j target <> Some K) ->
    (ancestor d0 k target = Some K -> k < fuel ->
     status (Component.walk cb fuel c ev ls) = Finished /\
     List.filter isFind (calls (Component.walk cb fuel c ev ls))
     = map (fun j => CFind (ancestor d0 j target)) (seq 0 (S k))) /\
    (forall r, ancestor d0 k target = Some r -> r <> K -> parent_of d0 r = None ->
     S k < fuel ->
     status (Component.walk cb fuel c ev ls) = Threw /\
     List.filter isFind (calls (Component.walk cb fuel c ev ls))
     = map (fun j => CFind (ancestor d0 j target)) (seq 0 (S k)) ++ [CFind None]).
Proof.
  intros Hk Hn. induction k as [|k IH]; intros fuel ls target Hd HP Hc Ht Hs Hmin.
  - split.
    + intros Ha Hfuel. simpl in Ha. injection Ha as Ha.
      destruct fuel as [|fuel]; [lia|].
      destruct (walk_step c onPath ev d0 K fuel ls target Hk Hn Hd
                  (HP 0 target eq_refl) Hc Ht Hs)
        as (ls2 & tr & Hnf & _ & _ & Hat & _).
      rewrite (Hat Ha). simpl. now rewrite (no_find_filter tr Hnf).
    + intros r Ha Hr Hroot Hfuel. simpl in Ha. injection Ha as Ha. subst r.
      destruct fuel as [|[|fuel]]; try lia.
      destruct (walk_step c onPath ev d0 K (S fuel) ls target Hk Hn Hd
                  (HP 0 target eq_refl) Hc Ht Hs)
        as (ls2 & tr & Hnf & _ & Hc2 & _ & Hup).
      destruct (Hup Hr) as (Hcur & Hs2 & ->).
      rewrite Hroot in Hcur.
      assert (Hw : Component.walk cb (S fuel) c ev ls2
                   = {| status := Threw; final := ls2; calls := [CFind None] |}).
      { simpl. rewrite Hs2. unfold Component.iteration.
        destruct (heap (ls_state ls2) !! c); [|discriminate]. now rewrite Hcur. }
      rewrite Hw. simpl. rewrite List.filter_app, (no_find_filter tr Hnf). now simpl.
  - assert (Hne : target <> K).
    { intros ->. apply (Hmin 0); [lia|reflexivity]. }
    assert (Hstep : forall fuel', exists ls2 tr,
              (forall x, ~ In (CFind x) tr) /\
              (forall n, onPath n -> parent_of (dom (ls_state ls2)) n = parent_of d0 n) /\
              container <$> heap (ls_state ls2) !! c = Some K /\
              currentTarget ls2 = parent_of d0 target /\
              stopPropagation ls2 = false /\
              Component.walk cb (S fuel') c ev ls
              = prepend (CFind (Some target) :: tr) (Component.walk cb fuel' c ev ls2)).
    { intros fuel'.
      destruct (walk_step c onPath ev d0 K fuel' ls target Hk Hn Hd
                  (HP 0 target eq_refl) Hc Ht Hs)
        as (ls2 & tr & Hnf & Hd2 & Hc2 & _ & Hup).
      destruct (Hup Hne) as (Hcur & Hs2 & Hw). exists ls2, tr. auto 10. }
    assert (Hsub : forall p, parent_of d0 target = Some p ->
              (forall j n, ancestor d0 j p = Some n -> onPath n) /\
              (forall j, j < k -> ancestor d0 j p <> Some K)).
    { intros p Hp. split.
      - intros j n Hj. apply (HP (S j)). simpl. now rewrite Hp.
      - intros j Hj Hcontra. apply (Hmin (S j)); [lia|]. simpl. now rewrite Hp. }
    split.
    + intros Ha Hfuel. destruct fuel as [|fuel]; [lia|].
      destruct (Hstep fuel) as (ls2 & tr & Hnf & Hd2 & Hc2 & Hcur & Hs2 & ->).
      simpl in Ha. destruct (parent_of d0 target) as [p|] eqn:Ep; [|discriminate].
      destruct (Hsub p eq_refl) as [HP2 Hmin2].
      destruct (IH fuel ls2 p Hd2 HP2 Hc2 Hcur Hs2 Hmin2) as [Hfin _].
      destruct (Hfin Ha ltac:(lia)) as [Hst Hcalls].
      split; [exact Hst|].
      change (calls (prepend (CFind (Some target) :: tr) (Component.walk cb fuel c ev ls2)))
        with ((CFind (Some target) :: tr) ++ calls (Component.walk cb fuel c ev ls2)).
      rewrite List.filter_app, (path_cons d0 target p (S k) Ep), Hcalls.
      change (List.filter isFind (CFind (Some target) :: tr))
        with (CFind (Some target) :: List.filter isFind tr).
      now rewrite (no_find_filter tr Hnf).
    + intros r Ha Hr Hroot Hfuel. destruct fuel as [|fuel]; [lia|].
      destruct (Hstep fuel) as (ls2 & tr & Hnf & Hd2 & Hc2 & Hcur & Hs2 & ->).
      simpl in Ha. destruct (parent_of d0 target) as [p|] eqn:Ep; [|discriminate].
      destruct (Hsub p eq_refl) as [HP2 Hmin2].
      destruct (IH fuel ls2 p Hd2 HP2 Hc2 Hcur Hs2 Hmin2) as [_ Hthrow].
      destruct (Hthrow r Ha Hr Hroot ltac:(lia)) as [Hst Hcalls].
      split; [exact Hst|].
      change (calls (prepend (CFind (Some target) :: tr) (Component.walk cb fuel c ev ls2)))
        with ((CFind (Some target) :: tr) ++ calls (Component.walk cb fuel c ev ls2)).
      rewrite List.filter_app, (path_cons d0 target p (S k) Ep), Hcalls.
      change (List.filter isFind (CFind (Some target) :: tr))
        with (CFind (Some target) :: List.filter isFind tr).
      now rewrite (no_find_filter tr Hnf).
Qed.


(** A walk started at a node that does not have the container among itself
    and its ancestors climbs to the root of the target's tree and then throws
    a TypeError on the missing parent: it looks up the target, each ancestor
    and [null], and does not finish. *)
Theorem walk_outside_container_throws :
  forall (c : CompRef) (ev : Event) (ls : LoopState) (this : Component)
         (target root : Node) (k fuel : nat),
    handlers_keep_path cb c
      (fun n => exists j, ancestor (dom (ls_state ls)) j target = Some n) ->
    handlers_never_stop cb ->
    heap (ls_state ls) !! c = Some this ->
    currentTarget ls = Some target ->
    stopPropagation ls = false ->
    ancestor (dom (ls_state ls)) k target = Some root ->
    parent_of (dom (ls_state ls)) root = None ->
    (forall j, j <= k -> ancestor (dom (ls_state ls)) j target <> Some (container this)) ->
    S k < fuel ->
    status (Component.walk cb fuel c ev ls) = Threw /\
    List.filter isFind (calls (Component.walk cb fuel c ev ls))
    = map (fun j => CFind (ancestor (dom (ls_state ls)) j target)) (seq 0 (S k))
      ++ [CFind None].
Proof.
  intros c ev ls this target root k fuel Hk Hn Hh Ht Hs Ha Hroot Hmin Hfuel.
  destruct (walk_path c _ ev (dom (ls_state ls)) (container this) Hk Hn k fuel ls target)
    as [_ Hthrow]; auto.
  { intros j n Hj. now exists j. }
  { now rewrite Hh. }
  { intros j Hj. apply Hmin. lia. }
  apply (Hthrow root); auto.
  intros ->. apply (Hmin k); [lia|assumption].
Qed.

End PathProperties.

(** ** Defining bindings *)

Lemma obj_get_map {A B} (f : A -> B) (k : string) (o : Obj A) :
  obj_get k (map (fun kv => (fst kv, f (snd kv))) o) = f <$> obj_get k o.
Proof.
  induction o as [|[k0 v0] o IH]; simpl; [reflexivity|].
  now destruct (String.eqb k k0).
Qed.

Lemma map_obj_set {A B} (f : A -> B) (k : string) (v : A) (o : Obj A) :
  map (fun kv => (fst kv, f (snd kv))) (obj_set k v o)
  = obj_set k (f v) (map (fun kv => (fst kv, f (snd kv))) o).
Proof.
  induction o as [|[k0 v0] o IH]; simpl; [reflexivity|].
  destruct (String.eqb k k0); simpl; [reflexivity|]. now rewrite IH.
Qed.

Lemma obj_keys_obj_set {A} (k : string) (v : A) (o : Obj A) :
  obj_keys (obj_set k v o)
  = if existsb (String.eqb k) (obj_keys o) then obj_keys o else obj_keys o ++ [k].
Proof.
  induction o as [|[k0 v0] o IH]; simpl; [reflexivity|].
  destruct (String.eqb k k0); simpl; [reflexivity|].
  rewrite IH. now destruct (existsb (String.eqb k) (obj_keys o)).
Qed.

Lemma obj_set_NoDup {A} (k : string) (v : A) (o : Obj A) :
  List.NoDup (obj_keys o) -> List.NoDup (obj_keys (obj_set k v o)).
Proof.
  intros H. rewrite obj_keys_obj_set.
  destruct (existsb (String.eqb k) (obj_keys o)) eqn:E; [assumption|].
  assert (Hk : ~ In k (obj_keys o)).
  { intros Hin. apply (proj2 (not_true_iff_false _) E).
    apply existsb_exists. exists k. split; [assumption|apply String.eqb_refl]. }
  clear E. induction H as [|x l Hx Hl IH]; simpl.
  - constructor; [tauto|constructor].
  - constructor.
    + rewrite in_app_iff. intros [Hin|[->|[]]]; [contradiction|].
      apply Hk. now left.
    + apply IH. intros Hin. apply Hk. now right.
Qed.

Lemma registry_bindings_independent (c : CompRef) (f : Component -> Component)
  (st : State) :
  (forall x, c_selector (f x) = c_selector x /\ elements (f x) = elements x) ->
  bindingsOf (update_component c f st) c = bindingsOf st c.
Proof.
  intros Hf. unfold bindingsOf.
  destruct (heap st !! c) as [x|] eqn:E.
  - rewrite (heap_update_component c f st x E). simpl.
    destruct (Hf x) as [-> ->]. reflexivity.
  - unfold update_component. now rewrite E, E.
Qed.

Lemma registerHandler_bindings (c : CompRef) (t : string) (st : State) :
  bindingsOf (fst (Component.registerHandler c t st)) c = bindingsOf st c.
Proof.
  unfold Component.registerHandler.
  destruct (heap st !! c) as [this|] eqn:Eh; [|reflexivity].
  destruct (obj_get t (registeredHandlers this)); [reflexivity|].
  assert (H1 : bindingsOf
                 (update_component c
                    (fun x => set_registeredHandlers
                                (obj_set t (Delegate c) (registeredHandlers x)) x)
                    (Component.addEventListener (container this)
                       {| l_type := t; l_fn := Delegate c;
                          l_capture := Component.isCapturing t |} st)) c
               = bindingsOf st c).
  { now rewrite registry_bindings_independent. }
  destruct (String.eqb t "touchmove"), (touches this); simpl; try exact H1.
  unfold Component.addEventListener. 
  change (bindingsOf (set_listeners ?l ?s) c) with (bindingsOf s c).
  now rewrite registry_bindings_independent.
Qed.

Lemma registerHandlers_bindings (c : CompRef) (ts : list string) :
  forall st, bindingsOf (fst (Component.registerHandlers c ts st)) c = bindingsOf st c.
Proof.
  induction ts as [|t ts IH]; intros st; simpl; [reflexivity|].
  pose proof (registerHandler_bindings c t st) as H1.
  destruct (Component.registerHandler c t st) as [st1 tr1]. simpl in H1.
  specialize (IH st1).
  destruct (Component.registerHandlers c ts st1) as [st2 tr2]. simpl in *.
  congruence.
Qed.

Lemma lastNamed_fold {A} (f : ElementSpec -> A) (name : string)
  (specs : list ElementSpec) :
  forall o : Obj A,
    obj_get name (fold_left (fun acc s => obj_set (s_name s) (f s) acc) specs o)
    = match lastNamed name specs with
      | Some s => Some (f s)
      | None => obj_get name o
      end.
Proof.
  induction specs as [|s specs IH]; intros o; simpl; [reflexivity|].
  rewrite IH. destruct (lastNamed name specs); [reflexivity|].
  rewrite obj_get_set. now destruct (String.eqb name (s_name s)).
Qed.

Lemma obj_set_length {A} (k : string) (v : A) (o : Obj A) :
  length (obj_set k v o) <= S (length o).
Proof.
  induction o as [|[k0 v0] o IH]; simpl; [lia|].
  destruct (String.eqb k k0); simpl; lia.
Qed.

Section DefineProperties.
Context (cb : Callbacks).

Lemma startups_bindings (c : CompRef) :
  startups_keep_bindings cb c ->
  forall fuel i st,
    bindingsOf (state (Component.startups cb fuel c i st)) c = bindingsOf st c.
Proof.
  intros Hk. induction fuel as [|fuel IH]; intros i st; simpl; [reflexivity|].
  destruct (heap st !! c) as [this|]; [|reflexivity].
  destruct (obj_values (elements this) !! i) as [element|]; [|reflexivity].
  destruct (el_nodes element); [apply IH|].
  destruct (el_startup element) as [code|]; [|apply IH].
  simpl. rewrite IH. apply Hk.
Qed.

(** With hooks that leave the bindings alone the startup loop ends: it takes
    one step per binding and one to find the end. *)
Lemma startups_returns (c : CompRef) :
  startups_keep_bindings cb c ->
  forall fuel i st selector bs,
    bindingsOf st c = Some (selector, bs) ->
    i <= length bs ->
    length bs < i + fuel ->
    returns (Component.startups cb fuel c i st) = true.
Proof.
  intros Hk. induction fuel as [|fuel IH]; intros i st selector bs Hb Hi Hf; [lia|].
  simpl. pose proof Hb as Hb'. unfold bindingsOf in Hb.
  destruct (heap st !! c) as [this|] eqn:Eh; [|reflexivity].
  simpl in Hb. injection Hb as Hsel Hbs.
  destruct (obj_values (elements this) !! i) as [element|] eqn:El; [|reflexivity].
  assert (Hlt : i < length bs).
  { apply lookup_lt_Some in El. unfold obj_values in El.
    rewrite length_map in El. now rewrite <- Hbs, length_map. }
  destruct (el_nodes element); [apply (IH (S i) st selector bs); auto; lia|].
  destruct (el_startup element) as [code|];
    [|apply (IH (S i) st selector bs); auto; lia].
  simpl. apply (IH (S i) _ selector bs); [|lia|lia].
  now rewrite Hk.
Qed.

Lemma defineOne_bindings (fuel : nat) (c : CompRef) (spec : ElementSpec) (st : State)
  (selector : string) (bs : Obj Element) :
  startups_keep_bindings cb c ->
  bindingsOf st c = Some (selector, bs) ->
  S (length bs) < fuel ->
  returns (Component.defineOne cb fuel c spec st) = true /\
  bindingsOf (state (Component.defineOne cb fuel c spec st)) c
  = Some (selector, obj_set (s_name spec) (declared c selector spec) bs).
Proof.
  intros Hk Hb Hfuel. unfold Component.defineOne.
  unfold bindingsOf in Hb.
  destruct (heap st !! c) as [this|] eqn:Eh; [|discriminate].
  simpl in Hb. injection Hb as Hsel Hbs.
  set (element := Element.init cb (dom st) c this spec).
  set (st1 := update_component c _ st).
  assert (H1 : bindingsOf st1 c
               = Some (selector, obj_set (s_name spec) (declared c selector spec) bs)).
  { unfold bindingsOf, st1. rewrite (heap_update_component c _ st this Eh). simpl.
    rewrite (map_obj_set declaration), Hbs, Hsel. subst selector. reflexivity. }
  pose proof (registerHandlers_bindings c (obj_keys (el_handlers element)) st1) as H2.
  destruct (Component.registerHandlers c (obj_keys (el_handlers element)) st1)
    as [st2 tr2]. simpl in H2. simpl. rewrite H1 in H2. split.
  - apply (startups_returns c Hk fuel 0 st2 _ _ H2); [lia|].
    pose proof (obj_set_length (s_name spec) (declared c selector spec) bs). lia.
  - now rewrite startups_bindings.
Qed.

Lemma define_bindings (fuel : nat) (c : CompRef) (selector : string)
  (specs : list ElementSpec) :
  startups_keep_bindings cb c ->
  forall st bs,
    bindingsOf st c = Some (selector, bs) ->
    length bs + length specs < fuel ->
    returns (Component.define cb fuel c specs st) = true /\
    bindingsOf (state (Component.define cb fuel c specs st)) c
    = Some (selector,
            fold_left (fun acc s => obj_set (s_name s) (declared c selector s) acc)
              specs bs).
Proof.
  intros Hk. induction specs as [|spec specs IH]; intros st bs Hb Hfuel; simpl;
    [now split|].
  simpl in Hfuel.
  destruct (defineOne_bindings fuel c spec st selector bs Hk Hb) as [Hr1 Hb1]; [lia|].
  rewrite Hr1. simpl. apply IH; [exact Hb1|].
  pose proof (obj_set_length (s_name spec) (declared c selector spec) bs). lia.
Qed.

(** After a [define(...)] whose startup hooks leave the bindings of the
    component alone, and which therefore returns once every startup loop has
    a step per binding and one more, [element(name)] is the binding made of
    the last specification given under [name]: its selector is the one given
    or, when none or the empty string is given, the component's selector for
    "self" and the component's selector, "__" and the name otherwise; a
    name no specification has keeps the binding it had; no name is bound
    twice. *)
Theorem define_then_element :
  forall (c : CompRef) (specs : list ElementSpec) (st : State) (this : Component)
         (name : string) (fuel : nat),
    startups_keep_bindings cb c ->
    heap st !! c = Some this ->
    length (elements this) + length specs < fuel ->
    returns (Component.define cb fuel c specs st) = true /\
    exists this',
      heap (state (Component.define cb fuel c specs st)) !! c = Some this' /\
      c_selector this' = c_selector this /\
      declaration <$> Component.element name this'
      = match lastNamed name specs with
        | Some s => Some (declared c (c_selector this) s)
        | None => declaration <$> Component.element name this
        end /\
      (List.NoDup (obj_keys (elements this)) ->
       List.NoDup (obj_keys (elements this'))).
Proof.
  intros c specs st this name fuel Hk Hh Hfuel.
  assert (Hb0 : bindingsOf st c
                = Some (c_selector this,
                        map (fun kv => (fst kv, declaration (snd kv))) (elements this)))
    by (unfold bindingsOf; now rewrite Hh).
  destruct (define_bindings fuel c (c_selector this) specs Hk st _ Hb0) as [Hret Hb];
    [now rewrite length_map|].
  split; [exact Hret|].
  unfold bindingsOf in Hb.
  destruct (heap (state (Component.define cb fuel c specs st)) !! c) as [this'|];
    [|discriminate].
  simpl in Hb. injection Hb as Hsel Hbs.
  exists this'. split; [reflexivity|]. split; [exact Hsel|]. split.
  - unfold Component.element.
    rewrite <- (obj_get_map declaration name (elements this')), Hbs.
    rewrite lastNamed_fold. now rewrite obj_get_map.
  - intros Hnd.
    assert (Hkeys : obj_keys (elements this')
                    = obj_keys (map (fun kv => (fst kv, declaration (snd kv)))
                                  (elements this'))).
    { unfold obj_keys. now rewrite map_map. }
    rewrite Hkeys, Hbs. clear Hkeys Hbs.
    assert (H0 : List.NoDup (obj_keys (map (fun kv => (fst kv, declaration (snd kv)))
                                         (elements this)))).
    { unfold obj_keys in *. now rewrite map_map. }
    clear Hfuel Hret Hb0. revert H0.
    generalize (map (fun kv => (fst kv, declaration (snd kv))) (elements this)) as bs.
    induction specs as [|s specs IH]; intros bs H0; simpl; [assumption|].
    apply IH. now apply obj_set_NoDup.
Qed.

Lemma startups_extend (c : CompRef) :
  startups_only_add cb c ->
  forall fuel i st this,
    heap st !! c = Some this ->
    exists this' more,
      heap (state (Component.startups cb fuel c i st)) !! c = Some this' /\
      elements this' = elements this ++ more.
Proof.
  intros Hadd. induction fuel as [|fuel IH]; intros i st this Hh; simpl.
  { exists this, []. now rewrite app_nil_r. }
  rewrite Hh.
  destruct (obj_values (elements this) !! i) as [element|];
    [|exists this, []; now rewrite app_nil_r].
  destruct (el_nodes element); [now apply IH|].
  destruct (el_startup element) as [code|]; [|now apply IH].
  simpl. destruct (Hadd code element st this Hh) as (this1 & more1 & Hh1 & He1).
  destruct (IH (S i) _ this1 Hh1) as (this' & more & Hh' & He').
  exists this', (more1 ++ more). split; [exact Hh'|].
  now rewrite He', He1, app_assoc.
Qed.

(** The startup loop follows the map as it grows.  With hooks that at most
    add bindings, when the loop started at position [i] has ended, the hooks
    it called are those of the bindings the map holds at the end, from
    position [i] on, that have nodes and a hook, each once, in the order of
    the map: the bindings a hook added while the loop ran are among them. *)
Theorem startups_follow_the_growing_map :
  forall (fuel : nat) (c : CompRef) (i : nat) (st : State) (this this' : Component),
    startups_only_add cb c ->
    heap st !! c = Some this ->
    returns (Component.startups cb fuel c i st) = true ->
    heap (state (Component.startups cb fuel c i st)) !! c = Some this' ->
    trace (Component.startups cb fuel c i st)
    = flat_map startupCall (drop i (obj_values (elements this'))) /\
    exists added, elements this' = elements this ++ added.
Proof.
  intros fuel c i st this this' Hadd. revert i st this.
  induction fuel as [|fuel IH]; intros i st this Hh Hret Hfin; [discriminate|].
  assert (Hext : exists added, elements this' = elements this ++ added).
  { destruct (startups_extend c Hadd (S fuel) i st this Hh) as (x & more & Hx & He).
    rewrite Hfin in Hx. injection Hx as <-. now exists more. }
  split; [|exact Hext]. destruct Hext as [added Hext].
  simpl in *. rewrite Hh in *.
  destruct (obj_values (elements this) !! i) as [element|] eqn:El.
  2:{ simpl in Hfin. rewrite Hh in Hfin. injection Hfin as <-.
      now rewrite drop_ge by (now apply lookup_ge_None). }
  assert (Hdrop : drop i (obj_values (elements this'))
                  = element :: drop (S i) (obj_values (elements this'))).
  { apply drop_S. rewrite Hext. unfold obj_values. rewrite map_app.
    now apply lookup_app_l_Some. }
  rewrite Hdrop. simpl. unfold startupCall at 1.
  destruct (el_nodes element) as [|n ns].
  { now apply (IH (S i) st this). }
  destruct (el_startup element) as [code|].
  2:{ now apply (IH (S i) st this). }
  simpl in *. f_equal.
  destruct (Hadd code element st this Hh) as (this1 & more1 & Hh1 & _).
  now apply (IH (S i) _ this1).
Qed.

End DefineProperties.

(** ** Listeners for the declared handlers *)

Lemma obj_keys_obj_assign {A} (t : string) (h : Obj A) :
  forall o, In t (obj_keys (obj_assign o h)) <-> In t (obj_keys o) \/ In t (obj_keys h).
Proof.
  unfold obj_assign. induction h as [|[k v] h IH]; intros o; simpl; [tauto|].
  rewrite IH, obj_keys_obj_set.
  destruct (existsb (String.eqb k) (obj_keys o)) eqn:E.
  - apply existsb_exists in E as (k' & Hk' & He). apply String.eqb_eq in He. subst k'.
    split; [tauto|]. intros [H|[<-|H]]; tauto.
  - rewrite in_app_iff. simpl. tauto.
Qed.

Lemma installed_app (fn : ListenerFn) (node : Node) (t : string) (st st' : State)
  (more : list (Node * NativeListener)) :
  listeners st' = listeners st ++ more ->
  installed fn node t st'
  = installed fn node t st
    + length (List.filter
                (fun nl => Nat.eqb (fst nl) node
                           && String.eqb (l_type (snd nl)) t
                           && fn_eqb (l_fn (snd nl)) fn)
                more).
Proof.
  intros H. unfold installed. now rewrite H, List.filter_app, List.length_app.
Qed.

Lemma listenersFit_ext (c : CompRef) (K : Node) (st st' : State) :
  registry st' c = registry st c ->
  listeners st' = listeners st ->
  listenersFit c K st -> listenersFit c K st'.
Proof.
  intros Hr Hl (reg & tch & H1 & H2 & H3 & H4 & H5 & H6).
  exists reg, tch. unfold installed in *. rewrite Hr, Hl. auto 10.
Qed.

Lemma registered_ext (c : CompRef) (t : string) (st st' : State) :
  registry st' c = registry st c -> registered c t st -> registered c t st'.
Proof.
  intros Hr (K & reg & tch & H1 & H2). exists K, reg, tch. now rewrite Hr.
Qed.

Lemma registry_set_elements (c : CompRef) (es : Component -> Obj Element) (st : State) :
  registry (update_component c (fun x => set_elements (es x) x) st) c = registry st c.
Proof.
  unfold registry. destruct (heap st !! c) as [x|] eqn:E.
  - now rewrite (heap_update_component c _ st x E).
  - unfold update_component. now rewrite E, E.
Qed.

(** What one turn of the loop over the handlers of a binding does to the
    listeners and the registry. *)
Lemma registerHandler_effect (c : CompRef) (t : string) (st : State) (this : Component) :
  heap st !! c = Some this ->
  (obj_get t (registeredHandlers this) <> None /\
   fst (Component.registerHandler c t st) = st) \/
  (obj_get t (registeredHandlers this) = None /\
   exists extra tch',
     ((t = "touchmove" /\ touches this = None /\ tch' = Some None /\
       extra = [(container this,
                 {| l_type := "touchstart"; l_fn := TouchRecorder c;
                    l_capture := false |})]) \/
      ((t <> "touchmove" \/ touches this <> None) /\ tch' = touches this /\
       extra = [])) /\
     listeners (fst (Component.registerHandler c t st))
     = listeners st
       ++ (container this,
           {| l_type := t; l_fn := Delegate c;
              l_capture := Component.isCapturing t |}) :: extra /\
     registry (fst (Component.registerHandler c t st)) c
     = Some (container this, obj_set t (Delegate c) (registeredHandlers this), tch')).
Proof.
  intros Eh. unfold Component.registerHandler. rewrite Eh.
  destruct (obj_get t (registeredHandlers this)) eqn:Eg; [left; split; [discriminate|reflexivity]|].
  right. split; [reflexivity|].
  set (l := {| l_type := t; l_fn := Delegate c; l_capture := Component.isCapturing t |}).
  set (st1 := Component.addEventListener (container this) l st).
  set (f := fun x => set_registeredHandlers
                       (obj_set t (Delegate c) (registeredHandlers x)) x).
  assert (Eh2 : heap (update_component c f st1) !! c = Some (f this))
    by (now apply heap_update_component).
  destruct (String.eqb_spec t "touchmove") as [Ht|Ht];
    destruct (touches this) as [tc|] eqn:Et; simpl.
  - exists [], (Some tc). split; [right; repeat split; right; discriminate|].
    rewrite listeners_update_component. split; [reflexivity|].
    unfold registry. rewrite Eh2. subst f. simpl. now rewrite Et.
  - eexists. exists (Some None). split; [left; repeat split; assumption|].
    rewrite !listeners_update_component. simpl. rewrite <- app_assoc. simpl.
    split; [reflexivity|].
    unfold registry, Component.addEventListener. simpl.
    rewrite (heap_update_component c _ _ _ Eh2). reflexivity.
  - exists [], (Some tc). split; [right; repeat split; left; assumption|].
    rewrite listeners_update_component. split; [reflexivity|].
    unfold registry. rewrite Eh2. subst f. simpl. now rewrite Et.
  - exists [], None. split; [right; repeat split; left; assumption|].
    rewrite listeners_update_component. split; [reflexivity|].
    unfold registry. rewrite Eh2. subst f. simpl. now rewrite Et.
Qed.

Lemma registerHandler_fit (c : CompRef) (K : Node) (t : string) (st : State) :
  listenersFit c K st ->
  listenersFit c K (fst (Component.registerHandler c t st)) /\
  registered c t (fst (Component.registerHandler c t st)) /\
  (forall t', registered c t' st ->
              registered c t' (fst (Component.registerHandler c t st))).
Proof.
  intros (reg & tch & Hreg & Hcounts & Hone & Hdel & Htm & Hrec).
  assert (Hfit : listenersFit c K st) by (exists reg, tch; auto 10).
  unfold registry in Hreg.
  destruct (heap st !! c) as [this|] eqn:Eh; [|discriminate].
  simpl in Hreg. injection Hreg as HK Hr Ht. subst K reg tch.
  destruct (registerHandler_effect c t st this Eh)
    as [[Hg ->]|(Hg & extra & tch' & Hcase & Hl & Hr)].
  { split; [exact Hfit|]. split; [|auto].
    exists (container this), (registeredHandlers this), (touches this).
    split; [|exact Hg]. unfold registry. now rewrite Eh. }
  set (st' := fst (Component.registerHandler c t st)) in *.
  set (dl := {| l_type := t; l_fn := Delegate c;
                l_capture := Component.isCapturing t |}) in *.
  assert (Hmono : forall fn t', installed fn (container this) t' st
                                <= installed fn (container this) t' st').
  { intros fn t'. rewrite (installed_app fn _ t' st st' _ Hl). lia. }
  split; [|split].
  - exists (obj_set t (Delegate c) (registeredHandlers this)), tch'.
    split; [exact Hr|]. split; [|split; [|split; [|split]]].
    + rewrite Hl.
      pose proof (counts_add_delegate c (listeners st) (registeredHandlers this)
                    (touches this) t (container this) (Component.isCapturing t)
                    Hcounts Hg) as Hc1.
      destruct Hcase as [(-> & Et & -> & ->)|(_ & -> & ->)]; [|exact Hc1].
      rewrite Et in Hc1.
      change (listeners st ++ ?a :: [?b]) with (listeners st ++ [a] ++ [b]).
      rewrite app_assoc. now apply counts_add_recorder.
    + intros t' Ht'. rewrite obj_get_set in Ht'.
      destruct (String.eqb_spec t' t) as [He|Hne].
      * rewrite He. rewrite (installed_app _ _ t st st' _ Hl). simpl.
        rewrite !Nat.eqb_refl, String.eqb_refl. simpl. lia.
      * specialize (Hone t' Ht'). specialize (Hmono (Delegate c) t'). lia.
    + intros n l Hin Hfn. rewrite Hl in Hin. apply in_app_or in Hin as [Hin|[Hin|Hin]].
      * now apply Hdel.
      * injection Hin as <- <-. split; reflexivity.
      * destruct Hcase as [(_ & _ & _ & ->)|(_ & _ & ->)]; [|contradiction].
        destruct Hin as [Hin|[]]. injection Hin as <- <-. discriminate.
    + intros Hm. rewrite obj_get_set in Hm.
      destruct Hcase as [(_ & _ & -> & _)|(Hc & -> & _)]; [discriminate|].
      destruct Hc as [Hc|Hc]; [|exact Hc].
      destruct (String.eqb_spec "touchmove" t) as [<-|Hne]; [contradiction|].
      now apply Htm.
    + intros Hn.
      destruct Hcase as [(_ & _ & _ & ->)|(_ & -> & _)].
      * rewrite (installed_app _ _ "touchstart" st st' _ Hl). simpl.
        rewrite !Nat.eqb_refl. simpl.
        destruct (String.eqb t "touchstart" && false); simpl; lia.
      * specialize (Hrec Hn).
        specialize (Hmono (TouchRecorder c) "touchstart"). lia.
  - exists (container this), (obj_set t (Delegate c) (registeredHandlers this)), tch'.
    split; [exact Hr|]. rewrite obj_get_set, String.eqb_refl. discriminate.
  - intros t' (K' & reg' & tc' & Hr' & Hg').
    unfold registry in Hr'. rewrite Eh in Hr'. simpl in Hr'.
    injection Hr' as <- <- <-.
    exists (container this), (obj_set t (Delegate c) (registeredHandlers this)), tch'.
    split; [exact Hr|]. rewrite obj_get_set.
    now destruct (String.eqb t' t).
Qed.

Lemma registerHandlers_fit (c : CompRef) (K : Node) (ts : list string) :
  forall st,
    listenersFit c K st ->
    listenersFit c K (fst (Component.registerHandlers c ts st)) /\
    (forall t, In t ts -> registered c t (fst (Component.registerHandlers c ts st))) /\
    (forall t, registered c t st ->
               registered c t (fst (Component.registerHandlers c ts st))).
Proof.
  induction ts as [|t ts IH]; intros st H; simpl; [split; [assumption|split; [tauto|auto]]|].
  destruct (registerHandler_fit c K t st H) as (H1 & Ht & Hm).
  destruct (Component.registerHandler c t st) as [st1 tr1]. simpl in *.
  destruct (IH st1 H1) as (H2 & Hts & Hm2).
  destruct (Component.registerHandlers c ts st1) as [st2 tr2]. simpl in *.
  split; [assumption|]. split; [|auto].
  intros t' [<-|Hin]; auto.
Qed.

Section DeclaredListeners.
Context (cb : Callbacks).

Lemma startups_registry (c : CompRef) :
  startups_keep_registry cb c ->
  forall fuel i st,
    registry (state (Component.startups cb fuel c i st)) c = registry st c /\
    listeners (state (Component.startups cb fuel c i st)) = listeners st.
Proof.
  intros Hk. induction fuel as [|fuel IH]; intros i st; simpl; [auto|].
  destruct (heap st !! c) as [this|]; [|auto].
  destruct (obj_values (elements this) !! i) as [element|]; [|auto].
  destruct (el_nodes element); [apply IH|].
  destruct (el_startup element) as [code|]; [|apply IH].
  destruct (Hk code element st) as [Hl Hr].
  destruct (IH (S i) (startup_fn cb code element st)) as [Hr' Hl'].
  simpl. split; congruence.
Qed.

(** The handlers of a binding are registered before its startup loop runs,
    so they are whether or not the loop ends. *)
Lemma defineOne_fit (fuel : nat) (c : CompRef) (K : Node) (spec : ElementSpec)
  (st : State) :
  startups_keep_registry cb c ->
  listenersFit c K st ->
  listenersFit c K (state (Component.defineOne cb fuel c spec st)) /\
  (forall t, In t (obj_keys (s_handlers spec)) ->
             registered c t (state (Component.defineOne cb fuel c spec st))) /\
  (forall t, registered c t st ->
             registered c t (state (Component.defineOne cb fuel c spec st))).
Proof.
  intros Hk H. unfold Component.defineOne.
  destruct (heap st !! c) as [this|] eqn:Eh.
  2:{ destruct H as (reg & tch & Hreg & _). unfold registry in Hreg.
      rewrite Eh in Hreg. discriminate. }
  set (element := Element.init cb (dom st) c this spec).
  set (st1 := update_component c _ st).
  assert (Hr1 : registry st1 c = registry st c) by apply registry_set_elements.
  assert (Hl1 : listeners st1 = listeners st) by apply listeners_update_component.
  pose proof (listenersFit_ext c K st st1 Hr1 Hl1 H) as H1.
  destruct (registerHandlers_fit c K (obj_keys (el_handlers element)) st1 H1)
    as (H2 & Hts & Hm2).
  destruct (Component.registerHandlers c (obj_keys (el_handlers element)) st1)
    as [st2 tr2]. simpl in *.
  destruct (startups_registry c Hk fuel 0 st2) as [Hr3 Hl3].
  split; [now apply (listenersFit_ext c K st2)|]. split.
  - intros t Ht. apply (registered_ext c t st2); [assumption|]. apply Hts.
    apply (obj_keys_obj_assign t (s_handlers spec) []). now right.
  - intros t Ht. apply (registered_ext c t st2); [assumption|]. apply Hm2.
    now apply (registered_ext c t st).
Qed.

Lemma define_fit (fuel : nat) (c : CompRef) (K : Node) (specs : list ElementSpec) :
  startups_keep_registry cb c ->
  forall st,
    listenersFit c K st ->
    listenersFit c K (state (Component.define cb fuel c specs st)) /\
    (returns (Component.define cb fuel c specs st) = true ->
     forall spec t, In spec specs -> In t (obj_keys (s_handlers spec)) ->
                    registered c t (state (Component.define cb fuel c specs st))) /\
    (forall t, registered c t st ->
               registered c t (state (Component.define cb fuel c specs st))).
Proof.
  intros Hk. induction specs as [|spec specs IH]; intros st H; simpl.
  { split; [assumption|]. split; [intros _ ? ? []|auto]. }
  destruct (defineOne_fit fuel c K spec st Hk H) as (H1 & Hts & Hm).
  remember (Component.defineOne cb fuel c spec st) as r1 eqn:E1.
  destruct (returns r1) eqn:Er.
  - simpl. destruct (IH _ H1) as (H2 & Hts2 & Hm2).
    split; [assumption|]. split; [|auto].
    intros Hret s t [<-|Hin] Ht; eauto.
  - split; [assumption|]. split; [|auto]. rewrite Er. discriminate.
Qed.

Lemma defines_fit (fuel : nat) (c : CompRef) (K : Node) (defs : list (list ElementSpec)) :
  startups_keep_registry cb c ->
  forall st,
    listenersFit c K st ->
    listenersFit c K (state (defines cb fuel c defs st)) /\
    (returns (defines cb fuel c defs st) = true ->
     forall specs spec t, In specs defs -> In spec specs ->
                          In t (obj_keys (s_handlers spec)) ->
                          registered c t (state (defines cb fuel c defs st))) /\
    (forall t, registered c t st -> registered c t (state (defines cb fuel c defs st))).
Proof.
  intros Hk. induction defs as [|specs defs IH]; intros st H; simpl.
  { split; [assumption|]. split; [intros _ ? ? ? []|auto]. }
  destruct (define_fit fuel c K specs Hk st H) as (H1 & Hts & Hm).
  remember (Component.define cb fuel c specs st) as r1 eqn:E1.
  destruct (returns r1) eqn:Er.
  - simpl. destruct (IH _ H1) as (H2 & Hts2 & Hm2).
    split; [assumption|]. split; [|auto].
    intros Hret ss s t [<-|Hin] Hs Ht; eauto.
  - split; [assumption|]. split; [|auto]. rewrite Er. discriminate.
Qed.

Lemma create_fit (name : string) (node : Node) (selector : string) (st0 : State) :
  noListenerOfNext st0 ->
  listenersFit (fst (Hub.create name node selector st0)) node
    (snd (Hub.create name node selector st0)).
Proof.
  intros Hfresh.
  destruct (create_ok name node selector st0 Hfresh) as (reg & tch & Hr & Hc).
  assert (Hreg : registry (snd (Hub.create name node selector st0))
                   (fst (Hub.create name node selector st0))
                 = Some (node, [], None)).
  { unfold registry. simpl. rewrite lookup_app_r by lia. now rewrite Nat.sub_diag. }
  rewrite Hreg in Hr. injection Hr as <- <-.
  exists [], None. split; [exact Hreg|]. split; [exact Hc|].
  split; [intros t Ht; now contradiction Ht|].
  split; [|split; [intros H; now contradiction H|intros H; now contradiction H]].
  intros n l Hin Hfn. simpl in Hin. specialize (Hfresh (n, l) Hin).
  unfold ownedBy in Hfresh. simpl in Hfresh. rewrite Hfn in Hfresh.
  simpl in Hfresh. now rewrite Nat.eqb_refl in Hfresh.
Qed.

(** After [Hub.create] and any sequence of [define] calls whose startup
    hooks leave the listeners and the registry alone: once the calls have
    returned, every event type for which some binding given to [define]
    declares a handler has exactly one delegating listener on the container;
    and at whatever point of the calls, every delegating listener of the
    component is on the container, in the capturing phase for blur, focus,
    mouseenter and mouseleave and in the bubbling phase for every other
    type. *)
Theorem declared_types_have_one_delegate :
  forall (st0 : State) (name : string) (node : Node) (selector : string)
         (defs : list (list ElementSpec)) (fuel : nat),
    startups_keep_registry cb (fst (Hub.create name node selector st0)) ->
    noListenerOfNext st0 ->
    let c := fst (Hub.create name node selector st0) in
    let r := defines cb fuel c defs (snd (Hub.create name node selector st0)) in
    (returns r = true ->
     forall specs spec t,
       In specs defs -> In spec specs -> In t (obj_keys (s_handlers spec)) ->
       installed (Delegate c) node t (state r) = 1) /\
    (forall n l,
       In (n, l) (listeners (state r)) -> l_fn l = Delegate c ->
       n = node /\
       (l_capture l = true <->
        In (l_type l) ["blur"; "focus"; "mouseenter"; "mouseleave"])).
Proof.
  intros st0 name node selector defs fuel Hk Hfresh c r.
  destruct (defines_fit fuel c node defs Hk _ (create_fit name node selector st0 Hfresh))
    as ((reg & tch & Hreg & Hcounts & Hone & Hdel & _) & Hdecl & _).
  fold r in Hreg, Hcounts, Hone, Hdel, Hdecl. split.
  - intros Hret specs spec t Hs Hsp Ht.
    destruct (Hdecl Hret specs spec t Hs Hsp Ht) as (K' & reg' & tch' & Hreg' & Hg).
    rewrite Hreg in Hreg'. injection Hreg' as <- <- <-.
    specialize (Hone t Hg).
    destruct (Hcounts t) as (Hle & _).
    pose proof (installed_le_anywhere (Delegate c) node t (state r)). lia.
  - intros n l Hin Hfn. destruct (Hdel n l Hin Hfn) as [-> Hcap].
    split; [reflexivity|]. rewrite Hcap. unfold Component.isCapturing.
    rewrite existsb_exists. split.
    + intros (x & Hx & He). apply String.eqb_eq in He. now subst.
    + intros H. exists (l_type l). split; [assumption|apply String.eqb_refl].
Qed.

(** After [Hub.create] and [define] calls as above that have returned and in
    which some binding declares a touchmove handler, the touch state of the
    component is defined and the touch recorder is on the container exactly
    once, so [handler] does not throw on the touch state: for a touchmove
    event with a touch point it enters the loop with the direction flags
    added to the event. *)
Theorem touchmove_finds_touch_state :
  forall (st0 : State) (name : string) (node : Node) (selector : string)
         (defs : list (list ElementSpec)) (specs : list ElementSpec)
         (spec : ElementSpec) (fuel : nat),
    startups_keep_registry cb (fst (Hub.create name node selector st0)) ->
    noListenerOfNext st0 ->
    In specs defs -> In spec specs -> In "touchmove" (obj_keys (s_handlers spec)) ->
    let c := fst (Hub.create name node selector st0) in
    let r := defines cb fuel c defs (snd (Hub.create name node selector st0)) in
    returns r = true ->
    exists this recorded,
      heap (state r) !! c = Some this /\
      touches this = Some recorded /\
      installed (TouchRecorder c) node "touchstart" (state r) = 1 /\
      forall fuel' ev fl clientX clientY,
        ev_type ev = "touchmove" ->
        ev_touches0 ev = Some (clientX, clientY) ->
        Component.handler cb fuel' c ev fl (state r)
        = Component.walk cb fuel' c
            (set_gesture (Some (Component.gesture recorded clientX clientY)) ev)
            {| currentTarget := Some (ev_target ev); stopPropagation := false;
               ls_flags := fl; ls_state := state r |}.
Proof.
  intros st0 name node selector defs specs spec fuel Hk Hfresh Hs Hsp Ht c r Hret.
  destruct (defines_fit fuel c node defs Hk _ (create_fit name node selector st0 Hfresh))
    as ((reg & tch & Hreg & Hcounts & _ & _ & Htm & Hrec) & Hdecl & _).
  fold r in Hreg, Hcounts, Htm, Hrec, Hdecl.
  destruct (Hdecl Hret specs spec "touchmove" Hs Hsp Ht)
    as (K' & reg' & tch' & Hreg' & Hg).
  rewrite Hreg in Hreg'. injection Hreg' as <- <- <-.
  specialize (Htm Hg). specialize (Hrec Htm).
  unfold registry in Hreg.
  destruct (heap (state r) !! c) as [this|] eqn:Eh; [|discriminate].
  simpl in Hreg. injection Hreg as HK Hr Htc.
  destruct tch as [recorded|]; [|contradiction].
  exists this, recorded. split; [reflexivity|]. split; [exact Htc|]. split.
  - destruct (Hcounts "touchstart") as (_ & _ & Hle & _).
    rewrite String.eqb_refl in Hle.
    pose proof (installed_le_anywhere (TouchRecorder c) node "touchstart" (state r)). lia.
  - intros fuel' ev fl clientX clientY Hty Htp. unfold Component.handler.
    now rewrite Hty, String.eqb_refl, Eh, Htc, Htp.
Qed.

(** The touch recorder stores the first touch point of a touchstart event;
    a touchmove dispatched afterwards enters the loop with the flags of the
    move from that point, computed on doubles as the code computes them:
    horizontal when the absolute horizontal difference is the greater, left
    to right when the difference of the recorded and the new horizontal
    coordinate is negative, bottom to top when that of the vertical ones is
    positive.  The recorder throws, and stores nothing, when the event has
    no touch point. *)
Theorem recorded_touch_gives_direction :
  forall (c : CompRef) (st : State) (this : Component) (ev0 ev : Event)
         (x y x' y' : Number) (fuel : nat) (fl : Flags),
    heap st !! c = Some this ->
    touches this <> None ->
    ev_touches0 ev0 = Some (x, y) ->
    ev_type ev = "touchmove" ->
    ev_touches0 ev = Some (x', y') ->
    exists st1 this1,
      touchRecorder c ev0 st = Normal st1 /\
      heap st1 !! c = Some this1 /\
      touches this1 = Some (Some (x, y)) /\
      Component.handler cb fuel c ev fl st1
      = Component.walk cb fuel c
          (set_gesture
             (Some {| isHorizontal := (abs (y - y') <? abs (x - x'))%float;
                      isLeftToRight := (x - x' <? 0)%float;
                      isBottomToTop := (0 <? y - y')%float |}) ev)
          {| currentTarget := Some (ev_target ev); stopPropagation := false;
             ls_flags := fl; ls_state := st1 |} /\
      (forall e, ev_touches0 e = None -> touchRecorder c e st = TypeError st).
Proof.
  intros c st this ev0 ev x y x' y' fuel fl Hh Ht H0 Hty Htp.
  unfold touchRecorder. rewrite Hh, H0.
  destruct (touches this) as [tc|] eqn:Etc; [|contradiction].
  eexists. eexists. split; [reflexivity|].
  split; [apply heap_update_component; exact Hh|]. split; [reflexivity|]. split.
  - unfold Component.handler. rewrite Hty, String.eqb_refl.
    rewrite (heap_update_component c _ st this Hh). simpl. now rewrite Htp.
  - intros e He. now rewrite He.
Qed.

End DeclaredListeners.

(** ** Delegation along the path *)

Lemma path_flat_map_cons (f : option Node -> list Call) (d : DOM) (target p : Node)
  (k : nat) :
  parent_of d target = Some p ->
  flat_map (fun j => f (ancestor d j target)) (seq 0 (S k))
  = f (Some target) ++ flat_map (fun j => f (ancestor d j p)) (seq 0 k).
Proof.
  intros Hp. change (seq 0 (S k)) with (0 :: seq 1 k).
  change (flat_map (fun j => f (ancestor d j target)) (0 :: seq 1 k))
    with (f (Some target) ++ flat_map (fun j => f (ancestor d j target)) (seq 1 k)).
  f_equal. rewrite <- seq_shift, !flat_map_concat_map, map_map.
  f_equal. apply map_ext. intros j. simpl. now rewrite Hp.
Qed.

Section DelegationProperties.
Context (cb : Callbacks).

Lemma fire_handler_calls (ev : Event) (this : Component) (d : DOM) (cur : Node)
  (ls : LoopState) :
  ev_relatedTarget ev = None ->
  List.filter isHandlerCall
    (snd (Component.fire cb ev (Component.findElement this (Some cur))
            (Component.isOutsideRelated d (ev_relatedTarget ev) cur) ls))
  = handlerAt this ev (Some cur).
Proof.
  intros Hr. rewrite fire_calls, Hr. unfold handlerAt, Component.isOutsideRelated.
  destruct (Component.findElement this (Some cur)) as [[e index]|]; [|reflexivity].
  destruct (obj_get (ev_type ev) (el_handlers e)) as [code|]; [|reflexivity].
  simpl. now rewrite (no_handler_filter _ (actionCalls_no_handler _)).
Qed.

Lemma fire_keeps_bindings (c : CompRef) (ev : Event) (found : option (Element * nat))
  (isOutside : bool) (ls ls1 : LoopState) (tr : list Call) :
  handlers_keep_bindings cb c ->
  Component.fire cb ev found isOutside ls = (ls1, tr) ->
  elements <$> heap (ls_state ls1) !! c = elements <$> heap (ls_state ls) !! c.
Proof.
  intros Hb Hf. unfold Component.fire in Hf.
  destruct found as [[element index]|]; [|now inversion Hf].
  destruct (obj_get (ev_type ev) (el_handlers element)) as [code|]; [|now inversion Hf].
  destruct isOutside; [|now inversion Hf].
  specialize (Hb code element ev index (ls_state ls)).
  destruct (handler_fn cb code element ev index (ls_state ls)) as [st' acts].
  destruct (Component.applyActions acts (stopPropagation ls) (ls_flags ls))
    as [[stop fl] tra].
  now inversion Hf.
Qed.

Lemma walk_handlers (c : CompRef) (onPath : Node -> Prop) (ev : Event) (d0 : DOM)
  (this0 : Component) :
  handlers_keep_path cb c onPath ->
  handlers_never_stop cb ->
  handlers_keep_bindings cb c ->
  ev_relatedTarget ev = None ->
  forall k fuel ls target,
    (forall n, onPath n -> parent_of (dom (ls_state ls)) n = parent_of d0 n) ->
    (forall j n, ancestor d0 j target = Some n -> onPath n) ->
    container <$> heap (ls_state ls) !! c = Some (container this0) ->
    elements <$> heap (ls_state ls) !! c = Some (elements this0) ->
    currentTarget ls = Some target ->
    stopPropagation ls = false ->
    (forall j, j < k -> ancestor d0 j target <> Some (container this0)) ->
    ancestor d0 k target = Some (container this0) ->
    k < fuel ->
    List.filter isHandlerCall (calls (Component.walk cb fuel c ev ls))
    = flat_map (fun j => handlerAt this0 ev (ancestor d0 j target)) (seq 0 (S k)).
Proof.
  intros Hk Hn Hb Hr.
  induction k as [|k IH]; intros fuel ls target Hd HP Hc He Ht Hs Hmin Ha Hfuel;
    (destruct fuel as [|fuel]; [lia|]); simpl Component.walk; rewrite Hs;
    unfold Component.iteration;
    (destruct (heap (ls_state ls) !! c) as [this|] eqn:Eh; [|discriminate]);
    rewrite Ht;
    pose proof (fire_handler_calls ev this (dom (ls_state ls)) target ls Hr) as Hcalls;
    (destruct (Component.fire cb ev _ _ ls) as [ls1 tr] eqn:Ef);
    (destruct (fire_frame cb c onPath ev _ _ ls ls1 tr Hk Ef) as (Hp1 & Hc1 & Hnf));
    pose proof (fire_never_stops cb ev _ _ ls ls1 tr Hn Ef) as Hs1;
    pose proof (fire_keeps_bindings c ev _ _ ls ls1 tr Hb Ef) as He1;
    rewrite Eh in Hc1, He1; rewrite Hc in Hc1; rewrite He in He1;
    (destruct (heap (ls_state ls1) !! c) as [this1|] eqn:Eh1; [|discriminate]);
    simpl in Hc1, He1, Hcalls, Hc, He; injection Hc1 as HK; injection He1 as HE;
    injection He as He;
    assert (Hhere : List.filter isHandlerCall tr = handlerAt this0 ev (Some target))
      by (rewrite Hcalls; unfold handlerAt, Component.findElement; now rewrite He);
    rewrite HK.
  - simpl in Ha. injection Ha as Ha. rewrite Ha, Nat.eqb_refl.
    rewrite walk_stopped by reflexivity. simpl. rewrite !app_nil_r.
    now rewrite <- Ha.
  - assert (Hne : target <> container this0).
    { intros Heq. apply (Hmin 0); [lia|]. simpl. now rewrite Heq. }
    destruct (Nat.eqb_spec target (container this0)) as [|_]; [contradiction|].
    assert (HPt : onPath target) by (apply (HP 0); reflexivity).
    rewrite (Hp1 target HPt), (Hd target HPt), Hs1, Hs.
    simpl in Ha. destruct (parent_of d0 target) as [p|] eqn:Ep; [|discriminate].
    change (calls (prepend (CFind (Some target) :: tr) ?w))
      with ((CFind (Some target) :: tr) ++ calls w).
    rewrite List.filter_app.
    change (List.filter isHandlerCall (CFind (Some target) :: tr))
      with (List.filter isHandlerCall tr).
    rewrite Hhere.
    rewrite (path_flat_map_cons (handlerAt this0 ev) d0 target p (S k) Ep).
    f_equal. apply (IH fuel _ p); simpl; auto.
    + intros n Hn'. rewrite Hp1 by assumption. now apply Hd.
    + intros j n Hj. apply (HP (S j)). simpl. now rewrite Ep.
    + rewrite Eh1. simpl. now rewrite HK.
    + rewrite Eh1. simpl. now rewrite HE.
    + intros j Hj Hcontra. apply (Hmin (S j)); [lia|]. simpl. now rewrite Ep.
    + lia.
Qed.

(** For an event without related target, when no handler stops the inner
    propagation and the handlers leave the bindings, the container and the
    parent links of the target and its ancestors as they are, one dispatch
    calls, for the target and then each ancestor up to the container, in
    that order, the handler for the event's type of the binding
    [findElement] gives for the node, with the index of the node, and calls
    no other handler. *)
Theorem dispatch_calls_handlers_along_path :
  forall (c : CompRef) (ev : Event) (ls : LoopState) (this : Component)
         (target : Node) (k fuel : nat),
    handlers_keep_path cb c
      (fun n => exists j, ancestor (dom (ls_state ls)) j target = Some n) ->
    handlers_never_stop cb ->
    handlers_keep_bindings cb c ->
    ev_relatedTarget ev = None ->
    heap (ls_state ls) !! c = Some this ->
    currentTarget ls = Some target ->
    stopPropagation ls = false ->
    ancestor (dom (ls_state ls)) k target = Some (container this) ->
    (forall j, j < k -> ancestor (dom (ls_state ls)) j target <> Some (container this)) ->
    k < fuel ->
    List.filter isHandlerCall (calls (Component.walk cb fuel c ev ls))
    = flat_map (fun j => handlerAt this ev (ancestor (dom (ls_state ls)) j target))
        (seq 0 (S k)).
Proof.
  intros c ev ls this target k fuel Hk Hn Hb Hr Hh Ht Hs Ha Hmin Hfuel.
  apply (walk_handlers c _ ev (dom (ls_state ls)) this Hk Hn Hb Hr); auto.
  - intros j n Hj. now exists j.
  - now rewrite Hh.
  - now rewrite Hh.
Qed.

End DelegationProperties.

(** [listen] followed by [Hub.unsubscribe] of the component, for every
    event, leaves the observers as they were when the component had no
    subscription before. *)
Theorem listen_then_unsubscribe_restores :
  forall (this : CompRef) (events : list Signals.Subscription) (st : State),
    observersAllocated st ->
    (forall o, In o (array_of st (hub_observers st)) -> o_component o <> this) ->
    array_of (Hub.unsubscribe this None (Signals.listen this events st))
      (hub_observers (Hub.unsubscribe this None (Signals.listen this events st)))
    = array_of st (hub_observers st).
Proof.
  intros this events st Ha Hnone.
  destruct (listen_contents this events st Ha) as (_ & Href & Hcontents).
  rewrite array_of_unsubscribe, Href, Hcontents, List.filter_app.
  assert (Hold : List.filter (fun o => negb (dropped this None o))
                   (array_of st (hub_observers st))
                 = array_of st (hub_observers st)).
  { revert Hnone. generalize (array_of st (hub_observers st)) as l.
    induction l as [|o l IH]; intros Hnone; simpl; [reflexivity|].
    unfold dropped at 1.
    destruct (Nat.eqb_spec (o_component o) this) as [He|Hne].
    - exfalso. apply (Hnone o); [now left|assumption].
    - simpl. f_equal. apply IH. intros o' Ho'. apply Hnone. now right. }
  rewrite Hold.
  assert (Hnew : forall evs,
            List.filter (fun o => negb (dropped this None o))
              (map (fun s => {| o_component := this; o_event := Signals.sub_event s;
                                o_handler := {| fn_code := Signals.sub_handler s;
                                                fn_this := Some this |} |})
                   evs) = []).
  { induction evs as [|s evs IH]; simpl; [reflexivity|].
    unfold dropped at 1. simpl. now rewrite Nat.eqb_refl. }
  now rewrite Hnew, app_nil_r.
Qed.

(** * The further properties on the sample page *)

Lemma sample_dom (target : Node) :
  dom (ls_state (Sample.start target Sample.defined)) = Sample.page.
Proof. vm_compute. reflexivity. Defined.

Lemma sample_container : container (Sample.the Sample.defined 0) = 0.
Proof. vm_compute. reflexivity. Defined.

Lemma quiet_keeps_bindings (c : CompRef) : startups_keep_bindings Sample.quiet c.
Proof. intros code el s. reflexivity. Defined.

Lemma gentle_keeps_path (onPath : Node -> Prop) :
  ~ onPath 1 -> handlers_keep_path Demo.gentle 0 onPath.
Proof.
  intros H1 code el ev index s. split; [|now destruct code as [|[|[|code]]]].
  intros n Hn.
  destruct code as [|[|[|code]]]; try reflexivity.
  cbn [Demo.gentle handler_fn fst dom set_dom].
  apply parent_of_removeChild_other. intros <-. contradiction.
Defined.

Lemma gentle_never_stops : handlers_never_stop Demo.gentle.
Proof.
  intros code el ev index s.
  destruct code as [|[|[|code]]]; simpl; intros H; try contradiction.
  destruct H as [H|[]]. discriminate.
Defined.

Lemma gentle_keeps_bindings : handlers_keep_bindings Demo.gentle 0.
Proof. intros code el ev index s. now destruct code as [|[|[|code]]]. Defined.

Lemma link_path_avoids_header :
  ~ (exists j, ancestor (dom (ls_state (Sample.start 4 Sample.defined))) j 4 = Some 1).
Proof.
  rewrite sample_dom.
  intros [j Hj]. destruct j as [|[|[|j]]]; simpl in Hj; discriminate.
Defined.

Lemma other_path_avoids_header :
  ~ (exists j, ancestor (dom (ls_state (Sample.start 8 Sample.defined))) j 8 = Some 1).
Proof.
  rewrite sample_dom.
  intros [j Hj]. destruct j as [|[|j]]; simpl in Hj; discriminate.
Defined.

Lemma link_below_container (j : nat) :
  j < 2 ->
  ancestor (dom (ls_state (Sample.start 4 Sample.defined))) j 4
  <> Some (container (Sample.the Sample.defined 0)).
Proof.
  intros Hj. rewrite sample_dom, sample_container.
  destruct j as [|[|j]]; [discriminate|discriminate|lia].
Defined.

Lemma link_reaches_container :
  ancestor (dom (ls_state (Sample.start 4 Sample.defined))) 2 4
  = Some (container (Sample.the Sample.defined 0)).
Proof. rewrite sample_dom, sample_container. reflexivity. Defined.

Lemma define_then_element_witness :
  startups_keep_bindings Sample.quiet 0 /\
  heap Sample.created !! 0 = Some (Sample.the Sample.created 0) /\
  length (elements (Sample.the Sample.created 0)) + length Sample.bindings < 10 /\
  returns (Component.define Sample.quiet 10 0 Sample.bindings Sample.created) = true /\
  exists this',
    heap Sample.defined !! 0 = Some this' /\
    declaration <$> Component.element "link" this'
    = Some (declared 0 ".js-component" (Sample.spec "link" [("click", 2)] None None)).
Proof.
  assert (Hh : heap Sample.created !! 0 = Some (Sample.the Sample.created 0))
    by (vm_compute; reflexivity).
  assert (Hfuel : length (elements (Sample.the Sample.created 0))
                  + length Sample.bindings < 10) by (vm_compute; lia).
  destruct (define_then_element Sample.quiet 0 Sample.bindings Sample.created
              (Sample.the Sample.created 0) "link" 10 (quiet_keeps_bindings 0) Hh Hfuel)
    as (Hret & this' & H1 & _ & H3 & _).
  split; [apply quiet_keeps_bindings|]. split; [exact Hh|]. split; [exact Hfuel|].
  split; [exact Hret|].
  exists this'. split; [exact H1|exact H3].
Defined.

Lemma touchPad_returns :
  returns (defines Sample.quiet 10 0 [Sample.touchPad] Sample.created) = true.
Proof. vm_compute. reflexivity. Defined.

Lemma declared_types_have_one_delegate_witness :
  startups_keep_registry Sample.quiet
    (fst (Hub.create "Component" 0 ".js-component" Sample.empty)) /\
  noListenerOfNext Sample.empty /\
  returns (defines Sample.quiet 10 0 [Sample.touchPad] Sample.created) = true /\
  installed (Delegate 0) 0 "touchmove" Demo.touched = 1.
Proof.
  split; [apply quiet_keeps_registry|].
  assert (Hfresh : noListenerOfNext Sample.empty) by (intros nl []).
  split; [exact Hfresh|]. split; [exact touchPad_returns|].
  refine (proj1 (declared_types_have_one_delegate Sample.quiet Sample.empty "Component" 0
                   ".js-component" [Sample.touchPad] 10 (quiet_keeps_registry _) Hfresh)
            touchPad_returns
            Sample.touchPad (Sample.spec "button" [("touchmove", 5); ("touchstart", 6)]
                               None None)
            "touchmove" _ _ _); simpl; auto.
Defined.

Lemma touchmove_finds_touch_state_witness :
  startups_keep_registry Sample.quiet
    (fst (Hub.create "Component" 0 ".js-component" Sample.empty)) /\
  noListenerOfNext Sample.empty /\
  In "touchmove"
     (obj_keys (s_handlers (Sample.spec "button" [("touchmove", 5); ("touchstart", 6)]
                              None None))) /\
  returns (defines Sample.quiet 10 0 [Sample.touchPad] Sample.created) = true /\
  exists this recorded,
    heap Demo.touched !! 0 = Some this /\ touches this = Some recorded.
Proof.
  split; [apply quiet_keeps_registry|].
  assert (Hfresh : noListenerOfNext Sample.empty) by (intros nl []).
  assert (Hin : In "touchmove"
                  (obj_keys (s_handlers (Sample.spec "button"
                                           [("touchmove", 5); ("touchstart", 6)]
                                           None None)))) by (left; reflexivity).
  split; [exact Hfresh|]. split; [exact Hin|]. split; [exact touchPad_returns|].
  destruct (touchmove_finds_touch_state Sample.quiet Sample.empty "Component" 0
              ".js-component" [Sample.touchPad] Sample.touchPad _ 10
              (quiet_keeps_registry _) Hfresh (or_introl eq_refl) (or_introl eq_refl) Hin
              touchPad_returns)
    as (this & recorded & H1 & H2 & _).
  exists this, recorded. split; [exact H1|exact H2].
Defined.

(** A finger put down at (10.5, 10) and moved to (30.25, 12.5). *)
Lemma recorded_touch_gives_direction_witness :
  heap Demo.touched !! 0 = Some (Sample.the Demo.touched 0) /\
  touches (Sample.the Demo.touched 0) <> None /\
  exists st1,
    touchRecorder 0 (Demo.touch "touchstart" 6 10.5 10) Demo.touched = Normal st1 /\
    Component.handler Sample.quiet 5 0 (Demo.touch "touchmove" 6 30.25 12.5)
      Sample.flags0 st1
    = Component.walk Sample.quiet 5 0
        (set_gesture
           (Some {| isHorizontal := true; isLeftToRight := true;
                    isBottomToTop := false |})
           (Demo.touch "touchmove" 6 30.25 12.5))
        {| currentTarget := Some 6; stopPropagation := false;
           ls_flags := Sample.flags0; ls_state := st1 |}.
Proof.
  assert (Hh : heap Demo.touched !! 0 = Some (Sample.the Demo.touched 0))
    by (vm_compute; reflexivity).
  assert (Ht : touches (Sample.the Demo.touched 0) <> None)
    by (vm_compute; discriminate).
  split; [exact Hh|]. split; [exact Ht|].
  destruct (recorded_touch_gives_direction Sample.quiet 0 Demo.touched
              (Sample.the Demo.touched 0) (Demo.touch "touchstart" 6 10.5 10)
              (Demo.touch "touchmove" 6 30.25 12.5) 10.5 10 30.25 12.5 5 Sample.flags0
              Hh Ht eq_refl eq_refl eq_refl)
    as (st1 & this1 & H1 & _ & _ & H2 & _).
  exists st1. split; [exact H1|exact H2].
Defined.


Lemma walk_outside_container_throws_witness :
  handlers_keep_path Demo.gentle 0
    (fun n => exists j,
                ancestor (dom (ls_state (Sample.start 8 Sample.defined))) j 8 = Some n) /\
  handlers_never_stop Demo.gentle /\
  ancestor (dom (ls_state (Sample.start 8 Sample.defined))) 1 8 = Some 7 /\
  parent_of (dom (ls_state (Sample.start 8 Sample.defined))) 7 = None /\
  status (Component.walk Demo.gentle 3 0 (Sample.event "click" 8 None)
            (Sample.start 8 Sample.defined)) = Threw.
Proof.
  assert (Ha : ancestor (dom (ls_state (Sample.start 8 Sample.defined))) 1 8 = Some 7)
    by (rewrite sample_dom; reflexivity).
  assert (Hp : parent_of (dom (ls_state (Sample.start 8 Sample.defined))) 7 = None)
    by (rewrite sample_dom; reflexivity).
  assert (Hmin : forall j, j <= 1 ->
            ancestor (dom (ls_state (Sample.start 8 Sample.defined))) j 8
            <> Some (container (Sample.the Sample.defined 0))).
  { intros j Hj. rewrite sample_dom, sample_container.
    destruct j as [|[|j]]; [discriminate|discriminate|lia]. }
  assert (Hfuel : 2 < 3) by lia.
  split; [exact (gentle_keeps_path _ other_path_avoids_header)|].
  split; [exact gentle_never_stops|]. split; [exact Ha|]. split; [exact Hp|].
  exact (proj1 (walk_outside_container_throws Demo.gentle 0
                  (Sample.event "click" 8 None) (Sample.start 8 Sample.defined)
                  (Sample.the Sample.defined 0) 8 7 1 3
                  (gentle_keeps_path _ other_path_avoids_header) gentle_never_stops
                  defined_heap eq_refl eq_refl Ha Hp Hmin Hfuel)).
Defined.

Lemma dispatch_calls_handlers_along_path_witness :
  handlers_keep_path Demo.gentle 0
    (fun n => exists j,
                ancestor (dom (ls_state (Sample.start 4 Sample.defined))) j 4 = Some n) /\
  handlers_never_stop Demo.gentle /\
  handlers_keep_bindings Demo.gentle 0 /\
  ev_relatedTarget (Sample.event "click" 4 None) = None /\
  List.filter isHandlerCall
    (calls (Component.walk Demo.gentle 5 0 (Sample.event "click" 4 None)
              (Sample.start 4 Sample.defined)))
  = [CHandler "link" "click" 2 1].
Proof.
  assert (Hfuel : 2 < 5) by lia.
  split; [exact (gentle_keeps_path _ link_path_avoids_header)|].
  split; [exact gentle_never_stops|]. split; [exact gentle_keeps_bindings|].
  split; [reflexivity|].
  rewrite (dispatch_calls_handlers_along_path Demo.gentle 0
             (Sample.event "click" 4 None) (Sample.start 4 Sample.defined)
             (Sample.the Sample.defined 0) 4 2 5
             (gentle_keeps_path _ link_path_avoids_header) gentle_never_stops
             gentle_keeps_bindings eq_refl defined_heap eq_refl eq_refl
             link_reaches_container link_below_container Hfuel).
  rewrite sample_dom. vm_compute. reflexivity.
Defined.

Lemma removeAll_detaches_only_cached_witness :
  Element.removeAll Sample.page Sample.dynamicLink
    = Normal (removeChild 4 (removeChild 3 Sample.page),
              set_nodes [] Sample.dynamicLink) /\
  parent_of (removeChild 4 (removeChild 3 Sample.page)) 6 = parent_of Sample.page 6.
Proof.
  assert (Hr : Element.removeAll Sample.page Sample.dynamicLink
               = Normal (removeChild 4 (removeChild 3 Sample.page),
                         set_nodes [] Sample.dynamicLink)) by (vm_compute; reflexivity).
  split; [exact Hr|].
  refine (proj1 (proj2 (proj2 (proj2
            (removeAll_detaches_only_cached _ _ _ _ Hr)))) 6 _).
  vm_compute. intros [H|[H|[]]]; discriminate.
Defined.

Lemma removeAll_throws_on_detached_node_witness :
  In 3 (el_nodes Sample.dynamicLink) /\
  parent_of Demo.stale 3 = None /\
  exists d', Element.removeAll Demo.stale Sample.dynamicLink
             = TypeError (d', Sample.dynamicLink).
Proof.
  assert (Hin : In 3 (el_nodes Sample.dynamicLink)) by (vm_compute; now left).
  assert (Hp : parent_of Demo.stale 3 = None) by (vm_compute; reflexivity).
  split; [exact Hin|]. split; [exact Hp|].
  exact (removeAll_throws_on_detached_node Demo.stale Sample.dynamicLink 3 Hin Hp).
Defined.

Lemma remove_detaches_that_node_witness :
  Element.remove Sample.quiet 0 Sample.page 0 Sample.dynamicLink
    = Normal (removeChild 3 Sample.page, set_nodes [4] Sample.dynamicLink) /\
  exists n,
    fst (Element.get Sample.quiet 0 Sample.page 0 Sample.dynamicLink) = Some n /\
    parent_of (removeChild 3 Sample.page) n = None.
Proof.
  assert (Hr : Element.remove Sample.quiet 0 Sample.page 0 Sample.dynamicLink
               = Normal (removeChild 3 Sample.page, set_nodes [4] Sample.dynamicLink))
    by (vm_compute; reflexivity).
  split; [exact Hr|].
  destruct (remove_detaches_that_node Sample.quiet 0 _ _ 0 _ _ Hr)
    as (n & H1 & H2 & _).
  exists n. split; [exact H1|exact H2].
Defined.



Lemma activate_deactivate_isActive_witness :
  el_template Sample.staticHeader = None /\
  el_nodes Sample.staticHeader !! 0 = Some 1 /\
  Sample.page !! 1 = Some (Sample.node (Some 0) "js-component__header") /\
  exists d1,
    Actions.activate Sample.quiet 0 Sample.page 0 Sample.staticHeader
      = Normal (d1, Sample.staticHeader) /\
    Actions.isActive Sample.quiet 0 d1 0 Sample.staticHeader
      = (Some true, Sample.staticHeader).
Proof.
  assert (Ht : el_template Sample.staticHeader = None) by (vm_compute; reflexivity).
  assert (Hn : el_nodes Sample.staticHeader !! 0 = Some 1) by (vm_compute; reflexivity).
  assert (Hx : Sample.page !! 1 = Some (Sample.node (Some 0) "js-component__header"))
    by reflexivity.
  split; [exact Ht|]. split; [exact Hn|]. split; [exact Hx|].
  destruct (activate_deactivate_isActive Sample.quiet 0 Sample.page 0
              Sample.staticHeader 1 (Sample.node (Some 0) "js-component__header")
              Ht Hn Hx)
    as (d1 & d0 & H1 & _ & H3 & _).
  exists d1. split; [exact H1|exact H3].
Defined.

Lemma actions_throw_out_of_range_witness :
  length (fst (Element.getAll Sample.quiet Sample.page 0 Sample.staticHeader)) <= 1 /\
  Actions.activate Sample.quiet 1 Sample.page 0 Sample.staticHeader
    = TypeError (Sample.page,
                 snd (Element.getAll Sample.quiet Sample.page 0 Sample.staticHeader)).
Proof.
  assert (H : length (fst (Element.getAll Sample.quiet Sample.page 0
                             Sample.staticHeader)) <= 1) by (vm_compute; lia).
  split; [exact H|].
  exact (proj1 (proj2 (actions_throw_out_of_range Sample.quiet 1 Sample.page 0
                         Sample.staticHeader H))).
Defined.





Lemma create_then_delete_restores_components_witness :
  (forall c, In c (hub_components Sample.created) ->
             c < length (heap Sample.created) /\
             Hub.containerIs Sample.created 7 c = false) /\
  hub_components
    (Hub.delete 7 (snd (Hub.create "OtherComponent" 7 ".js-other-component"
                          Sample.created)))
  = hub_components Sample.created.
Proof.
  assert (H : forall c, In c (hub_components Sample.created) ->
                        c < length (heap Sample.created) /\
                        Hub.containerIs Sample.created 7 c = false).
  { intros c [<-|[]]. split; [simpl; lia|reflexivity]. }
  split; [exact H|].
  exact (proj1 (create_then_delete_restores_components "OtherComponent" 7
                  ".js-other-component" Sample.created H)).
Defined.

Lemma listen_then_unsubscribe_restores_witness :
  observersAllocated Demo.otherListening /\
  (forall o, In o (array_of Demo.otherListening (hub_observers Demo.otherListening)) ->
             o_component o <> 0) /\
  array_of
    (Hub.unsubscribe 0 None
       (Signals.listen 0 [{| Signals.sub_event := "a"; Signals.sub_handler := 10 |}]
          Demo.otherListening))
    (hub_observers
       (Hub.unsubscribe 0 None
          (Signals.listen 0 [{| Signals.sub_event := "a"; Signals.sub_handler := 10 |}]
             Demo.otherListening)))
  = array_of Demo.otherListening (hub_observers Demo.otherListening).
Proof.
  assert (Ha : observersAllocated Demo.otherListening).
  { unfold observersAllocated. simpl. lia. }
  assert (Hn : forall o,
            In o (array_of Demo.otherListening (hub_observers Demo.otherListening)) ->
            o_component o <> 0).
  { intros o [<-|[]]. discriminate. }
  split; [exact Ha|]. split; [exact Hn|].
  exact (listen_then_unsubscribe_restores 0
           [{| Signals.sub_event := "a"; Signals.sub_handler := 10 |}]
           Demo.otherListening Ha Hn).
Defined.

Lemma growing_only_adds : startups_only_add Demo.growing 0.
Proof.
  intros code el s this Hh. cbn [Demo.growing startup_fn].
  destruct (Nat.eqb code 7); [|exists this, []; now rewrite app_nil_r].
  rewrite (heap_update_component 0 _ s this Hh).
  destruct (obj_get "extra" (elements this)).
  - exists this, []. now rewrite app_nil_r.
  - eexists. eexists. split; reflexivity.
Defined.

(** The hook of the header adds the binding "extra"; the loop, which began
    with the header alone, goes on to call the hook of "extra". *)
Lemma startups_follow_the_growing_map_witness :
  startups_only_add Demo.growing 0 /\
  obj_keys (elements (Sample.the Demo.headed 0)) = ["header"] /\
  returns (Component.startups Demo.growing 5 0 0 Demo.headed) = true /\
  trace (Component.startups Demo.growing 5 0 0 Demo.headed)
  = [CStartup "header" 7; CStartup "extra" 8].
Proof.
  assert (Hh : heap Demo.headed !! 0 = Some (Sample.the Demo.headed 0))
    by (vm_compute; reflexivity).
  assert (Hret : returns (Component.startups Demo.growing 5 0 0 Demo.headed) = true)
    by (vm_compute; reflexivity).
  assert (Hfin : heap (state (Component.startups Demo.growing 5 0 0 Demo.headed)) !! 0
                 = Some (Sample.the
                           (state (Component.startups Demo.growing 5 0 0 Demo.headed)) 0))
    by (vm_compute; reflexivity).
  split; [exact growing_only_adds|]. split; [vm_compute; reflexivity|].
  split; [exact Hret|].
  rewrite (proj1 (startups_follow_the_growing_map Demo.growing 5 0 0 Demo.headed
                    _ _ growing_only_adds Hh Hret Hfin)).
  vm_compute. reflexivity.
Defined.
